(** * honOS kernel: the exec path of the terminal and the task manager

    A shallow embedding of [kernel/terminal.cpp] (argument marshaling, ELF
    validation and loading, the load cache, [ExecuteFile], the terminal's
    standard-input descriptor) and of the task manager declared in
    [kernel/task.hpp], with the properties the design document states
    about them. *)

From stdpp Require Import gmap list.
From Stdlib Require Import ZArith Lia.

Local Open Scope Z_scope.

(** ** Error codes ([error.hpp])

    Modelled from the spec: [error.hpp] is not among the sources.  The
    codes [terminal.cpp] names are [kSuccess], [kFull], [kInvalidFormat]
    and [kInvalidFile]; the out-of-memory and unknown-task codes are named
    after the design document. *)
Inductive Error : Set :=
  | kSuccess
  | kFull
  | kOutOfMemory
  | kInvalidFormat
  | kInvalidFile
  | kNotFound.

#[global] Instance Error_eq_dec : EqDecision Error.
Proof. solve_decision. Defined.

(** [Error::operator bool]: an error converts to true when it is not
    [kSuccess]; this is the test behind every [if (auto err = ...)]. *)
Definition is_err (e : Error) : bool :=
  match e with kSuccess => false | _ => true end.

(** [WithError<T>]: a value paired with an error code. *)
Record WithError (T : Type) : Type := mkWithError { value : T; error : Error }.
Arguments mkWithError {T} _ _.
Arguments value {T} _.
Arguments error {T} _.

(** ** C strings and machine integers *)

(** [isspace] of the C locale: space, and the five controls 9..13. *)
Definition isspace (c : Z) : bool :=
  (c =? 32) || ((9 <=? c) && (c <=? 13)).

(** Conversion of a wide result to [int] (two's complement, 32 bits). *)
Definition to_int (z : Z) : Z := (z + 2 ^ 31) mod 2 ^ 32 - 2 ^ 31.

(** Conversion to [uint64_t]. *)
Definition to_u64 (z : Z) : Z := z mod 2 ^ 64.

(** The bytes of the C string that starts a byte sequence: everything before
    the first NUL.  A buffer is a list of bytes followed by a terminating NUL
    that the list does not hold, so reading at its length yields 0. *)
Fixpoint cstring (l : list Z) : list Z :=
  match l with
  | [] => []
  | c :: l' => if c =? 0 then [] else c :: cstring l'
  end.

Definition cstring_at (buf : list Z) (i : nat) : list Z := cstring (drop i buf).

(** [p[0]] for a pointer at offset [i] of [buf]. *)
Definition char_at (buf : list Z) (i : nat) : Z := nth i buf 0.

(** Storing a run of bytes from offset [i] on.  A store past the end of the
    modelled buffer is dropped (the source would write past the array). *)
Fixpoint store_bytes (i : nat) (bs : list Z) (buf : list Z) : list Z :=
  match bs with
  | [] => buf
  | b :: bs' => store_bytes (S i) bs' (<[i := b]> buf)
  end.

(** ** Argument marshaling: [MakeArgVector] *)
Module ArgVector.

(** The three character arrays [MakeArgVector] is handed, and a pointer into
    one of them. *)
Inductive Region : Set := RegCommand | RegFirstArg | RegArgbuf.

Inductive Ptr : Set :=
  | Null
  | At (region : Region) (offset : Z).

(** The locals [argc] and [argbuf_index] together with the two output arrays
    the lambda [push_to_argv] captures by reference. *)
Record ArgState : Type := mkArgState {
  argc : Z;
  argbuf_index : Z;
  argv : list Ptr;
  argbuf : list Z
}.

(** The lambda [push_to_argv]; [s] is the string its argument points at. *)
Definition push_to_argv (argv_len argbuf_len : Z) (s : list Z) (st : ArgState)
  : Error * ArgState :=
  if (argv_len <=? argc st) || (argbuf_len <=? argbuf_index st) then (kFull, st)
  else
    (kSuccess,
     {| argc := argc st + 1;
        argbuf_index := to_int (argbuf_index st + (Z.of_nat (length s) + 1));
        argv := <[Z.to_nat (argc st) := At RegArgbuf (argbuf_index st)]> (argv st);
        argbuf := store_bytes (Z.to_nat (argbuf_index st)) (s ++ [0]) (argbuf st) |}).

(** [while (isspace(p[0])) ++p;]: how far [p] advances. *)
Fixpoint count_space (l : list Z) : nat :=
  match l with
  | c :: l' => if isspace c then S (count_space l') else O
  | [] => O
  end.

(** [while (p[0] != 0 && !isspace(p[0])) ++p;]: how far [p] advances. *)
Fixpoint count_token (l : list Z) : nat :=
  match l with
  | c :: l' => if (c =? 0) || isspace c then O else S (count_token l')
  | [] => O
  end.

(** What [MakeArgVector] leaves behind: the returned [WithError<int>], the
    [first_arg] buffer (written in place) and the two output arrays. *)
Record ArgResult : Type := mkArgResult {
  ret : WithError Z;
  first_arg_after : option (list Z);
  state_after : ArgState
}.

(** The [while (true)] loop; [p] is the offset of the pointer [p] in
    [first_arg].  Each round moves [p] forward, so [fuel] above the length of
    the buffer is never used up (see [arg_loop_total]). *)
Fixpoint arg_loop (fuel : nat) (argv_len argbuf_len : Z)
    (p : nat) (buf : list Z) (st : ArgState) : option ArgResult :=
  match fuel with
  | O => None
  | S fuel' =>
      let p := (p + count_space (drop p buf))%nat in
      if char_at buf p =? 0 then
        Some (mkArgResult (mkWithError (argc st) kSuccess) (Some buf) st)
      else
        let arg := p in
        let p := (p + count_token (drop p buf))%nat in
        let is_end := char_at buf p =? 0 in
        let buf := <[p := 0]> buf in
        let '(err, st) := push_to_argv argv_len argbuf_len (cstring_at buf arg) st in
        if is_err err then
          Some (mkArgResult (mkWithError (argc st) err) (Some buf) st)
        else if is_end then
          Some (mkArgResult (mkWithError (argc st) kSuccess) (Some buf) st)
        else arg_loop fuel' argv_len argbuf_len (S p) buf st
  end.

(** [MakeArgVector(command, first_arg, argv, argv_len, argbuf, argbuf_len)].
    [first_arg] is [None] for a null pointer. *)
Definition MakeArgVector (command : list Z) (first_arg : option (list Z))
    (argv : list Ptr) (argv_len : Z) (argbuf : list Z) (argbuf_len : Z)
  : option ArgResult :=
  let st := mkArgState 0 0 argv argbuf in
  let '(err, st) := push_to_argv argv_len argbuf_len (cstring command) st in
  if is_err err then
    Some (mkArgResult (mkWithError (argc st) err) first_arg st)
  else
    match first_arg with
    | None => Some (mkArgResult (mkWithError (argc st) kSuccess) None st)
    | Some buf => arg_loop (S (length buf)) argv_len argbuf_len 0 buf st
    end.

(** The string an [argv] entry points at, read from [argbuf]. *)
Definition argv_string (st : ArgState) (i : nat) : option (list Z) :=
  match argv st !! i with
  | Some (At RegArgbuf off) => Some (cstring_at (argbuf st) (Z.to_nat off))
  | _ => None
  end.

(** *** The argument string, as the design reads it *)

(** A byte of a token: neither the terminator nor white space. *)
Definition word_char (c : Z) : bool := negb ((c =? 0) || isspace c).

(** A token of the argument string with what surrounds it: the white space
    skipped before it, its bytes, and the white-space byte that ends it. *)
Record Segment : Set := mkSegment {
  lead : list Z;
  word : list Z;
  stop : Z
}.

Definition blank (l : list Z) : Prop := Forall (fun c => isspace c = true) l.

Definition is_word (w : list Z) : Prop :=
  w <> [] /\ Forall (fun c => word_char c = true) w.

Definition segment_ok (s : Segment) : Prop :=
  blank (lead s) /\ is_word (word s) /\ isspace (stop s) = true.

(** The bytes of a segment in the caller's string, and the same bytes once
    the loop has gone over them. *)
Definition segment_bytes (s : Segment) : list Z := lead s ++ word s ++ [stop s].
Definition segment_done (s : Segment) : list Z := lead s ++ word s ++ [0].

(** What follows a token: nothing, or a byte that cannot belong to it. *)
Definition ends_word (rest : list Z) : Prop :=
  match rest with
  | [] => True
  | c :: _ => word_char c = false
  end.



(** The bytes a list of strings takes in [argbuf], each with its NUL. *)
Fixpoint packed_size (ss : list (list Z)) : nat :=
  match ss with
  | [] => O
  | s :: ss' => (length s + 1 + packed_size ss')%nat
  end.

(** The strings [ss] are what has been pushed: [argc] counts them,
    [argbuf_index] is past the last of them, and, if the arrays are long
    enough to hold them, entry [i] of [argv] points at the [i]-th string,
    stored with its NUL where the strings before it end. *)
Definition stored (ss : list (list Z)) (st : ArgState) : Prop :=
  argc st = Z.of_nat (length ss) /\
  argbuf_index st = Z.of_nat (packed_size ss) /\
  ((packed_size ss <= length (argbuf st))%nat ->
   (length ss <= length (argv st))%nat ->
   forall (i : nat) (s : list Z), ss !! i = Some s ->
     argv st !! i = Some (At RegArgbuf (Z.of_nat (packed_size (take i ss)))) /\
     forall k : nat, (k <= length s)%nat ->
       argbuf st !! (packed_size (take i ss) + k)%nat = (s ++ [0]) !! k).

End ArgVector.


(** ** ELF images ([elf.hpp], read through [reinterpret_cast])

    The image is the byte buffer the file was read into; a member of
    [Elf64_Ehdr] or [Elf64_Phdr] is the little-endian integer at its
    offset.  A read outside the buffer yields 0 (the source reads whatever
    lies behind the vector there). *)
Module Elf.

Definition byte_at (img : list Z) (off : Z) : Z :=
  if off <? 0 then 0 else nth (Z.to_nat off) img 0 mod 256.

Fixpoint read_le (img : list Z) (off : Z) (n : nat) : Z :=
  match n with
  | O => 0
  | S n' => byte_at img off + 256 * read_le img (off + 1) n'
  end.

(** What [terminal.cpp] takes from [elf.hpp], a header that is not among
    the sources: the two constants it compares with, the size of a program
    header, and where the members it reads lie in [Elf64_Ehdr] and
    [Elf64_Phdr] ([e_ident] is the first member). *)
Class Layout : Set := mkLayout {
  ET_EXEC : Z;
  PT_LOAD : Z;
  sizeof_Phdr : Z;
  offsetof_e_type : Z;
  offsetof_e_entry : Z;
  offsetof_e_phoff : Z;
  offsetof_e_phnum : Z;
  offsetof_p_type : Z;
  offsetof_p_offset : Z;
  offsetof_p_vaddr : Z;
  offsetof_p_filesz : Z;
  offsetof_p_memsz : Z
}.

(** The values the ELF-64 object file format gives them. *)
Definition elf64 : Layout := mkLayout 2 1 56 16 24 32 56 0 8 16 32 40.

(** The [memcmp] of [e_ident] against the four magic bytes 0x7f, E, L, F
    differs from 0 exactly when [has_magic] is false. *)
Definition has_magic (img : list Z) : bool :=
  (byte_at img 0 =? 127) && (byte_at img 1 =? 69) &&
  (byte_at img 2 =? 76) && (byte_at img 3 =? 70).

Section WithLayout.
Context {layout : Layout}.

(** Members of the header: [Elf64_Half] is two bytes wide, [Elf64_Word]
    four, [Elf64_Addr], [Elf64_Off] and [Elf64_Xword] eight. *)
Definition e_type (img : list Z) : Z := read_le img offsetof_e_type 2.
Definition e_entry (img : list Z) : Z := read_le img offsetof_e_entry 8.
Definition e_phoff (img : list Z) : Z := read_le img offsetof_e_phoff 8.
Definition e_phnum (img : list Z) : Z := read_le img offsetof_e_phnum 2.

(** [GetProgramHeader(ehdr)], as the offset of [phdr[i]] in the image. *)
Definition GetProgramHeader (img : list Z) (i : Z) : Z :=
  e_phoff img + sizeof_Phdr * i.

Definition p_type (img : list Z) (i : Z) : Z :=
  read_le img (GetProgramHeader img i + offsetof_p_type) 4.
Definition p_offset (img : list Z) (i : Z) : Z :=
  read_le img (GetProgramHeader img i + offsetof_p_offset) 8.
Definition p_vaddr (img : list Z) (i : Z) : Z :=
  read_le img (GetProgramHeader img i + offsetof_p_vaddr) 8.
Definition p_filesz (img : list Z) (i : Z) : Z :=
  read_le img (GetProgramHeader img i + offsetof_p_filesz) 8.
Definition p_memsz (img : list Z) (i : Z) : Z :=
  read_le img (GetProgramHeader img i + offsetof_p_memsz) 8.

(** The [for] loop of [GetFirstLoadAddress], from index [i] with [todo]
    headers left. *)
Fixpoint first_load_from (img : list Z) (i : Z) (todo : nat) : Z :=
  match todo with
  | O => 0
  | S todo' =>
      if negb (p_type img i =? PT_LOAD) then first_load_from img (i + 1) todo'
      else p_vaddr img i
  end.

Definition GetFirstLoadAddress (img : list Z) : Z :=
  first_load_from img 0 (Z.to_nat (e_phnum img)).

(** *** The same quantities, as the design document words them *)

(** The indices of the program headers, [0 .. e_phnum - 1]. *)
Definition phdr_indices (img : list Z) : list Z :=
  Z.of_nat <$> seq 0 (Z.to_nat (e_phnum img)).

Definition is_load (img : list Z) (i : Z) : bool := p_type img i =? PT_LOAD.

(** The virtual address of the first PT_LOAD segment, taken as 0 when no
    PT_LOAD segment exists. *)
Definition first_load_vaddr (img : list Z) : Z :=
  match List.find (is_load img) (phdr_indices img) with
  | Some i => p_vaddr img i
  | None => 0
  end.

(** The maximum of [p_vaddr + p_memsz] over all PT_LOAD segments. *)
Definition load_end_vaddr (img : list Z) : Z :=
  foldr Z.max 0
    ((fun i => to_u64 (p_vaddr img i + p_memsz img i))
       <$> List.filter (is_load img) (phdr_indices img)).

(** The image is of type ET_EXEC and its first PT_LOAD segment lies in the
    canonical higher half. *)
Definition passes_checks (img : list Z) : bool :=
  (e_type img =? ET_EXEC) && (0xffff800000000000 <=? first_load_vaddr img).

End WithLayout.

(** *** Building an ELF-64 image, for examples *)

Fixpoint le_bytes (n : nat) (v : Z) : list Z :=
  match n with
  | O => []
  | S n' => v mod 256 :: le_bytes n' (v / 256)
  end.

Definition make_ehdr (type entry phoff phnum : Z) : list Z :=
  [127; 69; 76; 70; 2; 1; 1; 0; 0; 0; 0; 0; 0; 0; 0; 0]
    ++ le_bytes 2 type ++ le_bytes 2 62 ++ le_bytes 4 1 ++ le_bytes 8 entry
    ++ le_bytes 8 phoff ++ le_bytes 8 0 ++ le_bytes 4 0 ++ le_bytes 2 64
    ++ le_bytes 2 56 ++ le_bytes 2 phnum ++ le_bytes 2 64 ++ le_bytes 2 0
    ++ le_bytes 2 0.

Definition make_phdr (type offset vaddr filesz memsz : Z) : list Z :=
  le_bytes 4 type ++ le_bytes 4 5 ++ le_bytes 8 offset ++ le_bytes 8 vaddr
    ++ le_bytes 8 vaddr ++ le_bytes 8 filesz ++ le_bytes 8 memsz
    ++ le_bytes 8 4096.

End Elf.

(** ** Messages ([message.hpp]) and tasks ([task.hpp]) *)

(** Modelled from the spec: the tagged union [Message] of [message.hpp],
    which is not among the sources; one constructor per [type] tag with the
    member of [arg] that tag selects, named as [terminal.cpp] reads them. *)
Inductive Message : Set :=
  | MsgInterruptXHCI
  | MsgTimerTimeout (timeout : Z) (value : Z)
  | MsgKeyPush (modifier keycode ascii : Z) (press : bool)
  | MsgLayer (task_id layer_id op x y w h : Z)
  | MsgLayerFinish
  | MsgWindowActive (activate : bool).

(** The terminal file descriptor [ExecuteFile] installs three times. *)
Inductive FileDescriptor : Set :=
  | TerminalFileDescriptor (task_id : Z).

(** Modelled from the spec: [class Task] with, besides the [id_], the
    saved context (kept down to its [cr3]) and the mailbox [msgs_] that
    [task.hpp] declares, what [terminal.cpp] reaches through accessors:
    the demand-paging window, the file-map end, the open files and the
    file maps. *)
Record Task : Type := mkTask {
  id_ : Z;
  context_cr3 : Z;
  msgs_ : list Message;
  dpaging_begin_ : Z;
  dpaging_end_ : Z;
  file_map_end_ : Z;
  files_ : list FileDescriptor;
  file_maps_ : list Z
}.

Definition new_Task (id : Z) : Task := mkTask id 0 [] 0 0 0 [] [].

(** Modelled from the spec: [Task::SendMessage] of [task.cpp] appends the
    message to the mailbox. *)
Definition Task_SendMessage (msg : Message) (t : Task) : Task :=
  mkTask (id_ t) (context_cr3 t) (msgs_ t ++ [msg]) (dpaging_begin_ t)
    (dpaging_end_ t) (file_map_end_ t) (files_ t) (file_maps_ t).

(** Modelled from the spec: [Task::ReceiveMessage] of [task.cpp] pops and
    returns the oldest mailbox entry, or nothing when there is none. *)
Definition Task_ReceiveMessage (t : Task) : option Message * Task :=
  match msgs_ t with
  | [] => (None, t)
  | m :: rest =>
      (Some m,
       mkTask (id_ t) (context_cr3 t) rest (dpaging_begin_ t)
         (dpaging_end_ t) (file_map_end_ t) (files_ t) (file_maps_ t))
  end.

(** ** Paging, the load cache and [Terminal::ExecuteFile] *)
Module Exec.

(** [AppLoadInfo]: [vaddr_end], [entry] and the top-level table [pml4]. *)
Record AppLoadInfo : Set := mkAppLoadInfo {
  vaddr_end : Z;
  entry : Z;
  pml4 : Z
}.

Definition no_AppLoadInfo : AppLoadInfo := mkAppLoadInfo 0 0 0.

(** [fat::DirectoryEntry], as far as the loader looks at it: where the entry
    lives (the key of [app_loads]), [file_size], and the bytes
    [fat::LoadFile] reads for it. *)
Record DirectoryEntry : Type := mkDirectoryEntry {
  entry_addr : Z;
  file_size : Z;
  file_data : list Z
}.

(** The frame allocator, the tables in physical memory and the CR3 register.
    [kernel_pml4] is the table [ResetCR3] switches back to. *)
Record Paging : Type := mkPaging {
  cr3 : Z;
  kernel_pml4 : Z;
  frame_pool : list Z;
  used_frames : gset Z;
  tables : gmap Z (list Z)
}.

(** What the exec path does to the outside, in order. *)
Inductive Event : Set :=
  | EvLoadFile (entry : Z) (len : Z)
  | EvSetupPageMaps (addr num_4kpages : Z) (writable : option bool)
  | EvMemcpy (dst src_offset n : Z)
  | EvMemset (dst n : Z)
  | EvCallApp (argc entry rsp : Z)
  | EvPrintExit (ret : Z).

(** The state the exec path runs on: paging, the current task, the global
    [app_loads], the argument frame once it is filled, and the events so
    far (latest last). *)
Record Kernel : Type := mkKernel {
  paging : Paging;
  task : Task;
  app_loads : gmap Z AppLoadInfo;
  args_frame : option ArgVector.ArgResult;
  trace : list Event
}.

(** The parts of the kernel that [terminal.cpp] calls and that lie outside
    it: mapping and unmapping pages ([paging.cpp]) and the application
    itself, entered through [CallApp].  The third argument of
    [SetupPageMaps] is [None] where the call leaves it out. *)
Class Platform : Type := mkPlatform {
  SetupPageMaps : Z -> Z -> option bool -> Paging -> Error * Paging;
  CleanPageMaps : Z -> Paging -> Error * Paging;
  CallApp : Z -> Z -> Z -> Kernel -> Z * Kernel
}.

(** *** A state monad over [Kernel] *)
Definition M (A : Type) : Type := Kernel -> A * Kernel.

Definition Return {A : Type} (a : A) : M A := fun k => (a, k).

Definition Bind {A B : Type} (m : M A) (f : A -> M B) : M B :=
  fun k => let '(a, k') := m k in f a k'.

Notation "'let*' x ':=' c 'in' f" := (Bind c (fun x => f))
  (at level 10, x name, c at level 200, f at level 200, only parsing).

Definition on_paging {A : Type} (f : Paging -> A * Paging) : M A :=
  fun k =>
    let '(a, pg) := f (paging k) in
    (a, mkKernel pg (task k) (app_loads k) (args_frame k) (trace k)).

Definition on_task (f : Task -> Task) : M unit :=
  fun k => (tt, mkKernel (paging k) (f (task k)) (app_loads k) (args_frame k) (trace k)).

Definition emit (e : Event) : M unit :=
  fun k => (tt, mkKernel (paging k) (task k) (app_loads k) (args_frame k) (trace k ++ [e])).

Definition GetCR3 : M Z := fun k => (cr3 (paging k), k).

Definition SetCR3 (v : Z) : M unit :=
  on_paging (fun pg =>
    (tt, mkPaging v (kernel_pml4 pg) (frame_pool pg) (used_frames pg) (tables pg))).

Definition ResetCR3 : M unit :=
  on_paging (fun pg =>
    (tt, mkPaging (kernel_pml4 pg) (kernel_pml4 pg) (frame_pool pg) (used_frames pg)
           (tables pg))).

Definition set_context_cr3 (v : Z) : M unit :=
  on_task (fun t =>
    mkTask (id_ t) v (msgs_ t) (dpaging_begin_ t) (dpaging_end_ t)
      (file_map_end_ t) (files_ t) (file_maps_ t)).

(** *** Page tables *)

(** A table of 512 zero entries. *)
Definition zero_table : list Z := replicate 512 0.
Arguments zero_table : simpl never.

(** The 512 entries of the table at [addr]. *)
Definition read_table (pg : Paging) (addr : Z) : list Z :=
  default zero_table (tables pg !! addr).

Definition write_table (addr : Z) (entries : list Z) (pg : Paging) : Paging :=
  mkPaging (cr3 pg) (kernel_pml4 pg) (frame_pool pg) (used_frames pg)
    (<[addr := entries]> (tables pg)).

(** Modelled from the spec: the frame allocator under [NewPageMap]
    ([memory_manager.hpp] is not part of the sources).  One frame is handed
    out, the first of the pool that is not in use; with none left the
    allocation fails with the out-of-memory code. *)
Definition Allocate1 (pg : Paging) : WithError Z * Paging :=
  match find (fun f => bool_decide (f ∉ used_frames pg)) (frame_pool pg) with
  | Some f =>
      (mkWithError f kSuccess,
       mkPaging (cr3 pg) (kernel_pml4 pg) (frame_pool pg) ({[f]} ∪ used_frames pg)
         (tables pg))
  | None => (mkWithError 0 kOutOfMemory, pg)
  end.

(** Modelled from the spec: [NewPageMap] of [paging.cpp], the allocation of
    one fresh top-level table frame, zero-filled; [OutOfMemory] when no
    frame is available. *)
Definition NewPageMap (pg : Paging) : WithError Z * Paging :=
  let '(frame, pg) := Allocate1 pg in
  if is_err (error frame) then (mkWithError 0 (error frame), pg)
  else (mkWithError (value frame) kSuccess,
        write_table (value frame) zero_table pg).

(** Modelled from the spec: [FreePageMap] of [paging.cpp], which frees
    exactly the one physical frame backing the table and never walks into
    child tables. *)
Definition FreePageMap (table : Z) (pg : Paging) : Error * Paging :=
  (kSuccess,
   mkPaging (cr3 pg) (kernel_pml4 pg) (frame_pool pg) (used_frames pg ∖ {[table]})
     (tables pg)).

(** Entry [i] of the table at [addr], and a table given entry by entry. *)
Definition entry_at (pg : Paging) (addr : Z) (i : nat) : Z :=
  nth i (read_table pg addr) 0.

Definition build_table (f : nat -> Z) : list Z := map f (seq 0 512).

(** Modelled from the spec: [CopyPageMaps] of [paging.cpp].  For the call
    [CopyPageMaps(dst, src, 4, 256)] the design document says: alias slots
    [4, 256) of [src] into [dst], which shares the lower-level tables
    without copying any page contents.  No failure is described. *)
Definition CopyPageMaps (dst src : Z) (first last : Z) (pg : Paging)
  : Error * Paging :=
  (kSuccess,
   write_table dst
     (build_table (fun i =>
        if (first <=? Z.of_nat i) && (Z.of_nat i <? last)
        then entry_at pg src i else entry_at pg dst i))
     pg).

(** [memcpy(pml4.value, current_pml4, 256 * sizeof(uint64_t))]. *)
Definition copy_kernel_half (dst src : Z) (pg : Paging) : unit * Paging :=
  (tt,
   write_table dst
     (build_table (fun i =>
        if (i <? 256)%nat then entry_at pg src i else entry_at pg dst i))
     pg).

Section WithPlatform.
Context {layout : Elf.Layout} {platform : Platform}.

(** [SetupPML4(current_task)]. *)
Definition SetupPML4 : M (WithError Z) :=
  let* pml4 := on_paging NewPageMap in
  if is_err (error pml4) then Return pml4
  else
    let* current_pml4 := GetCR3 in
    let* _ := on_paging (copy_kernel_half (value pml4) current_pml4) in
    let* _ := SetCR3 (value pml4) in
    let* _ := set_context_cr3 (value pml4) in
    Return pml4.

(** [FreePML4(current_task)]. *)
Definition FreePML4 : M Error :=
  fun k =>
    let cr3 := context_cr3 (task k) in
    (let* _ := set_context_cr3 0 in
     let* _ := ResetCR3 in
     on_paging (FreePageMap cr3)) k.

(** The loop of [CopyLoadSegments], from header [i] with [todo] headers
    left.  The copy and the zero fill go to user memory, which is not
    modelled: they are recorded as events. *)
Fixpoint copy_segments_from (img : list Z) (i : Z) (todo : nat) (last_addr : Z)
  : M (WithError Z) :=
  match todo with
  | O => Return (mkWithError last_addr kSuccess)
  | S todo' =>
      if negb (Elf.p_type img i =? Elf.PT_LOAD) then
        copy_segments_from img (i + 1) todo' last_addr
      else
        let last_addr :=
          Z.max last_addr (to_u64 (Elf.p_vaddr img i + Elf.p_memsz img i)) in
        let num_4kpages := to_u64 (Elf.p_memsz img i + 4095) / 4096 in
        let* _ := emit (EvSetupPageMaps (Elf.p_vaddr img i) num_4kpages (Some false)) in
        let* err :=
          on_paging (SetupPageMaps (Elf.p_vaddr img i) num_4kpages (Some false)) in
        if is_err err then Return (mkWithError last_addr err)
        else
          let* _ := emit (EvMemcpy (Elf.p_vaddr img i) (Elf.p_offset img i) (Elf.p_filesz img i)) in
          let* _ := emit (EvMemset (to_u64 (Elf.p_vaddr img i + Elf.p_filesz img i))
                            (to_u64 (Elf.p_memsz img i - Elf.p_filesz img i))) in
          copy_segments_from img (i + 1) todo' last_addr
  end.

Definition CopyLoadSegments (img : list Z) : M (WithError Z) :=
  copy_segments_from img 0 (Z.to_nat (Elf.e_phnum img)) 0.

(** [LoadELF(ehdr)]. *)
Definition LoadELF (img : list Z) : M (WithError Z) :=
  if negb (Elf.e_type img =? Elf.ET_EXEC) then Return (mkWithError 0 kInvalidFormat)
  else
    let addr_first := Elf.GetFirstLoadAddress img in
    if addr_first <? 0xffff800000000000 then Return (mkWithError 0 kInvalidFormat)
    else CopyLoadSegments img.

(** Modelled from the spec: [fat::LoadFile] of the filesystem driver fills
    the buffer [std::vector<uint8_t> file_buf(file_entry.file_size)] with
    the first [file_size] bytes of the file. *)
Definition file_buf (file_entry : DirectoryEntry) : list Z :=
  resize (Z.to_nat (file_size file_entry)) 0 (file_data file_entry).

Definition LoadFile (file_entry : DirectoryEntry) : M (list Z) :=
  let* _ := emit (EvLoadFile (entry_addr file_entry) (file_size file_entry)) in
  Return (file_buf file_entry).

(** [app_loads->insert(std::make_pair(&file_entry, app_load))]: an insertion
    that keeps an entry already there. *)
Definition insert_app_load (key : Z) (app_load : AppLoadInfo) : M unit :=
  fun k =>
    (tt,
     mkKernel (paging k) (task k)
       (match app_loads k !! key with
        | Some _ => app_loads k
        | None => <[key := app_load]> (app_loads k)
        end)
       (args_frame k) (trace k)).

(** [LoadApp(file_entry, task)]. *)
Definition LoadApp (file_entry : DirectoryEntry) : M (WithError AppLoadInfo) :=
  let* r := SetupPML4 in
  if is_err (error r) then Return (mkWithError no_AppLoadInfo (error r))
  else
    let temp_pml4 := value r in
    fun k =>
      (* app_loads->find(&file_entry) *)
      match app_loads k !! entry_addr file_entry with
      | Some app_load =>
          (let* err := on_paging (CopyPageMaps temp_pml4 (pml4 app_load) 4 256) in
           Return (mkWithError
                   (mkAppLoadInfo (vaddr_end app_load) (entry app_load) temp_pml4)
                   err)) k
      | None =>
          (let* file_buf := LoadFile file_entry in
           if negb (Elf.has_magic file_buf) then
             Return (mkWithError no_AppLoadInfo kInvalidFile)
           else
             let* loaded := LoadELF file_buf in
             if is_err (error loaded) then
               Return (mkWithError no_AppLoadInfo (error loaded))
             else
               let app_load :=
                 mkAppLoadInfo (value loaded) (Elf.e_entry file_buf) temp_pml4 in
               let* _ := insert_app_load (entry_addr file_entry) app_load in
               let* r2 := SetupPML4 in
               if is_err (error r2) then Return (mkWithError app_load (error r2))
               else
                 let app_load :=
                   mkAppLoadInfo (vaddr_end app_load) (entry app_load) (value r2) in
                 let* err := on_paging (CopyPageMaps (pml4 app_load) temp_pml4 4 256) in
                 Return (mkWithError app_load err)) k
      end.

(** What [ExecuteFile] hands to [CallApp]. *)
Record AppStart : Set := mkAppStart {
  start_argc : Z;
  start_entry : Z;
  start_rsp : Z
}.

Definition set_args_frame (r : ArgVector.ArgResult) : M unit :=
  fun k => (tt, mkKernel (paging k) (task k) (app_loads k) (Some r) (trace k)).

Definition push_file (fd : FileDescriptor) : M unit :=
  on_task (fun t =>
    mkTask (id_ t) (context_cr3 t) (msgs_ t) (dpaging_begin_ t) (dpaging_end_ t)
      (file_map_end_ t) (files_ t ++ [fd]) (file_maps_ t)).

Definition SetDPagingBegin (v : Z) : M unit :=
  on_task (fun t =>
    mkTask (id_ t) (context_cr3 t) (msgs_ t) v (dpaging_end_ t)
      (file_map_end_ t) (files_ t) (file_maps_ t)).

Definition SetDPagingEnd (v : Z) : M unit :=
  on_task (fun t =>
    mkTask (id_ t) (context_cr3 t) (msgs_ t) (dpaging_begin_ t) v
      (file_map_end_ t) (files_ t) (file_maps_ t)).

Definition SetFileMapEnd (v : Z) : M unit :=
  on_task (fun t =>
    mkTask (id_ t) (context_cr3 t) (msgs_ t) (dpaging_begin_ t) (dpaging_end_ t)
      v (files_ t) (file_maps_ t)).

Definition current_task_id : M Z := fun k => (id_ (task k), k).

Definition clear_files_and_maps : M unit :=
  on_task (fun t =>
    mkTask (id_ t) (context_cr3 t) (msgs_ t) (dpaging_begin_ t) (dpaging_end_ t)
      (file_map_end_ t) [] []).

(** The page that holds [argv] and the packed strings, fresh from
    [SetupPageMaps]: 32 null pointers, then 4096 - 8 * 32 zero bytes. *)
Definition args_argv_len : Z := 32.
Definition args_argbuf_len : Z := 4096 - 8 * args_argv_len.

(** [Terminal::ExecuteFile] from its first statement to the point where
    [CallApp] is entered: an early [return err], or the arguments of
    [CallApp]. *)
Definition ExecuteFile_setup (file_entry : DirectoryEntry)
    (command : list Z) (first_arg : option (list Z)) : M (Error + AppStart) :=
  let* loaded := LoadApp file_entry in
  if is_err (error loaded) then Return (inl (error loaded))
  else
    let app_load := value loaded in
    let args_frame_addr := 0xfffffffffffff000 in
    let* _ := emit (EvSetupPageMaps args_frame_addr 1 None) in
    let* err := on_paging (SetupPageMaps args_frame_addr 1 None) in
    if is_err err then Return (inl err)
    else
      match ArgVector.MakeArgVector command first_arg
              (replicate (Z.to_nat args_argv_len) ArgVector.Null) args_argv_len
              (replicate (Z.to_nat args_argbuf_len) 0) args_argbuf_len with
      | None => Return (inl kFull) (* not taken: [MakeArgVector] always returns *)
      | Some made =>
          let* _ := set_args_frame made in
          let argc := ArgVector.ret made in
          if is_err (error argc) then Return (inl (error argc))
          else
            let stack_size := 8 * 4096 in
            let stack_frame_addr := 0xfffffffffffff000 - stack_size in
            let* _ := emit (EvSetupPageMaps stack_frame_addr (stack_size / 4096) None) in
            let* err :=
              on_paging (SetupPageMaps stack_frame_addr (stack_size / 4096) None) in
            if is_err err then Return (inl err)
            else
              let* task_id := current_task_id in
              let fd := TerminalFileDescriptor task_id in
              let* _ := push_file fd in
              let* _ := push_file fd in
              let* _ := push_file fd in
              let elf_next_page :=
                Z.land (to_u64 (vaddr_end app_load + 4095)) 0xfffffffffffff000 in
              let* _ := SetDPagingBegin elf_next_page in
              let* _ := SetDPagingEnd elf_next_page in
              let* _ := SetFileMapEnd stack_frame_addr in
              Return (inr (mkAppStart (value argc) (entry app_load)
                             (stack_frame_addr + stack_size - 8)))
      end.

(** [Terminal::ExecuteFile(file_entry, command, first_arg)]. *)
Definition ExecuteFile (file_entry : DirectoryEntry)
    (command : list Z) (first_arg : option (list Z)) : M Error :=
  let* prepared := ExecuteFile_setup file_entry command first_arg in
  match prepared with
  | inl err => Return err
  | inr start =>
      let* _ := emit (EvCallApp (start_argc start) (start_entry start) (start_rsp start)) in
      let* ret := CallApp (start_argc start) (start_entry start) (start_rsp start) in
      let* _ := emit (EvPrintExit ret) in
      let* _ := clear_files_and_maps in
      let* err := on_paging (CleanPageMaps 0xffff800000000000) in
      if is_err err then Return err
      else FreePML4
  end.

End WithPlatform.

(** A platform to run the definitions on: mapping [num] pages takes [num]
    frames from the pool (page by page, out of memory when the pool is
    used up), cleaning gives nothing back, and the application returns
    status 7 at once. *)
Fixpoint take_frames (n : nat) (pg : Paging) : Error * Paging :=
  match n with
  | O => (kSuccess, pg)
  | S n' =>
      let '(frame, pg) := Allocate1 pg in
      if is_err (error frame) then (error frame, pg) else take_frames n' pg
  end.

Definition test_platform : Platform :=
  mkPlatform
    (fun _ num _ pg => take_frames (Z.to_nat num) pg)
    (fun _ pg => (kSuccess, pg))
    (fun _ _ _ k => (7, k)).

(** The kernel after a successful [SetupPML4] that got the frame [f]. *)
Definition after_SetupPML4 (f : Z) (k : Kernel) : Kernel :=
  let pg := paging k in
  let pg1 := mkPaging (cr3 pg) (kernel_pml4 pg) (frame_pool pg)
               ({[f]} ∪ used_frames pg) (<[f := zero_table]> (tables pg)) in
  let pg2 := snd (copy_kernel_half f (cr3 pg) pg1) in
  let t := task k in
  mkKernel
    (mkPaging f (kernel_pml4 pg) (frame_pool pg) (used_frames pg2) (tables pg2))
    (mkTask (id_ t) f (msgs_ t) (dpaging_begin_ t) (dpaging_end_ t)
       (file_map_end_ t) (files_ t) (file_maps_ t))
    (app_loads k) (args_frame k) (trace k).


(** *** Inputs for examples *)

(** A machine after boot: the kernel's table at 0x1000 is active, twenty
    frames from 0x100000 on are free, nothing is cached. *)
Definition boot_paging : Paging :=
  mkPaging 4096 4096 ((fun i => 1048576 + 4096 * Z.of_nat i) <$> seq 0 20) ∅
    {[ 4096 := build_table (fun i => if (i <? 256)%nat then 4096 * Z.of_nat (2 + i) + 3 else 0) ]}.

Definition boot_kernel : Kernel := mkKernel boot_paging (new_Task 2) ∅ None [].

(** A text file: the five bytes of the word hello. *)
Definition text_file : DirectoryEntry :=
  mkDirectoryEntry 24576 5 [104; 101; 108; 108; 111].

(** An executable with a PT_PHDR header (type 6, not loaded) and one
    PT_LOAD segment of 0x1234 bytes at the bottom of the higher half. *)
Definition app_image : list Z :=
  Elf.make_ehdr 2 0xffff800000000120 64 2
    ++ Elf.make_phdr 6 64 0 112 112
    ++ Elf.make_phdr 1 0 0xffff800000000000 176 0x1234.

Definition app_file : DirectoryEntry :=
  mkDirectoryEntry 24608 (Z.of_nat (length app_image)) app_image.

(** A shared object (type ET_DYN, 3) with one PT_LOAD segment at address 0. *)
Definition dyn_image : list Z :=
  Elf.make_ehdr 3 0x120 64 1 ++ Elf.make_phdr 1 0 0 120 0x1234.

Definition dyn_file : DirectoryEntry :=
  mkDirectoryEntry 24640 (Z.of_nat (length dyn_image)) dyn_image.

(** The machine with [app_file] already cached under a canonical root at
    0x100000. *)
Definition warm_kernel : Kernel :=
  mkKernel
    (mkPaging 4096 4096 (frame_pool boot_paging) {[ 1048576 ]}
       (<[ 1048576 := build_table (fun i => if (i =? 256)%nat then 2097155 else 0) ]>
          (tables boot_paging)))
    (new_Task 2)
    {[ 24608 := mkAppLoadInfo 0xffff800000001234 0xffff800000000120 1048576 ]}
    None [].

End Exec.

(** ** The task manager ([task.hpp]; its member functions are in [task.cpp]) *)
Module Scheduler.

(** [class TaskManager].  A [Task*] in [running_] is the position of the
    task in [tasks_]: tasks are never removed, so the position identifies
    the object. *)
Record TaskManager : Type := mkTaskManager {
  tasks_ : list Task;
  latest_id_ : Z;
  running_ : list nat
}.

Definition set_running (q : list nat) (tm : TaskManager) : TaskManager :=
  mkTaskManager (tasks_ tm) (latest_id_ tm) q.

(** Modelled from the spec: [TaskManager::NewTask] of [task.cpp] allocates
    a fresh task with the next id and does not enqueue it. *)
Definition NewTask (tm : TaskManager) : nat * TaskManager :=
  let id := to_u64 (latest_id_ tm + 1) in
  (length (tasks_ tm), mkTaskManager (tasks_ tm ++ [new_Task id]) id (running_ tm)).

(** Modelled from the spec: the state after initialization of [task.cpp],
    one task, always present, at the front of the run queue. *)
Definition InitializeTask : TaskManager :=
  let '(t, tm) := NewTask (mkTaskManager [] 0 []) in
  set_running [t] tm.

(** Modelled from the spec: [TaskManager::SwitchTask] of [task.cpp] pops the
    front of the run queue and, unless the current task is to sleep, pushes
    it to the back; the new front becomes current.  (The register switch
    itself is outside the model.) *)
Definition SwitchTask (current_sleep : bool) (tm : TaskManager) : TaskManager :=
  match running_ tm with
  | [] => tm
  | current :: rest =>
      set_running (if current_sleep then rest else rest ++ [current]) tm
  end.

(** [running_.erase(it)] for the first position holding [task]. *)
Fixpoint erase_first (task : nat) (q : list nat) : list nat :=
  match q with
  | [] => []
  | t :: q' => if decide (t = task) then q' else t :: erase_first task q'
  end.

(** Modelled from the spec: [TaskManager::Sleep] on a task pointer, of [task.cpp]
    removes the task from the run queue if it is there; when it is the
    front, the removal is the dispatch to the new front. *)
Definition Sleep (task : nat) (tm : TaskManager) : TaskManager :=
  match running_ tm with
  | current :: _ =>
      if decide (current = task) then SwitchTask true tm
      else set_running (erase_first task (running_ tm)) tm
  | [] => tm
  end.

(** Modelled from the spec: [TaskManager::Wakeup] on a task pointer, of [task.cpp]
    appends the task to the back unless it is already in the run queue. *)
Definition Wakeup (task : nat) (tm : TaskManager) : TaskManager :=
  if decide (task ∈ running_ tm) then tm
  else set_running (running_ tm ++ [task]) tm.

(** The lookup by id shared by the three functions below. *)
Definition find_task (id : Z) (tm : TaskManager) : option (nat * Task) :=
  list_find (fun t => id_ t = id) (tasks_ tm).

(** Modelled from the spec: [TaskManager::Sleep(uint64_t)] of [task.cpp]
    fails with [NotFound] if no task has that id. *)
Definition SleepId (id : Z) (tm : TaskManager) : Error * TaskManager :=
  match find_task id tm with
  | None => (kNotFound, tm)
  | Some (i, _) => (kSuccess, Sleep i tm)
  end.

(** Modelled from the spec: [TaskManager::Wakeup(uint64_t)] of [task.cpp]
    fails with [NotFound] if no task has that id. *)
Definition WakeupId (id : Z) (tm : TaskManager) : Error * TaskManager :=
  match find_task id tm with
  | None => (kNotFound, tm)
  | Some (i, _) => (kSuccess, Wakeup i tm)
  end.

(** Modelled from the spec: [TaskManager::SendMessage] of [task.cpp] looks
    up the task by id, fails with [NotFound] if absent, otherwise appends
    the message to its mailbox and makes a sleeping recipient runnable as
    part of the call. *)
Definition SendMessage (id : Z) (msg : Message) (tm : TaskManager)
  : Error * TaskManager :=
  match find_task id tm with
  | None => (kNotFound, tm)
  | Some (i, t) =>
      let tm :=
        mkTaskManager (<[i := Task_SendMessage msg t]> (tasks_ tm))
          (latest_id_ tm) (running_ tm) in
      (kSuccess, Wakeup i tm)
  end.

(** [TaskManager::CurrentTask]: the front of the run queue. *)
Definition CurrentTask (tm : TaskManager) : option nat := head (running_ tm).

(** One call on the manager, and a sequence of calls. *)
Inductive Op : Set :=
  | OpNewTask
  | OpSwitchTask (current_sleep : bool)
  | OpSleep (task : nat)
  | OpSleepId (id : Z)
  | OpWakeup (task : nat)
  | OpWakeupId (id : Z)
  | OpSendMessage (id : Z) (msg : Message).

Definition step (op : Op) (tm : TaskManager) : TaskManager :=
  match op with
  | OpNewTask => snd (NewTask tm)
  | OpSwitchTask b => SwitchTask b tm
  | OpSleep t => Sleep t tm
  | OpSleepId id => snd (SleepId id tm)
  | OpWakeup t => Wakeup t tm
  | OpWakeupId id => snd (WakeupId id tm)
  | OpSendMessage id msg => snd (SendMessage id msg tm)
  end.

Fixpoint run (ops : list Op) (tm : TaskManager) : TaskManager :=
  match ops with
  | [] => tm
  | op :: ops' => run ops' (step op tm)
  end.

(** The call leaves the task [idle] runnable and hands over only pointers
    to tasks the manager owns: [idle] is never the target of a sleep, and
    does not ask to sleep when it yields. *)
Definition allowed (idle : nat) (op : Op) (tm : TaskManager) : bool :=
  match op with
  | OpSwitchTask true => bool_decide (head (running_ tm) ≠ Some idle)
  | OpSleep t => bool_decide (t ≠ idle ∧ (t < length (tasks_ tm))%nat)
  | OpSleepId id => bool_decide (fst <$> find_task id tm ≠ Some idle)
  | OpWakeup t => bool_decide (t < length (tasks_ tm))%nat
  | _ => true
  end.

Fixpoint all_allowed (idle : nat) (ops : list Op) (tm : TaskManager) : bool :=
  match ops with
  | [] => true
  | op :: ops' => allowed idle op tm && all_allowed idle ops' (step op tm)
  end.

(** The run queue holds no task twice, holds only tasks the manager owns,
    and holds the task [idle]. *)
Definition queue_ok (idle : nat) (tm : TaskManager) : Prop :=
  NoDup (running_ tm) /\
  (forall t, t ∈ running_ tm -> (t < length (tasks_ tm))%nat) /\
  idle ∈ running_ tm.

End Scheduler.

(** ** Standard input of an application: [TerminalFileDescriptor::Read] *)
Module StdIn.

(** The two modifier masks of [keyboard.hpp]. *)
Class ControlMasks : Set := mkControlMasks {
  kLControlBitMask : Z;
  kRControlBitMask : Z
}.

(** What a call does besides returning: putting the task to sleep, and the
    two overloads of [Terminal::Print] with the bytes handed over. *)
Inductive Effect : Set :=
  | FxSleep
  | FxPrint (s : list Z)
  | FxPrintLen (s : list Z) (len : Z).

(** The value returned, the caller's buffer afterwards, the effects in
    order, and the answers of [ReceiveMessage] not yet asked for. *)
Record ReadResult : Set := mkReadResult {
  returned : Z;
  buf_after : list Z;
  effects : list Effect;
  unread : list (option Message)
}.

Definition after (e : Effect) (r : option ReadResult) : option ReadResult :=
  match r with
  | Some r => Some (mkReadResult (returned r) (buf_after r) (e :: effects r) (unread r))
  | None => None
  end.

(** [toupper] on a 7-bit character. *)
Definition toupper (c : Z) : Z :=
  if (97 <=? c) && (c <=? 122) then c - 32 else c.

Section WithMasks.
Context `{ControlMasks}.

(** [modifier & (kLControlBitMask | kRControlBitMask)] as a condition. *)
Definition has_control (modifier : Z) : bool :=
  negb (Z.land modifier (Z.lor kLControlBitMask kRControlBitMask) =? 0).

(** [TerminalFileDescriptor::Read(buf, len)].  [polls] are the answers
    [task_.ReceiveMessage()] gives from now on, [None] for an empty
    mailbox; the loop is still waiting ([None]) when they are used up. *)
Fixpoint Read (buf : list Z) (len : Z) (polls : list (option Message))
  : option ReadResult :=
  match polls with
  | [] => None
  | None :: polls' => after FxSleep (Read buf len polls')
  | Some (MsgKeyPush modifier keycode ascii press) :: polls' =>
      if negb press then Read buf len polls'
      else if has_control modifier then
        let s := [94; toupper ascii; 0] in
        if keycode =? 7 then Some (mkReadResult 0 buf [FxPrint s] polls')
        else after (FxPrint s) (Read buf len polls')
      else
        let buf := <[0%nat := ascii]> buf in
        Some (mkReadResult 1 buf [FxPrintLen buf 1] polls')
  | Some _ :: polls' => Read buf len polls'
  end.

(** *** The loop, as the design reads it *)

(** An answer the loop passes over: an empty mailbox, a message that is not
    a key push, a key release, or a press with a control modifier that is
    not keycode 7. *)
Definition passed_over (poll : option Message) : bool :=
  match poll with
  | Some (MsgKeyPush modifier keycode _ true) =>
      has_control modifier && negb (keycode =? 7)
  | _ => true
  end.

(** What passing over an answer does: sleep on an empty mailbox, echo a
    control press, nothing otherwise. *)
Definition passing_effects (poll : option Message) : list Effect :=
  match poll with
  | None => [FxSleep]
  | Some (MsgKeyPush modifier _ ascii true) =>
      if has_control modifier then [FxPrint [94; toupper ascii; 0]] else []
  | Some _ => []
  end.

End WithMasks.
End StdIn.

(** The call returned 1. *)
Definition returned_is_one (r : option StdIn.ReadResult) : Prop :=
  match r with
  | Some r => StdIn.returned r = 1
  | None => False
  end.

(** ** More on the argument string *)
Module ArgLayout.

(** What ends the argument string: the end of the buffer, or a NUL. *)
Definition ends_string (rest : list Z) : Prop := nth 0 rest 0 = 0.

(** No byte of the string is NUL. *)
Definition nonzero (s : list Z) : Prop := Forall (fun c => c <> 0) s.

End ArgLayout.

(** ** More on the loader *)
Module Loader.
Import Exec.

Section WithLayout.
Context {layout : Elf.Layout}.

(** The PT_LOAD headers of an image, in the order of the header table. *)
Definition load_headers (img : list Z) : list Z :=
  List.filter (Elf.is_load img) (Elf.phdr_indices img).

(** Where the segment of header [i] ends in memory. *)
Definition segment_end (img : list Z) (i : Z) : Z :=
  to_u64 (Elf.p_vaddr img i + Elf.p_memsz img i).

(** What [CopyLoadSegments] does for the PT_LOAD header [i]: it maps the
    pages of the segment, then copies the file bytes and zero-fills what
    is left of the segment. *)
Definition map_event (img : list Z) (i : Z) : Event :=
  EvSetupPageMaps (Elf.p_vaddr img i) (to_u64 (Elf.p_memsz img i + 4095) / 4096)
    (Some false).

Definition copy_events (img : list Z) (i : Z) : list Event :=
  [EvMemcpy (Elf.p_vaddr img i) (Elf.p_offset img i) (Elf.p_filesz img i);
   EvMemset (to_u64 (Elf.p_vaddr img i + Elf.p_filesz img i))
     (to_u64 (Elf.p_memsz img i - Elf.p_filesz img i))].

Definition segment_events (img : list Z) (i : Z) : list Event :=
  map_event img i :: copy_events img i.

End WithLayout.

(** A platform whose [SetupPageMaps] hands no frame back to the allocator. *)
Definition keeps_frames (platform : Platform) : Prop :=
  forall (addr num : Z) (writable : option bool) (pg : Paging),
    used_frames pg ⊆ used_frames (snd (SetupPageMaps addr num writable pg)).

(** An executable whose only program header is a PT_PHDR header. *)
Definition bare_image : list Z :=
  Elf.make_ehdr 2 0xffff800000000120 64 1 ++ Elf.make_phdr 6 64 0 56 56.

(** The directory entry of [app_file] after its bytes were overwritten in
    place with a text. *)
Definition overwritten_file : DirectoryEntry :=
  mkDirectoryEntry (entry_addr app_file) 5 [104; 101; 108; 108; 111].

(** A machine with three free frames: enough for a first root table and
    the two pages of [app_image], not for a second root. *)
Definition tight_kernel : Kernel :=
  mkKernel
    (mkPaging 4096 4096 (take 3 (frame_pool boot_paging)) ∅ (tables boot_paging))
    (new_Task 2) ∅ None [].

End Loader.

(** ** The terminal: cursor, line buffer and command history

    [terminal.hpp] and the window and font code are not among the
    sources.  The members of [Terminal] are taken as [terminal.cpp] uses
    them: [cursor_] a [Vector2D<int>], [linebuf_index_] and
    [cmd_history_index_] of type [int], [linebuf_] a character array of
    [kLineMax] bytes, [cmd_history_] a deque of such arrays.  Calls into
    the window are recorded, in order, in [drawn]. *)
Module Terminal.

Record Vector2D : Set := mkVector2D { x : Z; y : Z }.
Record Rectangle : Set := mkRectangle { pos : Vector2D; size : Vector2D }.

(** [operator+] of [Vector2D<int>]. *)
Definition vadd (a b : Vector2D) : Vector2D :=
  mkVector2D (to_int (x a + x b)) (to_int (y a + y b)).

(** The constants of [terminal.hpp] and [window.hpp] that [terminal.cpp]
    names, and [IsHankaku] of the font code, which tells the code points
    that are drawn one column wide. *)
Class Config : Type := mkConfig {
  kRows : Z;
  kColumns : Z;
  kLineMax : Z;
  kTopLeftMargin : Vector2D;
  IsHankaku : Z -> bool
}.

(** [window_->Writer()] and [window_->InnerWriter()]. *)
Inductive Writer : Set := OuterWriter | InnerWriter.

(** The calls into the window; a color is its 24-bit RGB value. *)
Inductive Draw : Set :=
  | FillRectangle (writer : Writer) (at_pos area : Vector2D) (color : Z)
  | WriteAscii (at_pos : Vector2D) (c : Z)
  | WriteUnicode (at_pos : Vector2D) (c : Z)
  | WriteString (at_pos : Vector2D) (s : list Z)
  | MoveWindow (dst : Vector2D) (src : Rectangle).

Record Terminal : Type := mkTerminal {
  show_window_ : bool;
  cursor_ : Vector2D;
  cursor_visible_ : bool;
  linebuf_index_ : Z;
  linebuf_ : list Z;
  cmd_history_ : list (list Z);
  cmd_history_index_ : Z;
  drawn : list Draw
}.

Definition set_cursor (c : Vector2D) (t : Terminal) : Terminal :=
  mkTerminal (show_window_ t) c (cursor_visible_ t) (linebuf_index_ t) (linebuf_ t)
    (cmd_history_ t) (cmd_history_index_ t) (drawn t).

Definition set_cursor_visible (v : bool) (t : Terminal) : Terminal :=
  mkTerminal (show_window_ t) (cursor_ t) v (linebuf_index_ t) (linebuf_ t)
    (cmd_history_ t) (cmd_history_index_ t) (drawn t).

Definition set_linebuf_index (i : Z) (t : Terminal) : Terminal :=
  mkTerminal (show_window_ t) (cursor_ t) (cursor_visible_ t) i (linebuf_ t)
    (cmd_history_ t) (cmd_history_index_ t) (drawn t).

Definition set_linebuf (l : list Z) (t : Terminal) : Terminal :=
  mkTerminal (show_window_ t) (cursor_ t) (cursor_visible_ t) (linebuf_index_ t) l
    (cmd_history_ t) (cmd_history_index_ t) (drawn t).

Definition set_cmd_history (h : list (list Z)) (t : Terminal) : Terminal :=
  mkTerminal (show_window_ t) (cursor_ t) (cursor_visible_ t) (linebuf_index_ t)
    (linebuf_ t) h (cmd_history_index_ t) (drawn t).

Definition set_cmd_history_index (i : Z) (t : Terminal) : Terminal :=
  mkTerminal (show_window_ t) (cursor_ t) (cursor_visible_ t) (linebuf_index_ t)
    (linebuf_ t) (cmd_history_ t) i (drawn t).

Definition draw (d : Draw) (t : Terminal) : Terminal :=
  mkTerminal (show_window_ t) (cursor_ t) (cursor_visible_ t) (linebuf_index_ t)
    (linebuf_ t) (cmd_history_ t) (cmd_history_index_ t) (drawn t ++ [d]).

(** [a[i] = v] on a character array.  An index outside the array is
    undefined in the source; here such a store is dropped. *)
Definition array_set (i : Z) (v : Z) (a : list Z) : list Z :=
  if i <? 0 then a else <[Z.to_nat i := v]> a.

Section WithConfig.
Context {config : Config}.

(** [Terminal::CalcCursorPos]. *)
Definition CalcCursorPos (t : Terminal) : Vector2D :=
  vadd kTopLeftMargin
    (mkVector2D (to_int (4 + 8 * x (cursor_ t))) (to_int (4 + 16 * y (cursor_ t)))).

(** [Terminal::DrawCursor(visible)]. *)
Definition DrawCursor (visible : bool) (t : Terminal) : Terminal :=
  if show_window_ t then
    draw (FillRectangle OuterWriter (CalcCursorPos t) (mkVector2D 7 15)
            (if visible then 0xffffff else 0)) t
  else t.

(** [Terminal::BlinkCursor]. *)
Definition BlinkCursor (t : Terminal) : Rectangle * Terminal :=
  let t := set_cursor_visible (negb (cursor_visible_ t)) t in
  let t := DrawCursor (cursor_visible_ t) t in
  (mkRectangle (CalcCursorPos t) (mkVector2D 7 15), t).

(** [Terminal::Scroll1]. *)
Definition Scroll1 (t : Terminal) : Terminal :=
  let move_src :=
    mkRectangle (vadd kTopLeftMargin (mkVector2D 4 (4 + 16)))
      (mkVector2D (to_int (8 * kColumns)) (to_int (16 * to_int (kRows - 1)))) in
  let t := draw (MoveWindow (vadd kTopLeftMargin (mkVector2D 4 4)) move_src) t in
  draw (FillRectangle InnerWriter
          (mkVector2D 4 (to_int (4 + 16 * y (cursor_ t))))
          (mkVector2D (to_int (8 * kColumns)) 16) 0) t.

(** The carriage return and line feed that [InputKey] and the lambda
    [newline] of [Print] both spell out: column 0 of the next row, or a
    scroll on the last row. *)
Definition newline (t : Terminal) : Terminal :=
  let t := set_cursor (mkVector2D 0 (y (cursor_ t))) t in
  if y (cursor_ t) <? to_int (kRows - 1) then
    set_cursor (mkVector2D (x (cursor_ t)) (to_int (y (cursor_ t) + 1))) t
  else Scroll1 t.

(** [Terminal::Print(char32_t c)]. *)
Definition Print32 (c : Z) (t : Terminal) : Terminal :=
  if negb (show_window_ t) then t
  else if c =? 10 then newline t
  else if IsHankaku c then
    let t := if x (cursor_ t) =? kColumns then newline t else t in
    let t := draw (WriteUnicode (CalcCursorPos t) c) t in
    set_cursor (mkVector2D (to_int (x (cursor_ t) + 1)) (y (cursor_ t))) t
  else
    let t := if to_int (kColumns - 1) <=? x (cursor_ t) then newline t else t in
    let t := draw (WriteUnicode (CalcCursorPos t) c) t in
    set_cursor (mkVector2D (to_int (x (cursor_ t) + 2)) (y (cursor_ t))) t.

(** [Terminal::HistoryUpDown(direction)].  The comparison with
    [cmd_history_.size()] is made in [size_t]. *)
Definition HistoryUpDown (direction : Z) (t : Terminal) : Rectangle * Terminal :=
  let index := cmd_history_index_ t in
  let index :=
    if (direction =? -1) && (0 <=? index) then to_int (index - 1)
    else if (direction =? 1)
            && (to_u64 (to_int (index + 1)) <? Z.of_nat (length (cmd_history_ t)))
    then to_int (index + 1)
    else index in
  let t := set_cmd_history_index index t in
  let t := set_cursor (mkVector2D 1 (y (cursor_ t))) t in
  let first_pos := CalcCursorPos t in
  let draw_area :=
    mkRectangle first_pos (mkVector2D (to_int (8 * to_int (kColumns - 1))) 16) in
  let t := draw (FillRectangle OuterWriter (pos draw_area) (size draw_area) 0) t in
  let history :=
    if 0 <=? index then cstring (default [] (cmd_history_ t !! Z.to_nat index))
    else [] in
  let t := set_linebuf (store_bytes 0 (history ++ [0]) (linebuf_ t)) t in
  let t := set_linebuf_index (to_int (Z.of_nat (length history))) t in
  let t := draw (WriteString first_pos history) t in
  let t := set_cursor (mkVector2D (to_int (linebuf_index_ t + 1)) (y (cursor_ t))) t in
  (draw_area, t).

(** How a call of [InputKey] goes on: it returns the area to redraw, or,
    for a newline, it calls [ExecuteLine]. *)
Inductive KeyResult : Type :=
  | Returns (draw_area : Rectangle) (t : Terminal)
  | RunsLine (t : Terminal).

Definition after_key (r : KeyResult) : Terminal :=
  match r with Returns _ t => t | RunsLine t => t end.

(** [Terminal::InputKey(modifier, keycode, ascii)], from its first
    statement to its return or, in the newline branch, to the call of
    [ExecuteLine]. *)
Definition InputKey (modifier keycode ascii : Z) (t : Terminal) : KeyResult :=
  let t := DrawCursor false t in
  let draw_area := mkRectangle (CalcCursorPos t) (mkVector2D (8 * 2) 16) in
  if ascii =? 10 then
    let t := set_linebuf (array_set (linebuf_index_ t) 0 (linebuf_ t)) t in
    let t :=
      if 0 <? linebuf_index_ t then
        set_cmd_history (linebuf_ t :: removelast (cmd_history_ t)) t
      else t in
    let t := set_linebuf_index 0 t in
    let t := set_cmd_history_index (-1) t in
    RunsLine (newline t)
  else if ascii =? 8 then
    if 0 <? x (cursor_ t) then
      let t := set_cursor (mkVector2D (to_int (x (cursor_ t) - 1)) (y (cursor_ t))) t in
      let t :=
        if show_window_ t then
          draw (FillRectangle OuterWriter (CalcCursorPos t) (mkVector2D 8 16) 0) t
        else t in
      let draw_area := mkRectangle (CalcCursorPos t) (size draw_area) in
      let t :=
        if 0 <? linebuf_index_ t then set_linebuf_index (to_int (linebuf_index_ t - 1)) t
        else t in
      Returns draw_area (DrawCursor true t)
    else Returns draw_area (DrawCursor true t)
  else if negb (ascii =? 0) then
    if (x (cursor_ t) <? to_int (kColumns - 1))
       && (linebuf_index_ t <? to_int (kLineMax - 1)) then
      let t := set_linebuf (array_set (linebuf_index_ t) ascii (linebuf_ t)) t in
      let t := set_linebuf_index (to_int (linebuf_index_ t + 1)) t in
      let t := if show_window_ t then draw (WriteAscii (CalcCursorPos t) ascii) t else t in
      let t := set_cursor (mkVector2D (to_int (x (cursor_ t) + 1)) (y (cursor_ t))) t in
      Returns draw_area (DrawCursor true t)
    else Returns draw_area (DrawCursor true t)
  else if keycode =? 0x51 then
    let '(draw_area, t) := HistoryUpDown (-1) t in
    Returns draw_area (DrawCursor true t)
  else if keycode =? 0x52 then
    let '(draw_area, t) := HistoryUpDown 1 t in
    Returns draw_area (DrawCursor true t)
  else Returns draw_area (DrawCursor true t).

(** The loop of [TaskTerminal] over a command line without newline:
    [terminal->InputKey(0, 0, command_line[i])] for every byte before the
    terminator. *)
Definition type_keys (command_line : list Z) (t : Terminal) : Terminal :=
  foldl (fun t c => after_key (InputKey 0 0 c t)) t (cstring command_line).

End WithConfig.

(** *** The first statements of [ExecuteLine] *)








(** *** Well-formed editor states *)

Section WithConfig.
Context {config : Config}.

(** An array of [kLineMax] bytes with a NUL among them. *)
Definition is_line (l : list Z) : Prop :=
  Z.of_nat (length l) = kLineMax /\ Z.of_nat (length (cstring l)) < kLineMax.

(** The line buffer and the history as [InputKey] keeps them: the index
    inside the buffer with room for the terminator, a history that is not
    empty and holds terminated lines, and a history position that is -1
    or names an entry (the entries can be counted in an [int]). *)
Definition editor_ok (t : Terminal) : Prop :=
  0 <= linebuf_index_ t <= kLineMax - 1 /\
  Z.of_nat (length (linebuf_ t)) = kLineMax /\
  cmd_history_ t <> [] /\
  Forall is_line (cmd_history_ t) /\
  -1 <= cmd_history_index_ t < Z.of_nat (length (cmd_history_ t)) /\
  Z.of_nat (length (cmd_history_ t)) < 2 ^ 31.

(** Sizes for which no [int] computation of the terminal wraps. *)
Definition config_ok : Prop :=
  1 <= kRows < 2 ^ 24 /\ 2 <= kColumns < 2 ^ 24 /\ 1 <= kLineMax < 2 ^ 24.

(** The cursor is on the screen: a row of the text area, and a column
    that is at most one past the last. *)
Definition cursor_ok (t : Terminal) : Prop :=
  0 <= x (cursor_ t) <= kColumns /\ 0 <= y (cursor_ t) <= kRows - 1.

(** The columns a code point takes. *)
Definition columns_of (c : Z) : Z := if IsHankaku c then 1 else 2.

(** A byte that [InputKey] puts into the line: not NUL, not a newline and
    not a backspace. *)
Definition is_typed (c : Z) : Prop := c <> 0 /\ c <> 10 /\ c <> 8.

(** How many more bytes can be typed: up to the last column but one, and
    up to the last byte but one of the line buffer. *)
Definition room (t : Terminal) : Z :=
  Z.max 0 (Z.min (kColumns - 1 - x (cursor_ t)) (kLineMax - 1 - linebuf_index_ t)).

End WithConfig.

(** *** Inputs for examples *)

(** Fifteen rows of sixty columns, lines of up to 128 bytes, and the
    seven-bit code points one column wide. *)
Definition example_config : Config :=
  mkConfig 15 60 128 (mkVector2D 4 24) (fun c => c <? 128).

(** A terminal that shows its prompt: the cursor after it, an empty line
    and a history of eight empty lines. *)
Definition at_prompt : Terminal :=
  mkTerminal true (mkVector2D 1 0) false 0 (replicate 128 0)
    (replicate 8 (replicate 128 0)) (-1) [].

End Terminal.

(** * Properties *)

(** ** Page tables and the two roots of [LoadApp] *)
Section ExecProperties.
Import Exec.
Context {layout : Elf.Layout} {platform : Platform}.

Lemma build_table_lookup (g : nat -> Z) (i : nat) :
  (i < 512)%nat -> nth i (build_table g) 0 = g i.
Proof.
  intros Hi. unfold build_table. rewrite nth_lookup, list_lookup_fmap.
  rewrite lookup_seq_lt by lia. reflexivity.
Qed.

Lemma read_table_write_eq (a : Z) (t : list Z) (pg : Paging) :
  read_table (write_table a t pg) a = t.
Proof. unfold read_table, write_table. simpl. by rewrite lookup_insert_eq. Qed.

Lemma read_table_write_ne (a b : Z) (t : list Z) (pg : Paging) :
  a <> b -> read_table (write_table a t pg) b = read_table pg b.
Proof. intros Hne. unfold read_table, write_table. simpl. by rewrite lookup_insert_ne. Qed.

Lemma entry_at_write_ne (a b : Z) (t : list Z) (pg : Paging) (i : nat) :
  a <> b -> entry_at (write_table a t pg) b i = entry_at pg b i.
Proof. intros Hne. unfold entry_at. by rewrite read_table_write_ne. Qed.

(** The allocator hands out a frame that was not in use, or fails and
    leaves everything as it was. *)
Lemma Allocate1_inv (pg pg' : Paging) (r : WithError Z) :
  Allocate1 pg = (r, pg') ->
  (error r = kSuccess /\ (value r ∉ used_frames pg) /\
   pg' = mkPaging (cr3 pg) (kernel_pml4 pg) (frame_pool pg)
           ({[value r]} ∪ used_frames pg) (tables pg))
  \/ (r = mkWithError 0 kOutOfMemory /\ pg' = pg).
Proof.
  unfold Allocate1. destruct (find _ _) as [f|] eqn:Hf; intros [= <- <-].
  - left. apply find_some in Hf as [_ Hf].
    apply bool_decide_eq_true in Hf. auto.
  - right. auto.
Qed.

Lemma NewPageMap_inv (pg pg' : Paging) (r : WithError Z) :
  NewPageMap pg = (r, pg') ->
  (error r = kSuccess /\ (value r ∉ used_frames pg) /\
   pg' = mkPaging (cr3 pg) (kernel_pml4 pg) (frame_pool pg)
           ({[value r]} ∪ used_frames pg)
           (<[value r := zero_table]> (tables pg)))
  \/ (r = mkWithError 0 kOutOfMemory /\ pg' = pg).
Proof.
  unfold NewPageMap. destruct (Allocate1 pg) as [fr pg1] eqn:Ha.
  apply Allocate1_inv in Ha as [(He & Hfresh & ->)|[-> ->]].
  - rewrite He. simpl. intros [= <- <-]. left. simpl. auto.
  - simpl. intros [= <- <-]. right. auto.
Qed.

Lemma SetupPML4_inv (k k' : Kernel) (r : WithError Z) :
  SetupPML4 k = (r, k') ->
  (error r = kSuccess /\ (value r ∉ used_frames (paging k)) /\
   k' = after_SetupPML4 (value r) k)
  \/ (r = mkWithError 0 kOutOfMemory /\ k' = k).
Proof.
  unfold SetupPML4, Bind, on_paging.
  destruct (NewPageMap (paging k)) as [r0 pg'] eqn:Hn.
  apply NewPageMap_inv in Hn as [(He & Hfresh & ->)|[-> ->]].
  - rewrite He. simpl. intros [= <- <-]. left. repeat split; done.
  - simpl. intros [= <- <-]. right. split; [done|]. by destruct k.
Qed.

(** [LoadApp] when the file is in the cache, spelled out. *)
Lemma LoadApp_hit (file : DirectoryEntry) (k : Kernel) (cached : AppLoadInfo) :
  app_loads k !! entry_addr file = Some cached ->
  LoadApp file k =
    let '(r0, k1) := SetupPML4 k in
    if is_err (error r0) then (mkWithError no_AppLoadInfo (error r0), k1)
    else
      (mkWithError (mkAppLoadInfo (vaddr_end cached) (entry cached) (value r0)) kSuccess,
       mkKernel (snd (CopyPageMaps (value r0) (pml4 cached) 4 256 (paging k1)))
         (task k1) (app_loads k1) (args_frame k1) (trace k1)).
Proof.
  intros Hhit. unfold LoadApp, Bind.
  destruct (SetupPML4 k) as [r0 k1] eqn:Hs.
  destruct (is_err (error r0)) eqn:He; [reflexivity|].
  apply SetupPML4_inv in Hs as [(_ & _ & ->)|[-> ->]]; [|discriminate].
  simpl. rewrite Hhit. reflexivity.
Qed.

Lemma after_SetupPML4_read (f : Z) (k : Kernel) (a : Z) :
  a <> f -> read_table (paging (after_SetupPML4 f k)) a = read_table (paging k) a.
Proof.
  intros Hne. unfold after_SetupPML4, copy_kernel_half, write_table, read_table.
  cbn [paging tables snd]. rewrite !lookup_insert_ne by congruence. reflexivity.
Qed.

(** What one load of a cached file does. *)
Lemma LoadApp_hit_facts (file : DirectoryEntry) (k : Kernel) (cached : AppLoadInfo) :
  app_loads k !! entry_addr file = Some cached ->
  let r := fst (LoadApp file k) in
  let k' := snd (LoadApp file k) in
  trace k' = trace k /\ app_loads k' = app_loads k /\
  (error r <> kSuccess -> k' = k) /\
  (error r = kSuccess ->
     let root := pml4 (value r) in
     vaddr_end (value r) = vaddr_end cached /\
     entry (value r) = entry cached /\
     (root ∉ used_frames (paging k)) /\
     used_frames (paging k') = {[root]} ∪ used_frames (paging k) /\
     cr3 (paging k') = root /\ context_cr3 (task k') = root /\
     (forall a, a <> root -> read_table (paging k') a = read_table (paging k) a) /\
     (forall i, (4 <= i < 256)%nat ->
        entry_at (paging k') root i = entry_at (paging k') (pml4 cached) i)).
Proof.
  intros Hhit. rewrite (LoadApp_hit _ _ _ Hhit).
  destruct (SetupPML4 k) as [r0 k1] eqn:Hs.
  apply SetupPML4_inv in Hs as [(He & Hfresh & ->)|[-> ->]].
  - rewrite He. cbn [is_err fst snd error value pml4 vaddr_end entry trace app_loads paging task].
    unfold CopyPageMaps. cbn [snd].
    repeat split; try done.
    + intros a Hne. rewrite read_table_write_ne by done.
      by apply after_SetupPML4_read.
    + intros i Hi. unfold entry_at at 1. rewrite read_table_write_eq.
      rewrite build_table_lookup by lia.
      replace ((4 <=? Z.of_nat i) && (Z.of_nat i <? 256)) with true
        by (symmetry; apply andb_true_iff; split; [apply Z.leb_le|apply Z.ltb_lt]; lia).
      destruct (decide (pml4 cached = value r0)) as [Heq|Hne].
      * rewrite Heq. unfold entry_at at 2. rewrite read_table_write_eq.
        rewrite build_table_lookup by lia.
        replace ((4 <=? Z.of_nat i) && (Z.of_nat i <? 256)) with true
          by (symmetry; apply andb_true_iff; split; [apply Z.leb_le|apply Z.ltb_lt]; lia).
        reflexivity.
      * symmetry. apply entry_at_write_ne. congruence.
  - cbn. repeat split; try done.
Qed.

(** C2: for a file already in the load cache whose canonical root is an
    allocated frame, [LoadApp] reads no file (its trace gains no event) and
    takes exactly one frame, the fresh private root; it returns the cached
    end address and entry point with that root, whose slots 4..255 hold the
    entries of the canonical root.  A second load of the same file returns
    a different root frame whose slots 4..255 hold the same entries as
    those of the first. *)
Theorem LoadApp_cached_aliases
    (file : DirectoryEntry) (k : Kernel) (cached : AppLoadInfo) :
  app_loads k !! entry_addr file = Some cached ->
  pml4 cached ∈ used_frames (paging k) ->
  let r1 := fst (LoadApp file k) in
  let k1 := snd (LoadApp file k) in
  let r2 := fst (LoadApp file k1) in
  let k2 := snd (LoadApp file k1) in
  trace k1 = trace k /\
  app_loads k1 = app_loads k /\
  (error r1 <> kSuccess -> used_frames (paging k1) = used_frames (paging k)) /\
  (error r1 = kSuccess ->
     (pml4 (value r1) ∉ used_frames (paging k)) /\
     used_frames (paging k1) = {[pml4 (value r1)]} ∪ used_frames (paging k) /\
     vaddr_end (value r1) = vaddr_end cached /\
     entry (value r1) = entry cached /\
     (forall i, (4 <= i < 256)%nat ->
        entry_at (paging k1) (pml4 (value r1)) i
        = entry_at (paging k) (pml4 cached) i)) /\
  (error r1 = kSuccess -> error r2 = kSuccess ->
     pml4 (value r1) <> pml4 (value r2) /\
     (forall i, (4 <= i < 256)%nat ->
        entry_at (paging k2) (pml4 (value r1)) i
        = entry_at (paging k2) (pml4 (value r2)) i)).
Proof.
  intros Hhit Hcanon r1 k1 r2 k2.
  destruct (LoadApp_hit_facts file k cached Hhit) as (Htr & Hal & Hfail & Hok).
  fold r1 k1 in Htr, Hal, Hfail, Hok.
  split; [exact Htr|]. split; [exact Hal|].
  split; [intros He; by rewrite (Hfail He)|].
  split.
  - intros He. destruct (Hok He) as (Hv & Hen & Hfresh & Hused & _ & _ & Hframe & Hslots).
    repeat split; try done.
    intros i Hi. rewrite (Hslots i Hi). unfold entry_at.
    rewrite Hframe; [done|]. intros Heq. apply Hfresh. rewrite <- Heq. exact Hcanon.
  - intros He1 He2.
    destruct (Hok He1) as (_ & _ & Hfresh1 & Hused1 & _ & _ & Hframe1 & Hslots1).
    assert (Hhit1 : app_loads k1 !! entry_addr file = Some cached) by (by rewrite Hal).
    destruct (LoadApp_hit_facts file k1 cached Hhit1) as (_ & _ & _ & Hok2).
    fold r2 k2 in Hok2.
    destruct (Hok2 He2) as (_ & _ & Hfresh2 & Hused2 & _ & _ & Hframe2 & Hslots2).
    assert (Hne : pml4 (value r1) <> pml4 (value r2)).
    { intros Heq. apply Hfresh2. rewrite Hused1, <- Heq.
      apply elem_of_union_l, elem_of_singleton. reflexivity. }
    assert (Hcanon2 : pml4 cached <> pml4 (value r2)).
    { intros Heq. apply Hfresh2. rewrite Hused1, <- Heq.
      apply elem_of_union_r. exact Hcanon. }
    split; [exact Hne|]. intros i Hi.
    rewrite (Hslots2 i Hi). unfold entry_at.
    rewrite (Hframe2 _ Hne), (Hframe2 _ Hcanon2).
    apply (Hslots1 i Hi).
Qed.

Lemma SetupPML4_app_loads (k : Kernel) :
  app_loads (snd (SetupPML4 k)) = app_loads k /\ trace (snd (SetupPML4 k)) = trace k.
Proof.
  destruct (SetupPML4 k) as [r k1] eqn:Hs.
  apply SetupPML4_inv in Hs as [(_ & _ & ->)|[_ ->]]; done.
Qed.

(** [LoadApp] when the file is not in the cache, spelled out. *)
Lemma LoadApp_miss (file : DirectoryEntry) (k : Kernel) :
  app_loads k !! entry_addr file = None ->
  LoadApp file k =
    let '(r0, k1) := SetupPML4 k in
    if is_err (error r0) then (mkWithError no_AppLoadInfo (error r0), k1)
    else
      let k2 := snd (emit (EvLoadFile (entry_addr file) (file_size file)) k1) in
      if negb (Elf.has_magic (file_buf file)) then
        (mkWithError no_AppLoadInfo kInvalidFile, k2)
      else
        let '(loaded, k3) := LoadELF (file_buf file) k2 in
        if is_err (error loaded) then (mkWithError no_AppLoadInfo (error loaded), k3)
        else
          let app_load :=
            mkAppLoadInfo (value loaded) (Elf.e_entry (file_buf file)) (value r0) in
          let k4 := snd (insert_app_load (entry_addr file) app_load k3) in
          let '(r2, k5) := SetupPML4 k4 in
          if is_err (error r2) then (mkWithError app_load (error r2), k5)
          else
            (mkWithError
               (mkAppLoadInfo (value loaded) (Elf.e_entry (file_buf file)) (value r2))
               kSuccess,
             mkKernel (snd (CopyPageMaps (value r2) (value r0) 4 256 (paging k5)))
               (task k5) (app_loads k5) (args_frame k5) (trace k5)).
Proof.
  intros Hmiss. unfold LoadApp, Bind.
  pose proof (SetupPML4_app_loads k) as [Hal _].
  destruct (SetupPML4 k) as [r0 k1] eqn:Hs. cbn [snd] in Hal.
  destruct (is_err (error r0)) eqn:He; [reflexivity|].
  rewrite Hal, Hmiss. unfold LoadFile, Bind, Return.
  destruct (emit _ k1) as [[] k2] eqn:Hemit. cbn [snd].
  destruct (negb (Elf.has_magic (file_buf file))); [reflexivity|].
  destruct (LoadELF (file_buf file) k2) as [loaded k3].
  destruct (is_err (error loaded)); [reflexivity|].
  destruct (insert_app_load _ _ k3) as [[] k4]. cbn [snd].
  destruct (SetupPML4 k4) as [r2 k5].
  destruct (is_err (error r2)); reflexivity.
Qed.

(** The loop of [GetFirstLoadAddress] finds the first PT_LOAD header. *)
Lemma first_load_from_find (img : list Z) (todo n : nat) :
  Elf.first_load_from img (Z.of_nat n) todo =
    match List.find (Elf.is_load img) (Z.of_nat <$> seq n todo) with
    | Some i => Elf.p_vaddr img i
    | None => 0
    end.
Proof.
  revert n. induction todo as [|todo IH]; intros n; [reflexivity|].
  cbn [Elf.first_load_from seq fmap list_fmap List.find]. unfold Elf.is_load at 1.
  destruct (Elf.p_type img (Z.of_nat n) =? Elf.PT_LOAD); cbn [negb]; [reflexivity|].
  replace (Z.of_nat n + 1) with (Z.of_nat (S n)) by lia. apply IH.
Qed.

Lemma GetFirstLoadAddress_spec (img : list Z) :
  Elf.GetFirstLoadAddress img = Elf.first_load_vaddr img.
Proof. apply (first_load_from_find img _ 0). Qed.

(** C4: [LoadELF] copies the segments of an image exactly when its type is
    ET_EXEC and the virtual address of its first PT_LOAD segment (0 when it
    has none) is at least 0xffff800000000000; otherwise it returns
    InvalidFormat and touches nothing.  Seen from [LoadApp]: a file with a
    valid magic that is not cached and fails one of the two checks is
    rejected with InvalidFormat once the temporary root is set up, nothing
    is cached, and the only event is the read of the file. *)
Theorem LoadELF_checks (img : list Z) (file : DirectoryEntry) (k : Kernel) :
  LoadELF img k =
    (if Elf.passes_checks img then CopyLoadSegments img k
     else (mkWithError 0 kInvalidFormat, k))
  /\ (Elf.has_magic (file_buf file) = true ->
      Elf.passes_checks (file_buf file) = false ->
      app_loads k !! entry_addr file = None ->
      error (fst (SetupPML4 k)) = kSuccess ->
      fst (LoadApp file k) = mkWithError no_AppLoadInfo kInvalidFormat /\
      app_loads (snd (LoadApp file k)) = app_loads k /\
      trace (snd (LoadApp file k))
        = trace k ++ [EvLoadFile (entry_addr file) (file_size file)]).
Proof.
  assert (Hload : forall i k0,
    LoadELF i k0 =
      (if Elf.passes_checks i then CopyLoadSegments i k0
       else (mkWithError 0 kInvalidFormat, k0))).
  { intros i k0. unfold LoadELF, Elf.passes_checks.
    rewrite (GetFirstLoadAddress_spec i).
    destruct (Elf.e_type i =? Elf.ET_EXEC); cbn [negb andb]; [|reflexivity].
    rewrite Z.leb_antisym.
    destruct (Elf.first_load_vaddr i <? 0xffff800000000000); reflexivity. }
  split; [apply Hload|].
  intros Hmagic Hfail Hmiss Hroot.
  rewrite (LoadApp_miss _ _ Hmiss).
  pose proof (SetupPML4_app_loads k) as [Hal Htr].
  destruct (SetupPML4 k) as [r0 k1]. cbn [fst snd] in *.
  rewrite Hroot, Hmagic, Hload, Hfail. cbn. rewrite Hal, Htr. done.
Qed.

(** C3 as stated fails: loading the text file on the booted machine gives
    InvalidFile, not InvalidFormat. *)
Lemma LoadApp_bad_magic_not_InvalidFormat :
  Elf.has_magic (file_buf text_file) = false /\
  error (fst (LoadApp (layout := Elf.elf64) (platform := test_platform) text_file boot_kernel)) <> kInvalidFormat.
Proof. split; [reflexivity|]. vm_compute. discriminate. Qed.

(** C3, amended: a file that is not in the load cache and whose first four
    bytes are not the ELF magic fails to load with InvalidFile (with the
    error of [SetupPML4] when the temporary root cannot be set up); the
    [AppLoadInfo] returned is empty and nothing is cached. *)
Theorem LoadApp_bad_magic_InvalidFile (file : DirectoryEntry) (k : Kernel) :
  Elf.has_magic (file_buf file) = false ->
  app_loads k !! entry_addr file = None ->
  let root := fst (SetupPML4 k) in
  fst (LoadApp file k) =
    mkWithError no_AppLoadInfo
      (if is_err (error root) then error root else kInvalidFile) /\
  app_loads (snd (LoadApp file k)) = app_loads k.
Proof.
  intros Hmagic Hmiss root. unfold root.
  rewrite (LoadApp_miss _ _ Hmiss).
  pose proof (SetupPML4_app_loads k) as [Hal _].
  destruct (SetupPML4 k) as [r0 k1]. cbn [fst snd] in *.
  destruct (is_err (error r0)); [done|].
  rewrite Hmagic. cbn. done.
Qed.

(** The normal end of [ExecuteFile]: [FreePML4] clears the task's saved
    [cr3], switches CR3 back to the kernel's table and gives back the frame
    of the root the task was running on. *)
Lemma FreePML4_releases_root (k : Kernel) :
  fst (FreePML4 k) = kSuccess /\
  context_cr3 (task (snd (FreePML4 k))) = 0 /\
  cr3 (paging (snd (FreePML4 k))) = kernel_pml4 (paging k) /\
  used_frames (paging (snd (FreePML4 k)))
    = used_frames (paging k) ∖ {[context_cr3 (task k)]}.
Proof. done. Qed.

(** C1: what [ExecuteFile] leaves behind when [LoadApp] fails on a file
    without the ELF magic.  The error is returned at once; the frame [f]
    that [SetupPML4] took for the temporary root stays allocated, and both
    CR3 and the task's saved [cr3] point at it. *)
Theorem ExecuteFile_failed_load_keeps_root
    (file : DirectoryEntry) (command : list Z) (first_arg : option (list Z))
    (k : Kernel) (f : Z) :
  Elf.has_magic (file_buf file) = false ->
  app_loads k !! entry_addr file = None ->
  fst (SetupPML4 k) = mkWithError f kSuccess ->
  let k' := snd (ExecuteFile file command first_arg k) in
  fst (ExecuteFile file command first_arg k) = kInvalidFile /\
  (f ∉ used_frames (paging k)) /\
  used_frames (paging k') = {[f]} ∪ used_frames (paging k) /\
  cr3 (paging k') = f /\
  context_cr3 (task k') = f.
Proof.
  intros Hmagic Hmiss Hroot k'. unfold k', ExecuteFile, ExecuteFile_setup, Bind.
  rewrite (LoadApp_miss _ _ Hmiss).
  destruct (SetupPML4 k) as [r0 k1] eqn:Hs. cbn [fst] in Hroot. subst r0.
  apply SetupPML4_inv in Hs as [(_ & Hfresh & ->)|[[=] _]].
  cbn [is_err error value]. rewrite Hmagic. cbn. done.
Qed.

(** The running maximum of [CopyLoadSegments] is the maximum over the
    PT_LOAD headers it visits. *)
Lemma copy_segments_from_value (img : list Z) (todo n : nat) (last : Z)
    (k k' : Kernel) (r : WithError Z) :
  0 <= last ->
  copy_segments_from img (Z.of_nat n) todo last k = (r, k') ->
  error r = kSuccess ->
  value r =
    Z.max last
      (foldr Z.max 0
         ((fun i => to_u64 (Elf.p_vaddr img i + Elf.p_memsz img i))
            <$> List.filter (Elf.is_load img) (Z.of_nat <$> seq n todo))).
Proof.
  revert n last k. induction todo as [|todo IH]; intros n last k Hlast Hrun Hok.
  - cbn in Hrun. injection Hrun as <- <-. cbn. lia.
  - cbn [copy_segments_from seq fmap list_fmap List.filter] in *.
    unfold Elf.is_load at 1.
    replace (Z.of_nat n + 1) with (Z.of_nat (S n)) in Hrun by lia.
    destruct (Elf.p_type img (Z.of_nat n) =? Elf.PT_LOAD); cbn [negb] in Hrun.
    + unfold Bind in Hrun.
      destruct (emit _ k) as [[] k1].
      destruct (on_paging _ k1) as [err k2].
      destruct (is_err err) eqn:Herr.
      * injection Hrun as <- <-. cbn in Hok. subst err. discriminate.
      * destruct (emit _ k2) as [[] k3]. destruct (emit _ k3) as [[] k4].
        apply IH in Hrun; [|lia|exact Hok].
        rewrite Hrun. cbn [fmap list_fmap foldr]. symmetry. apply Z.max_assoc.
    + apply (IH _ _ _ Hlast Hrun Hok).
Qed.

Lemma load_end_vaddr_nonneg (img : list Z) : 0 <= Elf.load_end_vaddr img.
Proof.
  unfold Elf.load_end_vaddr.
  induction (List.filter _ _) as [|i l IH]; cbn [fmap list_fmap foldr]; lia.
Qed.

Lemma copy_segments_from_app_loads (img : list Z) (todo : nat) (i last : Z)
    (k : Kernel) :
  app_loads (snd (copy_segments_from img i todo last k)) = app_loads k /\
  task (snd (copy_segments_from img i todo last k)) = task k.
Proof.
  revert i last k. induction todo as [|todo IH]; intros i last k; [done|].
  cbn [copy_segments_from]. destruct (negb _); [apply IH|].
  unfold Bind, emit, on_paging. cbn [paging task app_loads args_frame trace].
  destruct (SetupPageMaps _ _ _ _) as [err pg].
  destruct (is_err err); [done|].
  match goal with |- context [copy_segments_from img ?i' todo ?l' ?k'] =>
    destruct (IH i' l' k') as [-> ->] end.
  done.
Qed.

Lemma LoadELF_value (img : list Z) (k k' : Kernel) (r : WithError Z) :
  LoadELF img k = (r, k') -> error r = kSuccess ->
  value r = Elf.load_end_vaddr img /\ app_loads k' = app_loads k /\ task k' = task k.
Proof.
  unfold LoadELF.
  destruct (negb _); [intros [= <- <-]; discriminate|].
  destruct (_ <? _); [intros [= <- <-]; discriminate|].
  unfold CopyLoadSegments. intros Hrun Hok. split.
  - rewrite (copy_segments_from_value img _ 0 _ _ _ _ (Z.le_refl 0) Hrun Hok).
    pose proof (load_end_vaddr_nonneg img).
    unfold Elf.load_end_vaddr, Elf.phdr_indices in *. lia.
  - pose proof (copy_segments_from_app_loads img (Z.to_nat (Elf.e_phnum img)) 0 0 k) as Hp.
    change (Z.of_nat 0) with 0 in Hrun. rewrite Hrun in Hp. exact Hp.
Qed.





End ExecProperties.

(** [LoadApp_cached_aliases] on the warm machine: two loads of the cached
    application give two different roots. *)
Lemma LoadApp_cached_aliases_witness :
  Exec.pml4 (value (fst (Exec.LoadApp (layout := Elf.elf64) (platform := Exec.test_platform) Exec.app_file Exec.warm_kernel)))
  <> Exec.pml4 (value (fst (Exec.LoadApp (layout := Elf.elf64) (platform := Exec.test_platform) Exec.app_file
                              (snd (Exec.LoadApp (layout := Elf.elf64) (platform := Exec.test_platform) Exec.app_file
                                      Exec.warm_kernel))))).
Proof.
  assert (Hhit : Exec.app_loads Exec.warm_kernel !! Exec.entry_addr Exec.app_file
                 = Some (Exec.mkAppLoadInfo 0xffff800000001234 0xffff800000000120 1048576))
    by reflexivity.
  assert (Hcanon : 1048576 ∈ Exec.used_frames (Exec.paging Exec.warm_kernel))
    by (vm_compute; reflexivity).
  destruct (LoadApp_cached_aliases (layout := Elf.elf64) (platform := Exec.test_platform) Exec.app_file Exec.warm_kernel
              _ Hhit Hcanon)
    as (_ & _ & _ & _ & Htwo).
  apply Htwo.
  - vm_compute. reflexivity.
  - vm_compute. reflexivity.
Defined.

(** [LoadELF_checks] on the shared-object image: it has the magic, is not
    of type ET_EXEC, and is rejected. *)
Lemma LoadELF_checks_witness :
  fst (Exec.LoadApp (layout := Elf.elf64) (platform := Exec.test_platform) Exec.dyn_file Exec.boot_kernel)
  = mkWithError Exec.no_AppLoadInfo kInvalidFormat.
Proof.
  apply (LoadELF_checks (layout := Elf.elf64) (platform := Exec.test_platform) [] Exec.dyn_file Exec.boot_kernel);
    vm_compute; reflexivity.
Defined.

(** [LoadApp_bad_magic_InvalidFile] on the text file. *)
Lemma LoadApp_bad_magic_InvalidFile_witness :
  fst (Exec.LoadApp (layout := Elf.elf64) (platform := Exec.test_platform) Exec.text_file Exec.boot_kernel)
  = mkWithError Exec.no_AppLoadInfo kInvalidFile.
Proof.
  apply (LoadApp_bad_magic_InvalidFile (layout := Elf.elf64) (platform := Exec.test_platform) Exec.text_file Exec.boot_kernel);
    vm_compute; reflexivity.
Defined.

(** [ExecuteFile_failed_load_keeps_root] on the text file: before the call
    CR3 holds 0x1000 and no frame is in use; after it CR3 and the saved
    [cr3] hold 0x100000, a frame that is now in use. *)
Lemma ExecuteFile_failed_load_keeps_root_witness :
  Exec.cr3 (Exec.paging Exec.boot_kernel) = 4096 /\
  context_cr3 (Exec.task Exec.boot_kernel) = 0 /\
  let k' := snd (Exec.ExecuteFile (layout := Elf.elf64) (platform := Exec.test_platform) Exec.text_file [104] None
                   Exec.boot_kernel) in
  fst (Exec.ExecuteFile (layout := Elf.elf64) (platform := Exec.test_platform) Exec.text_file [104] None Exec.boot_kernel)
    = kInvalidFile /\
  (1048576 ∉ Exec.used_frames (Exec.paging Exec.boot_kernel)) /\
  Exec.used_frames (Exec.paging k') = {[1048576]} ∪ Exec.used_frames (Exec.paging Exec.boot_kernel) /\
  Exec.cr3 (Exec.paging k') = 1048576 /\
  context_cr3 (Exec.task k') = 1048576.
Proof.
  split; [reflexivity|]. split; [reflexivity|].
  apply (ExecuteFile_failed_load_keeps_root (layout := Elf.elf64) (platform := Exec.test_platform) Exec.text_file [104] None
           Exec.boot_kernel 1048576); vm_compute; reflexivity.
Defined.


(** ** The task manager *)
Section SchedulerProperties.
Import Scheduler.

Lemma erase_first_subseteq (t : nat) (q : list nat) : erase_first t q ⊆ q.
Proof.
  induction q as [|x q IH]; [done|]. cbn. destruct (decide (x = t)).
  - intros y Hy. by right.
  - intros y Hy. apply elem_of_cons in Hy as [->|Hy]; [left|right; by apply IH].
Qed.

Lemma erase_first_NoDup (t : nat) (q : list nat) : NoDup q -> NoDup (erase_first t q).
Proof.
  induction q as [|x q IH]; [done|]. intros Hnd. apply NoDup_cons in Hnd as [Hx Hq].
  cbn. destruct (decide (x = t)); [done|].
  apply NoDup_cons. split; [|by apply IH].
  intros Hin. apply Hx. by apply (erase_first_subseteq t q).
Qed.

Lemma erase_first_keeps (t x : nat) (q : list nat) :
  x <> t -> x ∈ q -> x ∈ erase_first t q.
Proof.
  intros Hne. induction q as [|y q IH]; [done|]. intros Hin. cbn.
  destruct (decide (y = t)) as [->|Hyt].
  - apply elem_of_cons in Hin as [->|Hin]; done.
  - apply elem_of_cons in Hin as [->|Hin]; [left|right; by apply IH].
Qed.

Lemma Sleep_queue_ok (idle t : nat) (tm : TaskManager) :
  t <> idle -> queue_ok idle tm -> queue_ok idle (Sleep t tm).
Proof.
  intros Hne (Hnd & Hown & Hidle). unfold Sleep, SwitchTask.
  destruct (running_ tm) as [|cur rest] eqn:Hq; [by rewrite elem_of_nil in Hidle|].
  destruct (decide (cur = t)) as [->|Hcur].
  - unfold queue_ok. cbn. apply NoDup_cons in Hnd as [_ Hnd].
    split; [done|]. split.
    + intros x Hx. apply Hown. by right.
    + apply elem_of_cons in Hidle as [->|Hidle]; done.
  - unfold queue_ok. cbn [running_ tasks_ set_running]. split; [|split].
    + by apply erase_first_NoDup.
    + intros x Hx. apply Hown. by apply (erase_first_subseteq t).
    + apply erase_first_keeps; [congruence|done].
Qed.

Lemma Wakeup_queue_ok (idle t : nat) (tm : TaskManager) :
  (t < length (tasks_ tm))%nat -> queue_ok idle tm -> queue_ok idle (Wakeup t tm).
Proof.
  intros Hlt (Hnd & Hown & Hidle). unfold Wakeup.
  destruct (decide (t ∈ running_ tm)) as [Hin|Hnin]; [done|].
  unfold queue_ok. cbn. split; [|split].
  - apply NoDup_app. split; [done|]. split; [|apply NoDup_singleton].
    intros x Hx Hx'. apply list_elem_of_singleton in Hx' as ->. done.
  - intros x Hx. apply elem_of_app in Hx as [Hx|Hx]; [by apply Hown|].
    apply list_elem_of_singleton in Hx as ->. done.
  - apply elem_of_app. by left.
Qed.

Lemma find_task_owned (id : Z) (tm : TaskManager) (i : nat) (t : Task) :
  find_task id tm = Some (i, t) ->
  tasks_ tm !! i = Some t /\ id_ t = id /\ (i < length (tasks_ tm))%nat.
Proof.
  unfold find_task. intros Hf. apply list_find_Some in Hf as (Hl & Hid & _).
  split; [done|]. split; [done|]. by apply lookup_lt_Some in Hl.
Qed.

(** Every allowed call keeps the run queue in order. *)
Lemma step_queue_ok (idle : nat) (op : Op) (tm : TaskManager) :
  allowed idle op tm = true -> queue_ok idle tm -> queue_ok idle (step op tm).
Proof.
  intros Hallowed Hok. destruct op as [|b|t|id|t|id|id msg]; cbn [step].
  - destruct Hok as (Hnd & Hown & Hidle). unfold queue_ok, NewTask. cbn.
    split; [done|]. split; [|done].
    intros t Ht. rewrite length_app. specialize (Hown t Ht). lia.
  - destruct Hok as (Hnd & Hown & Hidle). unfold SwitchTask.
    destruct (running_ tm) as [|cur rest] eqn:Hq; [by rewrite elem_of_nil in Hidle|].
    apply NoDup_cons in Hnd as [Hcur Hnd].
    unfold queue_ok. cbn [running_ tasks_ set_running]. destruct b.
    + cbn in Hallowed. apply bool_decide_eq_true in Hallowed.
      rewrite ?Hq in Hallowed. cbn in Hallowed.
      split; [done|]. split.
      * intros x Hx. apply Hown. by right.
      * apply elem_of_cons in Hidle as [->|Hidle]; [congruence|done].
    + split; [|split].
      * apply NoDup_app. split; [done|]. split; [|apply NoDup_singleton].
        intros x Hx Hx'. apply list_elem_of_singleton in Hx' as ->. done.
      * intros x Hx. apply Hown. apply elem_of_app in Hx as [Hx|Hx]; [by right|].
        apply list_elem_of_singleton in Hx as ->. by left.
      * apply elem_of_app. apply elem_of_cons in Hidle as [->|Hidle].
        -- right. apply list_elem_of_singleton. done.
        -- by left.
  - cbn in Hallowed. apply bool_decide_eq_true in Hallowed as [Hne _].
    by apply Sleep_queue_ok.
  - cbn in Hallowed. apply bool_decide_eq_true in Hallowed.
    unfold SleepId. destruct (find_task id tm) as [[i t]|] eqn:Hf; [|done].
    cbn. apply Sleep_queue_ok; [|done]. intros ->. by apply Hallowed.
  - cbn in Hallowed. apply bool_decide_eq_true in Hallowed.
    by apply Wakeup_queue_ok.
  - unfold WakeupId. destruct (find_task id tm) as [[i t]|] eqn:Hf; [|done].
    cbn. apply find_task_owned in Hf as (_ & _ & Hlt). by apply Wakeup_queue_ok.
  - unfold SendMessage. destruct (find_task id tm) as [[i t]|] eqn:Hf; [|done].
    cbn [snd]. apply find_task_owned in Hf as (_ & _ & Hlt).
    apply Wakeup_queue_ok; cbn [tasks_]; [by rewrite length_insert|].
    destruct Hok as (Hnd & Hown & Hidle). unfold queue_ok. cbn.
    split; [done|]. split; [|done]. intros x Hx. rewrite length_insert. by apply Hown.
Qed.

Lemma run_queue_ok (idle : nat) (ops : list Op) (tm : TaskManager) :
  all_allowed idle ops tm = true -> queue_ok idle tm -> queue_ok idle (run ops tm).
Proof.
  revert tm. induction ops as [|op ops IH]; intros tm Hall Hok; [done|].
  cbn in Hall. apply andb_true_iff in Hall as [Hop Hall].
  cbn. apply IH; [done|]. by apply step_queue_ok.
Qed.

(** C7: from the initialized manager, whose first task (position 0) plays
    the idle task, after any sequence of calls to NewTask, Sleep, Wakeup,
    SendMessage and SwitchTask that never puts that task to sleep and only
    passes tasks the manager owns, the run queue holds no task twice, each
    of its entries is a task of the manager, and it is not empty; in
    particular it is not empty after one more SwitchTask step. *)
Theorem run_queue_invariant (ops : list Op) :
  all_allowed 0 ops InitializeTask = true ->
  let tm := run ops InitializeTask in
  NoDup (running_ tm) /\
  (forall t, t ∈ running_ tm -> is_Some (tasks_ tm !! t)) /\
  running_ tm <> [] /\
  (forall b, allowed 0 (OpSwitchTask b) tm = true ->
     running_ (SwitchTask b tm) <> []).
Proof.
  intros Hall tm.
  assert (Hinit : queue_ok 0 InitializeTask).
  { unfold queue_ok. cbn. split; [apply NoDup_singleton|].
    split; [|by left]. intros t Ht. apply list_elem_of_singleton in Ht as ->. lia. }
  pose proof (run_queue_ok 0 ops _ Hall Hinit) as Hok. fold tm in Hok.
  assert (Hne : forall tm0, queue_ok 0 tm0 -> running_ tm0 <> []).
  { intros tm0 (_ & _ & Hidle) Hnil. rewrite Hnil in Hidle. by apply elem_of_nil in Hidle. }
  destruct Hok as (Hnd & Hown & Hidle).
  split; [done|]. split.
  - intros t Ht. apply lookup_lt_is_Some. by apply Hown.
  - split; [by apply Hne|]. intros b Hb.
    apply Hne. by apply (step_queue_ok 0 (OpSwitchTask b)).
Qed.

(** C6: [SendMessage] fails with NotFound and changes nothing when no task
    has the id; otherwise it succeeds, the recipient (the first task with
    that id) has the message appended at the tail of its mailbox, every
    other task is as before, and the recipient is in the run queue
    afterwards: appended at the back if it was sleeping, the queue
    unchanged if it was already runnable. *)
Theorem SendMessage_spec (id : Z) (msg : Message) (tm : TaskManager) :
  let err := fst (SendMessage id msg tm) in
  let tm' := snd (SendMessage id msg tm) in
  ((forall t, t ∈ tasks_ tm -> id_ t <> id) -> err = kNotFound /\ tm' = tm) /\
  (forall t, t ∈ tasks_ tm -> id_ t = id ->
     err = kSuccess /\
     exists i t0 t1,
       tasks_ tm !! i = Some t0 /\ id_ t0 = id /\
       tasks_ tm' !! i = Some t1 /\ id_ t1 = id /\
       msgs_ t1 = msgs_ t0 ++ [msg] /\
       length (msgs_ t1) = S (length (msgs_ t0)) /\
       last (msgs_ t1) = Some msg /\
       (forall j, j <> i -> tasks_ tm' !! j = tasks_ tm !! j) /\
       i ∈ running_ tm' /\
       (i ∈ running_ tm -> running_ tm' = running_ tm) /\
       (i ∉ running_ tm -> running_ tm' = running_ tm ++ [i])).
Proof.
  intros err tm'. unfold err, tm', SendMessage. split.
  - intros Hnone. destruct (find_task id tm) as [[i t]|] eqn:Hf; [|done].
    apply find_task_owned in Hf as (Hl & Hid & _).
    exfalso. apply (Hnone t); [|done]. by apply list_elem_of_lookup_2 in Hl.
  - intros t Ht Hid. destruct (find_task id tm) as [[i t0]|] eqn:Hf.
    + apply find_task_owned in Hf as (Hl & Hid0 & Hlt). cbn [fst snd].
      split; [done|]. exists i, t0, (Task_SendMessage msg t0).
      unfold Wakeup. cbn [running_ tasks_].
      assert (Htasks : forall q,
        tasks_ (if decide (i ∈ running_ tm)
                then mkTaskManager (<[i:=Task_SendMessage msg t0]> (tasks_ tm))
                       (latest_id_ tm) (running_ tm)
                else set_running q
                       (mkTaskManager (<[i:=Task_SendMessage msg t0]> (tasks_ tm))
                          (latest_id_ tm) (running_ tm)))
        = <[i:=Task_SendMessage msg t0]> (tasks_ tm)).
      { intros q. by destruct (decide _). }
      rewrite Htasks.
      split; [done|]. split; [done|].
      split; [by apply list_lookup_insert_eq|].
      split; [done|]. split; [done|].
      split; [cbn; rewrite length_app; cbn; lia|].
      split; [cbn; by rewrite last_snoc|].
      split; [intros j Hj; by apply list_lookup_insert_ne|].
      destruct (decide (i ∈ running_ tm)) as [Hin|Hnin]; cbn.
      * done.
      * split; [apply elem_of_app; right; by apply list_elem_of_singleton|done].
    + unfold find_task in Hf. apply list_find_None in Hf.
      exfalso. rewrite Forall_forall in Hf. by apply (Hf t Ht).
Qed.

End SchedulerProperties.

(** [run_queue_invariant] on a run in which a second task is created, woken
    by a message, and goes back to sleep while the first one keeps
    yielding. *)
Lemma run_queue_invariant_witness :
  Scheduler.running_
    (Scheduler.run
       [Scheduler.OpNewTask; Scheduler.OpSendMessage 2 MsgLayerFinish;
        Scheduler.OpSwitchTask false; Scheduler.OpSwitchTask true;
        Scheduler.OpSwitchTask false]
       Scheduler.InitializeTask) <> [].
Proof.
  assert (Hall : Scheduler.all_allowed 0
            [Scheduler.OpNewTask; Scheduler.OpSendMessage 2 MsgLayerFinish;
             Scheduler.OpSwitchTask false; Scheduler.OpSwitchTask true;
             Scheduler.OpSwitchTask false] Scheduler.InitializeTask = true)
    by (vm_compute; reflexivity).
  destruct (run_queue_invariant _ Hall) as (_ & _ & Hne & _).
  exact Hne.
Defined.

(** [SendMessage_spec] on the initialized manager: a message for the
    unknown id 9 is refused, one for id 1 is delivered. *)
Lemma SendMessage_spec_witness :
  fst (Scheduler.SendMessage 9 MsgLayerFinish Scheduler.InitializeTask) = kNotFound /\
  fst (Scheduler.SendMessage 1 MsgLayerFinish Scheduler.InitializeTask) = kSuccess.
Proof.
  split.
  - apply (SendMessage_spec 9 MsgLayerFinish Scheduler.InitializeTask).
    intros t Ht. apply list_elem_of_singleton in Ht as ->.
    intros Heq. vm_compute in Heq. discriminate Heq.
  - apply (proj2 (SendMessage_spec 1 MsgLayerFinish Scheduler.InitializeTask) (new_Task 1)).
    + apply list_elem_of_singleton. reflexivity.
    + reflexivity.
Defined.

(** ** Standard input *)
Section StdInProperties.
Import StdIn.
Context `{ControlMasks}.

Lemma Read_len_irrelevant (buf : list Z) (len len' : Z) (polls : list (option Message)) :
  Read buf len polls = Read buf len' polls.
Proof.
  induction polls as [|[m|] polls IH]; cbn; [done| |by rewrite IH].
  destruct m; try done. destruct press; cbn; [|done].
  destruct (has_control modifier); [|done].
  destruct (keycode =? 7); [done|]. by rewrite IH.
Qed.

Lemma Read_waiting (buf : list Z) (len : Z) (polls : list (option Message)) :
  Read buf len polls = None <-> forallb passed_over polls = true.
Proof.
  induction polls as [|[m|] polls IH]; cbn [Read forallb]; [done| |].
  - destruct m; cbn [passed_over andb]; try exact IH.
    destruct press; cbn [negb]; [|exact IH].
    destruct (has_control modifier); cbn [andb]; [|done].
    destruct (keycode =? 7); cbn [negb]; [done|].
    rewrite <- IH. destruct (Read buf len polls); done.
  - cbn [passed_over andb]. rewrite <- IH. destruct (Read buf len polls); done.
Qed.

Lemma Read_returns (buf : list Z) (len : Z) (polls : list (option Message))
    (r : ReadResult) :
  Read buf len polls = Some r ->
  exists skipped modifier keycode ascii,
    polls = skipped ++ Some (MsgKeyPush modifier keycode ascii true) :: unread r /\
    forallb passed_over skipped = true /\
    (returned r = 0 <-> has_control modifier = true /\ keycode = 7) /\
    (if has_control modifier
     then keycode = 7 /\ returned r = 0 /\ buf_after r = buf /\
          effects r = concat (passing_effects <$> skipped)
                        ++ [FxPrint [94; toupper ascii; 0]]
     else returned r = 1 /\ buf_after r = <[0%nat := ascii]> buf /\
          effects r = concat (passing_effects <$> skipped)
                        ++ [FxPrintLen (<[0%nat := ascii]> buf) 1]).
Proof.
  revert r. induction polls as [|poll polls IH]; intros r Hr; [done|].
  assert (Hskip : forall e,
    passed_over poll = true -> passing_effects poll = e ->
    (exists r0, Read buf len polls = Some r0 /\
       r = mkReadResult (returned r0) (buf_after r0) (e ++ effects r0) (unread r0)) ->
    exists skipped modifier keycode ascii,
      poll :: polls = skipped ++ Some (MsgKeyPush modifier keycode ascii true) :: unread r /\
      forallb passed_over skipped = true /\
      (returned r = 0 <-> has_control modifier = true /\ keycode = 7) /\
      (if has_control modifier
       then keycode = 7 /\ returned r = 0 /\ buf_after r = buf /\
            effects r = concat (passing_effects <$> skipped)
                          ++ [FxPrint [94; toupper ascii; 0]]
       else returned r = 1 /\ buf_after r = <[0%nat := ascii]> buf /\
            effects r = concat (passing_effects <$> skipped)
                          ++ [FxPrintLen (<[0%nat := ascii]> buf) 1])).
  { intros e Hpass He (r0 & Hr0 & ->).
    destruct (IH r0 Hr0) as (skipped & m & kc & a & Hpolls & Hall & Hzero & Hcase).
    exists (poll :: skipped), m, kc, a. cbn [unread returned buf_after effects].
    split; [by rewrite Hpolls|]. split; [cbn; by rewrite Hpass|].
    split; [exact Hzero|].
    cbn [fmap list_fmap concat]. rewrite He, <- !app_assoc.
    destruct (has_control m).
    - destruct Hcase as (? & ? & ? & ->). done.
    - destruct Hcase as (? & ? & ->). done. }
  assert (Hplain : forall e, after e (Read buf len polls) = Some r ->
    exists r0, Read buf len polls = Some r0 /\
      r = mkReadResult (returned r0) (buf_after r0) ([e] ++ effects r0) (unread r0)).
  { intros e Ha. destruct (Read buf len polls) as [r0|]; [|done].
    exists r0. split; [done|]. cbn in Ha. by injection Ha as <-. }
  assert (Hsilent : Read buf len polls = Some r ->
    exists r0, Read buf len polls = Some r0 /\
      r = mkReadResult (returned r0) (buf_after r0) ([] ++ effects r0) (unread r0)).
  { intros Hr0. exists r. split; [done|]. by destruct r. }
  destruct poll as [m|]; cbn [Read] in Hr.
  - destruct m; try (apply (Hskip []); [done|done|by apply Hsilent]).
    destruct press; cbn [negb] in Hr;
      [|apply (Hskip []); [done|done|by apply Hsilent]].
    destruct (has_control modifier) eqn:Hctl.
    + destruct (keycode =? 7) eqn:Hkc.
      * injection Hr as <-. apply Z.eqb_eq in Hkc as ->.
        exists [], modifier, 7, ascii. cbn. rewrite Hctl. done.
      * apply (Hskip [FxPrint [94; toupper ascii; 0]]).
        -- cbn. by rewrite Hctl, Hkc.
        -- cbn. by rewrite Hctl.
        -- by apply Hplain.
    + injection Hr as <-. exists [], modifier, keycode, ascii. cbn. rewrite Hctl.
      split; [done|]. split; [done|]. split; [|done].
      split; [done|]. intros [? _]. done.
  - apply (Hskip [FxSleep]); [done|done|by apply Hplain].
Qed.

(** C10: [Read] never looks at [len] and returns 0 or 1.  It passes over
    empty mailboxes (sleeping each time), messages that are not key
    pushes, key releases, and control presses other than keycode 7 (echoing
    each of these); it stays in the loop exactly as long as every answer is
    of that kind.  The first other answer is a key press and decides the
    call: with a control modifier (and then keycode 7) the press is echoed,
    the buffer is untouched and 0 is returned; without one the character is
    stored in the first byte of the buffer, echoed with length 1, and 1 is
    returned.  So 0 is returned exactly for a control press of keycode 7. *)
Theorem Read_one_byte (buf : list Z) (len : Z) (polls : list (option Message)) :
  (forall len', Read buf len' polls = Read buf len polls) /\
  (Read buf len polls = None <-> forallb passed_over polls = true) /\
  (forall r, Read buf len polls = Some r ->
     (returned r = 0 \/ returned r = 1) /\
     exists skipped modifier keycode ascii,
       polls = skipped ++ Some (MsgKeyPush modifier keycode ascii true) :: unread r /\
       forallb passed_over skipped = true /\
       (returned r = 0 <-> has_control modifier = true /\ keycode = 7) /\
       (if has_control modifier
        then keycode = 7 /\ returned r = 0 /\ buf_after r = buf /\
             effects r = concat (passing_effects <$> skipped)
                           ++ [FxPrint [94; toupper ascii; 0]]
        else returned r = 1 /\ buf_after r = <[0%nat := ascii]> buf /\
             effects r = concat (passing_effects <$> skipped)
                           ++ [FxPrintLen (<[0%nat := ascii]> buf) 1])).
Proof.
  split; [intros len'; apply Read_len_irrelevant|].
  split; [apply Read_waiting|].
  intros r Hr.
  destruct (Read_returns _ _ _ _ Hr) as (skipped & m & kc & a & Hp & Hall & Hz & Hcase).
  split.
  - destruct (has_control m); [left|right]; tauto.
  - exists skipped, m, kc, a. done.
Qed.

End StdInProperties.

(** [Read_one_byte] with the usual masks (bit 0 and bit 4): the mailbox is
    empty once, then Ctrl-C is pressed, then the key a; [Read] returns 1
    with the a in the buffer. *)
Lemma Read_one_byte_witness :
  returned_is_one
    (@StdIn.Read (StdIn.mkControlMasks 1 16) [0] 16
       [None; Some (MsgKeyPush 1 6 99 true); Some (MsgKeyPush 0 4 97 true)]).
Proof.
  destruct (@StdIn.Read (StdIn.mkControlMasks 1 16) [0] 16
              [None; Some (MsgKeyPush 1 6 99 true); Some (MsgKeyPush 0 4 97 true)])
    as [r|] eqn:Hr; [|vm_compute in Hr; discriminate Hr].
  destruct (@Read_one_byte (StdIn.mkControlMasks 1 16) [0] 16
              [None; Some (MsgKeyPush 1 6 99 true); Some (MsgKeyPush 0 4 97 true)])
    as (_ & _ & Hret).
  destruct (Hret r Hr) as ([H0|H1] & _).
  - vm_compute in Hr. injection Hr as <-. discriminate H0.
  - exact H1.
Defined.

(** ** Argument marshaling *)
Section ArgVectorProperties.
Import ArgVector.
Local Open Scope nat_scope.

Lemma char_at_drop (buf : list Z) (p k : nat) :
  char_at buf (p + k) = nth k (drop p buf) 0%Z.
Proof. unfold char_at. by rewrite !nth_lookup, lookup_drop. Qed.

Lemma char_at_ge (buf : list Z) (p : nat) : length buf <= p -> char_at buf p = 0%Z.
Proof. intros Hp. unfold char_at. by apply nth_overflow. Qed.

Lemma char_at_nonzero_lt (buf : list Z) (p : nat) :
  char_at buf p <> 0%Z -> p < length buf.
Proof.
  intros Hc. destruct (le_lt_dec (length buf) p) as [Hle|Hlt]; [|done].
  by rewrite char_at_ge in Hc.
Qed.

Lemma char_at_insert (buf : list Z) (q j : nat) (v : Z) :
  char_at (<[q := v]> buf) j =
    if decide (j = q /\ q < length buf) then v else char_at buf j.
Proof.
  unfold char_at. rewrite !nth_lookup. destruct (decide _) as [[-> Hq]|Hno].
  - by rewrite list_lookup_insert_eq.
  - destruct (decide (q = j)) as [->|Hne].
    + rewrite list_insert_ge; [done|]. lia.
    + by rewrite list_lookup_insert_ne.
Qed.

Lemma word_char_false (c : Z) :
  word_char c = false <-> c = 0%Z \/ isspace c = true.
Proof.
  unfold word_char. rewrite negb_false_iff, orb_true_iff, Z.eqb_eq. done.
Qed.

Lemma word_char_true (c : Z) :
  word_char c = true <-> c <> 0%Z /\ isspace c = false.
Proof.
  unfold word_char. rewrite negb_true_iff, orb_false_iff, Z.eqb_neq. done.
Qed.

(** Where the two inner loops stop. *)
Lemma count_space_stop (l : list Z) : isspace (nth (count_space l) l 0%Z) = false.
Proof.
  induction l as [|c l IH]; [done|]. cbn [count_space].
  destruct (isspace c) eqn:Hc; [exact IH|exact Hc].
Qed.

Lemma count_space_le (l : list Z) (i : nat) :
  isspace (nth i l 0%Z) = false -> count_space l <= i.
Proof.
  revert i. induction l as [|c l IH]; intros i Hi; [cbn; lia|].
  cbn [count_space]. destruct (isspace c) eqn:Hc; [|lia].
  destruct i as [|i]; [cbn in Hi; congruence|].
  apply IH in Hi. lia.
Qed.

Lemma count_token_stop (l : list Z) : word_char (nth (count_token l) l 0%Z) = false.
Proof.
  induction l as [|c l IH]; [done|]. cbn [count_token].
  destruct ((c =? 0)%Z || isspace c) eqn:Hc; [|exact IH].
  cbn. unfold word_char. by rewrite Hc.
Qed.

Lemma count_token_le (l : list Z) (i : nat) :
  word_char (nth i l 0%Z) = false -> count_token l <= i.
Proof.
  revert i. induction l as [|c l IH]; intros i Hi; [cbn; lia|].
  cbn [count_token]. destruct ((c =? 0)%Z || isspace c) eqn:Hc; [lia|].
  destruct i as [|i]; [cbn in Hi; unfold word_char in Hi; rewrite Hc in Hi; done|].
  apply IH in Hi. lia.
Qed.

Lemma count_token_word (l : list Z) (j : nat) :
  j < count_token l -> word_char (nth j l 0%Z) = true.
Proof.
  revert j. induction l as [|c l IH]; intros j Hj; [cbn in Hj; lia|].
  cbn [count_token] in Hj. destruct ((c =? 0)%Z || isspace c) eqn:Hc; [lia|].
  destruct j as [|j]; [cbn; unfold word_char; by rewrite Hc|]. apply IH. lia.
Qed.

Lemma count_token_pos (l : list Z) :
  word_char (nth 0 l 0%Z) = true -> 1 <= count_token l.
Proof.
  destruct l as [|c l]; [done|]. cbn. unfold word_char. intros Hc.
  apply negb_true_iff in Hc. rewrite Hc. lia.
Qed.

(** One round of the loop: the offsets of the token it finds. *)
Lemma arg_loop_round_offsets (buf : list Z) (p : nat) :
  let p1 := p + count_space (drop p buf) in
  let p2 := p1 + count_token (drop p1 buf) in
  char_at buf p1 <> 0%Z ->
  p1 < p2 /\ p2 <= length buf /\
  word_char (char_at buf p2) = false /\
  (forall j, p1 <= j < p2 -> word_char (char_at buf j) = true).
Proof.
  intros p1 p2 Hnz.
  assert (Hsp : isspace (char_at buf p1) = false).
  { unfold p1. rewrite char_at_drop. apply count_space_stop. }
  assert (Hw : word_char (char_at buf p1) = true) by (by apply word_char_true).
  assert (Hstop : word_char (char_at buf p2) = false).
  { unfold p2. rewrite char_at_drop. apply count_token_stop. }
  assert (Hpos : 1 <= count_token (drop p1 buf)).
  { apply count_token_pos. rewrite <- char_at_drop. by rewrite Nat.add_0_r. }
  assert (Hword : forall j, p1 <= j < p2 -> word_char (char_at buf j) = true).
  { intros j Hj. replace j with (p1 + (j - p1)) by lia. rewrite char_at_drop.
    apply count_token_word. unfold p2 in Hj. lia. }
  split; [unfold p2; lia|]. split; [|done].
  destruct (le_lt_dec p2 (length buf)) as [Hle|Hgt]; [done|].
  assert (Hlast : word_char (char_at buf (p2 - 1)) = true) by (apply Hword; lia).
  rewrite char_at_ge in Hlast by lia. done.
Qed.

(** Split a conjunction that is written out, leaving definitions folded. *)
Ltac splits := repeat match goal with |- _ /\ _ => split end.

Lemma arg_loop_unfold (fuel : nat) (avl abl : Z) (p : nat) (buf : list Z)
    (st : ArgState) :
  arg_loop (S fuel) avl abl p buf st =
    let p1 := p + count_space (drop p buf) in
    if (char_at buf p1 =? 0)%Z then
      Some (mkArgResult (mkWithError (argc st) kSuccess) (Some buf) st)
    else
      let p2 := p1 + count_token (drop p1 buf) in
      let buf1 := <[p2 := 0%Z]> buf in
      let pushed := push_to_argv avl abl (cstring_at buf1 p1) st in
      if is_err (fst pushed) then
        Some (mkArgResult (mkWithError (argc (snd pushed)) (fst pushed)) (Some buf1)
                (snd pushed))
      else if (char_at buf p2 =? 0)%Z then
        Some (mkArgResult (mkWithError (argc (snd pushed)) kSuccess) (Some buf1)
                (snd pushed))
      else arg_loop fuel avl abl (S p2) buf1 (snd pushed).
Proof.
  cbn [arg_loop]. cbv zeta.
  destruct (char_at buf _ =? 0)%Z; [reflexivity|].
  destruct (push_to_argv _ _ _ _) as [err st']. reflexivity.
Qed.

Lemma cstring_length_le (l : list Z) (k : nat) :
  nth k l 0%Z = 0%Z -> length (cstring l) <= k.
Proof.
  revert k. induction l as [|c l IH]; intros k Hk; [cbn; lia|].
  cbn [cstring]. destruct (c =? 0)%Z eqn:Hc; [cbn; lia|].
  destruct k as [|k]; [cbn in Hk; apply Z.eqb_neq in Hc; done|].
  cbn [length]. apply IH in Hk. lia.
Qed.

Lemma to_int_small (z : Z) : (0 <= z < 2 ^ 31)%Z -> to_int z = z.
Proof. intros Hz. unfold to_int. rewrite Z.mod_small; lia. Qed.



(** The loop returns whatever the arrays are: the fuel never runs out. *)
Lemma arg_loop_total (avl abl : Z) (fuel : nat) :
  forall (p : nat) (buf : list Z) (st : ArgState),
  length buf < fuel + p -> p <= length buf ->
  is_Some (arg_loop fuel avl abl p buf st).
Proof.
  induction fuel as [|fuel IH]; intros p buf st Hfuel Hp; [lia|].
  rewrite arg_loop_unfold. cbv zeta.
  set (p1 := p + count_space (drop p buf)).
  destruct (char_at buf p1 =? 0)%Z eqn:Hend; [done|].
  apply Z.eqb_neq in Hend.
  destruct (arg_loop_round_offsets buf p Hend) as (Hlt & Hle & _).
  fold p1 in Hlt, Hle. set (p2 := p1 + count_token (drop p1 buf)) in *.
  destruct (is_err _); [done|].
  destruct (char_at buf p2 =? 0)%Z eqn:Hend2; [done|].
  apply Z.eqb_neq in Hend2. apply char_at_nonzero_lt in Hend2.
  apply IH; rewrite length_insert; unfold p1 in *; lia.
Qed.

Lemma MakeArgVector_total (command : list Z) (first_arg : option (list Z))
    (argv : list Ptr) (avl : Z) (argbuf : list Z) (abl : Z) :
  is_Some (MakeArgVector command first_arg argv avl argbuf abl).
Proof.
  unfold MakeArgVector. destruct (push_to_argv _ _ _ _) as [err st].
  destruct (is_err err); [done|]. destruct first_arg as [buf|]; [|done].
  apply arg_loop_total; lia.
Qed.

(** *** Pushing strings one after the other *)

Lemma length_store_bytes (bs buf : list Z) (i : nat) :
  length (store_bytes i bs buf) = length buf.
Proof.
  revert i buf. induction bs as [|b bs IH]; intros i buf; [done|].
  cbn. by rewrite IH, length_insert.
Qed.

Lemma store_bytes_lookup (bs buf : list Z) (i j : nat) :
  store_bytes i bs buf !! j =
    if decide (i <= j < i + length bs /\ j < length buf) then bs !! (j - i)
    else buf !! j.
Proof.
  revert i buf. induction bs as [|b bs IH]; intros i buf.
  - cbn. destruct (decide _) as [[? _]|_]; [lia|done].
  - cbn [store_bytes length]. rewrite IH, length_insert.
    destruct (decide (S i <= j < S i + length bs /\ j < length buf)) as [[Hr Hl]|Hno].
    + rewrite decide_True by lia. replace (j - i) with (S (j - S i)) by lia. done.
    + destruct (decide (j = i)) as [->|Hne].
      * destruct (decide _) as [[_ Hl]|Hno2].
        -- rewrite Nat.sub_diag. by apply list_lookup_insert_eq.
        -- rewrite list_insert_ge; [done|]. lia.
      * rewrite list_lookup_insert_ne by done.
        destruct (decide _) as [[? ?]|_]; [lia|done].
Qed.

Lemma packed_size_app (ss ss' : list (list Z)) :
  packed_size (ss ++ ss') = packed_size ss + packed_size ss'.
Proof. induction ss as [|s ss IH]; cbn; [done|]. rewrite IH. lia. Qed.

Lemma packed_size_take_S (ss : list (list Z)) (i : nat) (s : list Z) :
  ss !! i = Some s ->
  packed_size (take (S i) ss) = packed_size (take i ss) + length s + 1.
Proof.
  intros Hs. rewrite (take_S_r _ _ _ Hs), packed_size_app. cbn. lia.
Qed.

Lemma packed_size_take_le (ss : list (list Z)) (i : nat) :
  packed_size (take i ss) <= packed_size ss.
Proof.
  rewrite <- (take_drop i ss) at 2. rewrite packed_size_app. lia.
Qed.

(** A string read back from where it was stored with its NUL. *)
Lemma cstring_stored (s l : list Z) :
  Forall (fun c => c <> 0%Z) s ->
  (forall k, k <= length s -> l !! k = (s ++ [0%Z]) !! k) ->
  cstring l = s.
Proof.
  revert l. induction s as [|c s IH]; intros l Hnz Hl.
  - specialize (Hl 0 ltac:(cbn; lia)). destruct l as [|c l]; [done|].
    cbn in Hl. injection Hl as ->. done.
  - apply Forall_cons in Hnz as [Hc Hnz].
    pose proof (Hl 0 ltac:(cbn; lia)) as H0. destruct l as [|c' l]; [done|].
    cbn in H0. injection H0 as ->. cbn [cstring].
    apply Z.eqb_neq in Hc. rewrite Hc. f_equal. apply IH; [done|].
    intros k Hk. apply (Hl (S k)). cbn. lia.
Qed.

(** A push with room left succeeds and keeps what was stored. *)
Lemma push_to_argv_stored (avl abl : Z) (ss : list (list Z)) (s : list Z)
    (st : ArgState) :
  stored ss st ->
  (Z.of_nat (length ss) < avl)%Z ->
  (Z.of_nat (packed_size ss) < abl)%Z ->
  (Z.of_nat (packed_size (ss ++ [s])) < 2 ^ 31)%Z ->
  let st' := snd (push_to_argv avl abl s st) in
  fst (push_to_argv avl abl s st) = kSuccess /\
  stored (ss ++ [s]) st' /\
  length (argv st') = length (argv st) /\
  length (argbuf st') = length (argbuf st).
Proof.
  intros (Hargc & Hidx & Hcont) Havl Habl Hsize. unfold push_to_argv.
  rewrite Hargc, Hidx.
  replace (avl <=? Z.of_nat (length ss))%Z with false by (symmetry; apply Z.leb_gt; lia).
  replace (abl <=? Z.of_nat (packed_size ss))%Z with false
    by (symmetry; apply Z.leb_gt; lia).
  cbn [orb fst snd]. rewrite !Nat2Z.id.
  rewrite packed_size_app in Hsize. cbn [packed_size] in Hsize.
  split; [done|]. split; [|split; cbn; [apply length_insert|apply length_store_bytes]].
  unfold stored. cbn [argc argbuf_index argv argbuf].
  rewrite length_app, packed_size_app, length_insert, length_store_bytes.
  cbn [length packed_size]. split; [lia|]. split; [rewrite to_int_small; lia|].
  intros Hfit Hroom i s' Hs'.
  assert (Hi : i < length ss \/ i = length ss).
  { apply lookup_lt_Some in Hs'. rewrite length_app in Hs'. cbn in Hs'. lia. }
  destruct Hi as [Hi| ->].
  - rewrite lookup_app_l in Hs' by done.
    destruct (Hcont ltac:(lia) ltac:(lia) i s' Hs') as [Hptr Hbytes].
    rewrite take_app_le by lia.
    split; [rewrite list_lookup_insert_ne by lia; exact Hptr|].
    intros k Hk. rewrite store_bytes_lookup.
    pose proof (packed_size_take_S ss i s' Hs') as HS.
    pose proof (packed_size_take_le ss (S i)) as Hle.
    rewrite decide_False by lia. by apply Hbytes.
  - rewrite lookup_app_r in Hs' by lia. rewrite Nat.sub_diag in Hs'.
    cbn in Hs'. injection Hs' as <-.
    rewrite take_app_le by lia. rewrite firstn_all.
    split; [apply list_lookup_insert_eq; lia|].
    intros k Hk. rewrite store_bytes_lookup, length_app. cbn [length].
    rewrite decide_True by lia. f_equal. lia.
Qed.

(** *** The loop on a string given token by token *)

Lemma count_space_blank (ld l : list Z) :
  blank ld -> isspace (nth 0 l 0%Z) = false -> count_space (ld ++ l) = length ld.
Proof.
  intros Hld Hl. induction Hld as [|c ld Hc _ IH]; cbn [app count_space length].
  - destruct l as [|c l]; [done|]. cbn in Hl. cbn. by rewrite Hl.
  - by rewrite Hc, IH.
Qed.

Lemma count_token_word_app (w rest : list Z) :
  Forall (fun c => word_char c = true) w -> ends_word rest ->
  count_token (w ++ rest) = length w.
Proof.
  intros Hw Hrest. induction Hw as [|c w Hc _ IH]; cbn [app count_token length].
  - destruct rest as [|c rest]; [done|]. cbn in Hrest. cbn.
    unfold word_char in Hrest. apply negb_false_iff in Hrest. by rewrite Hrest.
  - unfold word_char in Hc. apply negb_true_iff in Hc. by rewrite Hc, IH.
Qed.

Lemma cstring_word (w rest : list Z) :
  Forall (fun c => word_char c = true) w ->
  cstring (w ++ <[0 := 0%Z]> rest) = w.
Proof.
  intros Hw. induction Hw as [|c w Hc _ IH]; cbn [app cstring].
  - by destruct rest.
  - apply word_char_true in Hc as [Hc _]. apply Z.eqb_neq in Hc.
    by rewrite Hc, IH.
Qed.

Lemma is_word_head (w l : list Z) :
  is_word w -> word_char (nth 0 (w ++ l) 0%Z) = true.
Proof.
  intros [Hne Hw]. destruct w as [|c w]; [done|]. cbn.
  by apply Forall_cons in Hw as [Hc _].
Qed.

(** One round on a string that continues with white space [ld], the token
    [w] and then [rest]. *)
Lemma arg_loop_round (fuel : nat) (avl abl : Z) (pre ld w rest : list Z)
    (st : ArgState) :
  blank ld -> is_word w -> ends_word rest ->
  arg_loop (S fuel) avl abl (length pre) (pre ++ ld ++ w ++ rest) st =
    let buf1 := pre ++ ld ++ w ++ <[0 := 0%Z]> rest in
    let pushed := push_to_argv avl abl w st in
    if is_err (fst pushed) then
      Some (mkArgResult (mkWithError (argc (snd pushed)) (fst pushed)) (Some buf1)
              (snd pushed))
    else if (nth 0 rest 0 =? 0)%Z then
      Some (mkArgResult (mkWithError (argc (snd pushed)) kSuccess) (Some buf1)
              (snd pushed))
    else arg_loop fuel avl abl (S (length (pre ++ ld ++ w))) buf1 (snd pushed).
Proof.
  intros Hld Hw Hrest. rewrite arg_loop_unfold. cbv zeta.
  pose proof (is_word_head w rest Hw) as Hhead.
  apply word_char_true in Hhead as [Hnz Hnsp].
  rewrite drop_app_length, (count_space_blank ld _ Hld Hnsp).
  replace (length pre + length ld) with (length (pre ++ ld)) by (by rewrite length_app).
  rewrite (app_assoc pre ld). rewrite drop_app_length.
  rewrite (count_token_word_app w rest (proj2 Hw) Hrest).
  replace (length (pre ++ ld) + length w) with (length ((pre ++ ld) ++ w))
    by (by rewrite length_app).
  rewrite (app_assoc (pre ++ ld) w).
  assert (Hc1 : char_at (((pre ++ ld) ++ w) ++ rest) (length (pre ++ ld))
                = nth 0 (w ++ rest) 0%Z).
  { rewrite <- (Nat.add_0_r (length (pre ++ ld))), char_at_drop.
    by rewrite <- app_assoc, drop_app_length. }
  assert (Hc2 : char_at (((pre ++ ld) ++ w) ++ rest) (length ((pre ++ ld) ++ w))
                = nth 0 rest 0%Z).
  { rewrite <- (Nat.add_0_r (length ((pre ++ ld) ++ w))), char_at_drop.
    by rewrite drop_app_length. }
  rewrite Hc1, Hc2. apply Z.eqb_neq in Hnz. rewrite Hnz.
  assert (Hbuf1 : <[length ((pre ++ ld) ++ w) := 0%Z]> (((pre ++ ld) ++ w) ++ rest)
                  = pre ++ ld ++ w ++ <[0 := 0%Z]> rest).
  { rewrite <- (Nat.add_0_r (length ((pre ++ ld) ++ w))), insert_app_r.
    by rewrite <- !app_assoc. }
  rewrite Hbuf1.
  assert (Hstr : cstring_at (pre ++ ld ++ w ++ <[0 := 0%Z]> rest) (length (pre ++ ld)) = w).
  { unfold cstring_at. rewrite (app_assoc pre ld), drop_app_length.
    apply cstring_word, Hw. }
  rewrite Hstr. by rewrite <- !app_assoc.
Qed.

Lemma segments_length (segs : list Segment) :
  length segs <= length (concat (segment_bytes <$> segs)).
Proof.
  induction segs as [|seg segs IH]; [done|]. cbn.
  rewrite length_app. unfold segment_bytes at 1. rewrite !length_app. cbn. lia.
Qed.

(** The rounds over a run of tokens whose pushes all find room. *)
Lemma arg_loop_segments (avl abl : Z) (segs : list Segment) :
  forall (fuel : nat) (pre tail : list Z) (pushed : list (list Z)) (st : ArgState),
  Forall segment_ok segs ->
  stored pushed st ->
  (Z.of_nat (length pushed + length segs) <= avl)%Z ->
  (forall j, j < length segs ->
     (Z.of_nat (packed_size (pushed ++ take j (word <$> segs))) < abl)%Z) ->
  (Z.of_nat (packed_size (pushed ++ (word <$> segs))) < 2 ^ 31)%Z ->
  exists st',
    arg_loop (length segs + fuel) avl abl (length pre)
      (pre ++ concat (segment_bytes <$> segs) ++ tail) st
    = arg_loop fuel avl abl (length (pre ++ concat (segment_done <$> segs)))
        (pre ++ concat (segment_done <$> segs) ++ tail) st' /\
    stored (pushed ++ (word <$> segs)) st' /\
    length (argv st') = length (argv st) /\
    length (argbuf st') = length (argbuf st).
Proof.
  induction segs as [|seg segs IH]; intros fuel pre tail pushed st Hok Hst Havl Habl Hsize.
  - exists st. cbn. rewrite !app_nil_r. done.
  - apply Forall_cons in Hok as [(Hld & Hw & Hstop) Hok].
    cbn [fmap list_fmap concat length Nat.add] in *.
    unfold segment_bytes at 1. rewrite <- !app_assoc.
    rewrite (arg_loop_round _ avl abl pre (lead seg) (word seg)
               ([stop seg] ++ concat (segment_bytes <$> segs) ++ tail) st Hld Hw);
      [|cbn; apply word_char_false; by right].
    cbv zeta.
    destruct (push_to_argv_stored avl abl pushed (word seg) st Hst)
      as (Herr & Hst1 & Hlen1 & Hbuf1).
    { lia. }
    { specialize (Habl 0 ltac:(lia)). cbn in Habl. by rewrite app_nil_r in Habl. }
    { rewrite packed_size_app in *. cbn [packed_size] in *. lia. }
    rewrite Herr. cbn [is_err app nth].
    assert (Hnz : (stop seg =? 0)%Z = false).
    { apply Z.eqb_neq. intros Hz. rewrite Hz in Hstop. done. }
    rewrite Hnz. cbn [insert list_insert].
    destruct (IH fuel (pre ++ segment_done seg) tail (pushed ++ [word seg])
                (snd (push_to_argv avl abl (word seg) st)) Hok Hst1)
      as (st' & Hrun & Hst' & Hlen' & Hbuf').
    { rewrite length_app. cbn. lia. }
    { intros j Hj. specialize (Habl (S j) ltac:(lia)). cbn in Habl.
      by rewrite <- app_assoc. }
    { by rewrite <- app_assoc. }
    exists st'. rewrite <- !app_assoc in Hst'. cbn [app] in Hst'.
    split; [|split; [exact Hst'|split; congruence]].
    etransitivity; [|etransitivity; [exact Hrun|]].
    + f_equal.
      * unfold segment_done. rewrite !length_app. cbn. lia.
      * unfold segment_done. by rewrite <- !app_assoc.
    + by rewrite <- !app_assoc.
Qed.

Lemma cstring_nonzero (l : list Z) : Forall (fun c => c <> 0%Z) (cstring l).
Proof.
  induction l as [|c l IH]; cbn; [done|].
  destruct (c =? 0)%Z eqn:Hc; [done|]. apply Z.eqb_neq in Hc. by constructor.
Qed.

Lemma push_to_argv_full (avl abl : Z) (ss : list (list Z)) (s : list Z)
    (st : ArgState) :
  stored ss st ->
  (Z.of_nat (length ss) = avl \/ (abl <= Z.of_nat (packed_size ss))%Z) ->
  push_to_argv avl abl s st = (kFull, st).
Proof.
  intros (Hargc & Hidx & _) Hfull. unfold push_to_argv. rewrite Hargc, Hidx.
  replace ((avl <=? Z.of_nat (length ss))%Z || (abl <=? Z.of_nat (packed_size ss))%Z)
    with true; [done|].
  symmetry. apply orb_true_iff. destruct Hfull; [left|right]; apply Z.leb_le; lia.
Qed.





(** C5: [MakeArgVector] with [argv_len] = 32 on an argument string that
    holds the tokens of [segs] and then one more token [w].  The command
    and the tokens of [segs] are the strings pushed so far; each of them
    found room.  If they are 32, or if they have used up [argbuf], the push
    of [w] fails: [MakeArgVector] returns the error Full together with the
    number of strings pushed before (32 in the first case), [argc] is that
    number, and, the strings having fitted into [argbuf], every [argv]
    entry below the count still points at its string. *)
Theorem MakeArgVector_full (command : list Z) (segs : list Segment)
    (ld w rest : list Z) (argv : list Ptr) (argbuf : list Z) (abl : Z) :
  let strings := cstring command :: (word <$> segs) in
  let buf := concat (segment_bytes <$> segs) ++ ld ++ w ++ rest in
  Forall segment_ok segs -> blank ld -> is_word w -> ends_word rest ->
  length strings <= 32 ->
  (forall j, j < length strings ->
     (Z.of_nat (packed_size (take j strings)) < abl)%Z) ->
  (length strings = 32 \/ (abl <= Z.of_nat (packed_size strings))%Z) ->
  (Z.of_nat (packed_size strings) < 2 ^ 31)%Z ->
  exists r,
    MakeArgVector command (Some buf) argv 32 argbuf abl = Some r /\
    ret r = mkWithError (Z.of_nat (length strings)) kFull /\
    argc (state_after r) = Z.of_nat (length strings) /\
    (packed_size strings <= length argbuf -> length strings <= length argv ->
     forall i s, strings !! i = Some s -> argv_string (state_after r) i = Some s).
Proof.
  intros strings buf Hsegs Hld Hw Hrest Hcount Hroom Hfull Hsize.
  unfold MakeArgVector.
  set (st0 := mkArgState 0 0 argv argbuf).
  assert (Hst0 : stored [] st0) by (unfold stored; cbn; splits; done).
  destruct (push_to_argv_stored 32 abl [] (cstring command) st0 Hst0)
    as (Herr & Hst1 & Hlen1 & Hbuf1).
  { cbn. lia. }
  { apply (Hroom 0). cbn. lia. }
  { cbn [app]. pose proof (packed_size_take_le strings 1) as Hle.
    unfold strings in Hle at 1. cbn [take] in Hle. rewrite take_0 in Hle. lia. }
  destruct (push_to_argv 32 abl (cstring command) st0) as [err st1].
  cbn [fst snd app] in *. subst err. cbn [is_err].
  unfold st0 in Hlen1, Hbuf1. cbn [ArgVector.argv ArgVector.argbuf] in Hlen1, Hbuf1.
  assert (Hfuel : exists fuel, S (length buf) = length segs + S fuel).
  { exists (length buf - length segs). pose proof (segments_length segs) as Hl.
    unfold buf. rewrite length_app. lia. }
  destruct Hfuel as [fuel ->].
  destruct (arg_loop_segments 32 abl segs (S fuel) [] (ld ++ w ++ rest)
              [cstring command] st1 Hsegs Hst1)
    as (st' & Hrun & Hst' & Hlen' & Hbuf').
  { cbn [length strings] in Hcount. rewrite length_fmap in Hcount. cbn. lia. }
  { intros j Hj. apply (Hroom (S j)). cbn. rewrite length_fmap. lia. }
  { exact Hsize. }
  cbn [app length] in Hrun. unfold buf. rewrite Hrun.
  rewrite (arg_loop_round fuel 32 abl (concat (segment_done <$> segs)) ld w rest st'
             Hld Hw Hrest).
  cbv zeta. cbn [app] in Hst'. fold strings in Hst'.
  rewrite (push_to_argv_full 32 abl strings w st' Hst'); [|lia].
  cbn [fst snd is_err].
  eexists. split; [reflexivity|]. cbn [ret state_after].
  destruct Hst' as (Hargc & Hidx & Hcont).
  split; [by rewrite Hargc|]. split; [exact Hargc|].
  intros Hfit Hlen i s Hs.
  destruct (Hcont ltac:(lia) ltac:(lia) i s Hs) as [Hptr Hbytes].
  unfold argv_string. rewrite Hptr. f_equal. unfold cstring_at. rewrite Nat2Z.id.
  apply cstring_stored.
  - unfold strings in Hs. destruct i as [|i].
    + cbn in Hs. injection Hs as <-. apply cstring_nonzero.
    + change ((word <$> segs) !! i = Some s) in Hs.
      rewrite list_lookup_fmap in Hs.
      destruct (segs !! i) as [seg|] eqn:Hseg; [|done]. cbn in Hs. injection Hs as <-.
      rewrite Forall_forall in Hsegs.
      destruct (Hsegs seg (list_elem_of_lookup_2 _ _ _ Hseg)) as (_ & [_ Hword] & _).
      eapply Forall_impl; [exact Hword|]. intros c Hc.
      by apply word_char_true in Hc as [? _].
  - intros k Hk. rewrite lookup_drop. by apply Hbytes.
Qed.

End ArgVectorProperties.


(** [MakeArgVector_full] on the command a followed by the letter b 32
    times, each but the last with a space after it: 33 strings for 32
    entries. *)
Lemma MakeArgVector_full_witness :
  exists r,
    ArgVector.MakeArgVector [97]
      (Some (concat (ArgVector.segment_bytes <$> replicate 31 (ArgVector.mkSegment [] [98] 32))
               ++ [] ++ [98] ++ []))
      (replicate 32 ArgVector.Null) 32 (replicate 3840 0) 3840 = Some r /\
    ArgVector.ret r = mkWithError 32 kFull /\
    ArgVector.argv_string (ArgVector.state_after r) 31 = Some [98].
Proof.
  destruct (MakeArgVector_full [97] (replicate 31 (ArgVector.mkSegment [] [98] 32))
              [] [98] [] (replicate 32 ArgVector.Null) (replicate 3840 0) 3840)
    as (r & Hrun & Hret & _ & Hstr).
  - apply Forall_replicate. split; [constructor|]. split; [|reflexivity].
    split; [discriminate|]. repeat constructor.
  - constructor.
  - split; [discriminate|]. repeat constructor.
  - exact I.
  - vm_compute. lia.
  - intros j Hj. vm_compute in Hj.
    do 32 (destruct j as [|j]; [vm_compute; reflexivity|]). lia.
  - left. reflexivity.
  - vm_compute. reflexivity.
  - exists r. split; [exact Hrun|]. split; [exact Hret|].
    apply Hstr; [vm_compute; lia|vm_compute; lia|reflexivity].
Defined.

(** * Further properties *)

(** Split a conjunction that is written out, leaving definitions folded. *)
Ltac splits := repeat match goal with |- _ /\ _ => split end.

(** ** Argument marshaling, beyond the full case *)
Section ArgVectorMore.
Import ArgVector ArgLayout.
Local Open Scope nat_scope.

(** Strings that are stored can be read back through [argv]. *)
Lemma stored_argv_string (ss : list (list Z)) (st : ArgState) :
  stored ss st -> Forall nonzero ss ->
  packed_size ss <= length (ArgVector.argbuf st) ->
  length ss <= length (ArgVector.argv st) ->
  forall i s, ss !! i = Some s -> argv_string st i = Some s.
Proof.
  intros (_ & _ & Hcont) Hnz Hfit Hlen i s Hs.
  destruct (Hcont Hfit Hlen i s Hs) as [Hptr Hbytes].
  unfold argv_string. rewrite Hptr. f_equal. unfold cstring_at. rewrite Nat2Z.id.
  apply cstring_stored.
  - rewrite Forall_forall in Hnz. apply Hnz. by apply list_elem_of_lookup_2 in Hs.
  - intros k Hk. rewrite lookup_drop. by apply Hbytes.
Qed.

Lemma is_word_nonzero (w : list Z) : is_word w -> nonzero w.
Proof.
  intros [_ Hw]. eapply Forall_impl; [exact Hw|].
  intros c Hc. by apply word_char_true in Hc as [? _].
Qed.

Lemma segment_words_nonzero (segs : list Segment) :
  Forall segment_ok segs -> Forall nonzero (word <$> segs).
Proof.
  intros Hok. apply Forall_fmap. eapply Forall_impl; [exact Hok|].
  intros seg (_ & Hw & _). by apply is_word_nonzero.
Qed.

(** X1: the argument string read token by token.  The string holds the
    tokens of [segs], each ended by a white-space byte, then white space
    [ld], then possibly a last token [final] that runs up to the
    terminator.  If every string finds room, [MakeArgVector] returns
    success with the number of strings (the command and the tokens), the
    caller's string has NUL after each token, and [argv] gives back the
    command and the tokens in order. *)
Theorem MakeArgVector_tokens (command : list Z) (segs : list Segment)
    (ld : list Z) (final : option (list Z)) (ending : list Z)
    (argv : list Ptr) (avl : Z) (argbuf : list Z) (abl : Z) :
  let strings := cstring command :: (word <$> segs) ++ option_list final in
  let buf := concat (segment_bytes <$> segs) ++ ld ++ default [] final ++ ending in
  Forall segment_ok segs -> blank ld ->
  (forall w, final = Some w -> is_word w) ->
  ends_string ending ->
  (Z.of_nat (length strings) <= avl)%Z ->
  (forall j, j < length strings ->
     (Z.of_nat (packed_size (take j strings)) < abl)%Z) ->
  (Z.of_nat (packed_size strings) < 2 ^ 31)%Z ->
  exists r,
    MakeArgVector command (Some buf) argv avl argbuf abl = Some r /\
    ret r = mkWithError (Z.of_nat (length strings)) kSuccess /\
    first_arg_after r
      = Some (concat (segment_done <$> segs) ++ ld ++ default [] final ++ ending) /\
    (packed_size strings <= length argbuf -> length strings <= length argv ->
     forall i s, strings !! i = Some s -> argv_string (state_after r) i = Some s).
Proof.
  intros strings buf Hsegs Hld Hfinal Hend Hcount Hroom Hsize.
  assert (Hlenstr : length strings = S (length segs + length (option_list final))).
  { unfold strings. cbn. by rewrite length_app, length_fmap. }
  unfold MakeArgVector.
  set (st0 := mkArgState 0 0 argv argbuf).
  assert (Hst0 : stored [] st0) by (unfold stored; cbn; splits; done).
  destruct (push_to_argv_stored avl abl [] (cstring command) st0 Hst0)
    as (Herr & Hst1 & Hlen1 & Hbuf1).
  { cbn. lia. }
  { apply (Hroom 0). lia. }
  { cbn [app]. pose proof (packed_size_take_le strings 1) as Hle.
    unfold strings in Hle at 1. cbn [take] in Hle. rewrite take_0 in Hle. lia. }
  destruct (push_to_argv avl abl (cstring command) st0) as [err st1].
  cbn [fst snd app] in *. subst err. cbn [is_err].
  unfold st0 in Hlen1, Hbuf1. cbn [ArgVector.argv ArgVector.argbuf] in Hlen1, Hbuf1.
  assert (Hfuel : exists fuel, S (length buf) = length segs + S fuel).
  { exists (length buf - length segs). pose proof (segments_length segs) as Hl.
    unfold buf. rewrite length_app. lia. }
  destruct Hfuel as [fuel ->].
  assert (Hprefix : forall j, j <= length segs ->
    cstring command :: take j (word <$> segs) = take (S j) strings).
  { intros j Hj. unfold strings. cbn [take]. f_equal.
    rewrite take_app_le; [done|]. rewrite length_fmap. lia. }
  destruct (arg_loop_segments avl abl segs (S fuel) []
              (ld ++ default [] final ++ ending) [cstring command] st1 Hsegs Hst1)
    as (st' & Hrun & Hst' & Hlen' & Hbuf').
  { cbn. lia. }
  { intros j Hj. cbn [app]. rewrite Hprefix by lia. apply Hroom. lia. }
  { cbn [app]. pose proof (packed_size_take_le strings (S (length segs))) as Hle.
    rewrite <- Hprefix in Hle by lia. rewrite take_ge in Hle; [lia|].
    rewrite length_fmap. lia. }
  cbn [app length] in Hrun, Hst'. unfold buf. rewrite Hrun.
  assert (Hnz : Forall nonzero strings).
  { unfold strings. constructor; [apply cstring_nonzero|].
    apply Forall_app. split; [by apply segment_words_nonzero|].
    destruct final as [w|]; cbn; [|done]. constructor; [|done].
    apply is_word_nonzero. by apply Hfinal. }
  destruct final as [w|]; cbn [default] in *;
    [change (option_list (Some w)) with [w] in *
    |change (option_list (@None (list Z))) with (@nil (list Z)) in *];
    cbn [length] in Hlenstr.
  - (* a last token runs up to the terminator *)
    rewrite (arg_loop_round fuel avl abl (concat (segment_done <$> segs)) ld w ending
               st' Hld (Hfinal w eq_refl)).
    2:{ unfold ends_word. unfold ends_string in Hend. destruct ending as [|c ending]; [done|].
        cbn in Hend. subst c. done. }
    cbv zeta.
    destruct (push_to_argv_stored avl abl (cstring command :: (word <$> segs)) w st' Hst')
      as (Herr & Hstw & Hlenw & Hbufw).
    { cbn [length] in Hlenstr |- *. rewrite length_fmap. lia. }
    { specialize (Hroom (S (length segs)) ltac:(lia)).
      rewrite <- Hprefix in Hroom by lia. rewrite take_ge in Hroom; [done|].
      rewrite length_fmap. lia. }
    { exact Hsize. }
    destruct (push_to_argv avl abl w st') as [err st2]. cbn [fst snd] in *. subst err.
    cbn [is_err]. unfold ends_string in Hend. rewrite Hend. cbn [Z.eqb].
    eexists. split; [reflexivity|]. cbn [ret first_arg_after state_after].
    assert (Hsame : <[0 := 0%Z]> ending = ending).
    { destruct ending as [|c ending]; [done|]. cbn in Hend. by subst c. }
    rewrite Hsame. change ((cstring command :: (word <$> segs)) ++ [w]) with strings in Hstw.
    split; [destruct Hstw as (-> & _); done|]. split; [done|].
    intros Hfit Hlen. apply stored_argv_string; try done; lia.
  - (* only white space is left *)
    assert (Hstr : strings = cstring command :: (word <$> segs))
      by (unfold strings; by rewrite app_nil_r).
    rewrite <- Hstr in Hst'. cbn [app].
    rewrite arg_loop_unfold. cbv zeta.
    rewrite drop_app_length.
    rewrite (count_space_blank ld ending Hld)
      by (unfold ends_string in Hend; by rewrite Hend).
    rewrite app_assoc.
    rewrite <- (Nat.add_0_r (length _ + length ld)), <- length_app, char_at_drop.
    rewrite drop_app_length. unfold ends_string in Hend. rewrite Hend. cbn [Z.eqb].
    eexists. split; [reflexivity|]. cbn [ret first_arg_after state_after].
    rewrite <- app_assoc.
    split; [destruct Hst' as (-> & _); done|]. split; [done|].
    intros Hfit Hlen. apply stored_argv_string; try done; lia.
Qed.

(** What one call of the lambda keeps, whatever the arrays are. *)
Lemma push_to_argv_bounds (avl abl : Z) (s : list Z) (st : ArgState) (argv0 : list Ptr) :
  (0 <= argc st <= Z.max 0 avl)%Z ->
  length (ArgVector.argv st) = length argv0 ->
  (forall i, (argc st <= Z.of_nat i)%Z -> ArgVector.argv st !! i = argv0 !! i) ->
  let err := fst (push_to_argv avl abl s st) in
  let st' := snd (push_to_argv avl abl s st) in
  (err = kSuccess \/ err = kFull) /\
  (argc st <= argc st' <= Z.max 0 avl)%Z /\
  length (ArgVector.argv st') = length argv0 /\
  length (ArgVector.argbuf st') = length (ArgVector.argbuf st) /\
  (forall i, (argc st' <= Z.of_nat i)%Z -> ArgVector.argv st' !! i = argv0 !! i).
Proof.
  intros Hargc Hlen Hframe. unfold push_to_argv.
  destruct ((avl <=? argc st)%Z || (abl <=? argbuf_index st)%Z) eqn:Hfull;
    cbn [fst snd].
  - splits; auto; try lia.
  - apply orb_false_iff in Hfull as [Hc _]. apply Z.leb_gt in Hc.
    cbn [argc ArgVector.argv ArgVector.argbuf].
    splits; [by left|lia|lia|by rewrite length_insert|apply length_store_bytes|].
    intros i Hi. rewrite list_lookup_insert_ne by lia. apply Hframe. lia.
Qed.

Lemma arg_loop_bounds (avl abl : Z) (argv0 : list Ptr) (fuel : nat) :
  forall (p : nat) (buf : list Z) (st : ArgState) (r : ArgResult),
  (0 <= argc st <= Z.max 0 avl)%Z ->
  length (ArgVector.argv st) = length argv0 ->
  (forall i, (argc st <= Z.of_nat i)%Z -> ArgVector.argv st !! i = argv0 !! i) ->
  arg_loop fuel avl abl p buf st = Some r ->
  value (ret r) = argc (state_after r) /\
  (error (ret r) = kSuccess \/ error (ret r) = kFull) /\
  (argc st <= argc (state_after r) <= Z.max 0 avl)%Z /\
  length (ArgVector.argv (state_after r)) = length argv0 /\
  length (ArgVector.argbuf (state_after r)) = length (ArgVector.argbuf st) /\
  (forall i, (argc (state_after r) <= Z.of_nat i)%Z ->
     ArgVector.argv (state_after r) !! i = argv0 !! i).
Proof.
  induction fuel as [|fuel IH]; intros p buf st r Hargc Hlen Hframe Hrun; [done|].
  rewrite arg_loop_unfold in Hrun. cbv zeta in Hrun.
  destruct (char_at buf _ =? 0)%Z.
  { injection Hrun as <-. cbn. splits; auto; try lia. }
  match type of Hrun with context [push_to_argv avl abl ?s st] =>
    pose proof (push_to_argv_bounds avl abl s st argv0 Hargc Hlen Hframe)
      as (Herr & Hargc' & Hlen' & Hbuf' & Hframe');
    destruct (push_to_argv avl abl s st) as [err st'] end.
  cbn [fst snd] in *.
  destruct (is_err err) eqn:Hiserr.
  { injection Hrun as <-. cbn. splits; auto; lia. }
  destruct (char_at buf _ =? 0)%Z.
  { injection Hrun as <-. cbn. splits; auto; lia. }
  assert (Hargc0 : (0 <= argc st' <= Z.max 0 avl)%Z) by lia.
  destruct (IH _ _ _ _ Hargc0 Hlen' Hframe' Hrun)
    as (Hret & Herr2 & Hargc2 & Hlen2 & Hbuf2 & Hframe2).
  splits; auto; try lia; congruence.
Qed.

(** What a call leaves in the two arrays, and the count it returns. *)
Lemma MakeArgVector_frame (command : list Z) (first_arg : option (list Z))
    (argv : list Ptr) (avl : Z) (argbuf : list Z) (abl : Z) (r : ArgResult) :
  MakeArgVector command first_arg argv avl argbuf abl = Some r ->
  value (ret r) = argc (state_after r) /\
  (error (ret r) = kSuccess \/ error (ret r) = kFull) /\
  (0 <= value (ret r) <= Z.max 0 avl)%Z /\
  (error (ret r) = kSuccess -> 1 <= value (ret r))%Z /\
  length (ArgVector.argv (state_after r)) = length argv /\
  length (ArgVector.argbuf (state_after r)) = length argbuf /\
  (forall i, (value (ret r) <= Z.of_nat i)%Z ->
     ArgVector.argv (state_after r) !! i = argv !! i).
Proof.
  intros Hr. unfold MakeArgVector in Hr.
  set (st0 := mkArgState 0 0 argv argbuf) in *.
  pose proof (push_to_argv_bounds avl abl (cstring command) st0 argv
                ltac:(cbn; lia) eq_refl ltac:(done))
    as (Herr & Hargc & Hlen & Hbuf & Hframe).
  assert (Hone : fst (push_to_argv avl abl (cstring command) st0) = kSuccess ->
                 argc (snd (push_to_argv avl abl (cstring command) st0)) = 1%Z).
  { unfold push_to_argv. destruct (_ || _); cbn [fst snd]; [done|]. done. }
  destruct (push_to_argv avl abl (cstring command) st0) as [err st1].
  cbn [fst snd] in *. cbn [argc st0] in Hargc.
  destruct (is_err err) eqn:Hiserr.
  { injection Hr as <-. cbn. splits; auto; try lia. intros ->. done. }
  assert (Hst1 : argc st1 = 1%Z) by (apply Hone; by destruct err).
  destruct first_arg as [buf|].
  - assert (Hargc0 : (0 <= argc st1 <= Z.max 0 avl)%Z) by lia.
    destruct (arg_loop_bounds avl abl argv _ _ _ _ _ Hargc0 Hlen Hframe Hr)
      as (Hret & Herr2 & Hargc2 & Hlen2 & Hbuf2 & Hframe2).
    rewrite Hret. cbn [st0 ArgVector.argbuf] in Hbuf. splits; auto; try lia; congruence.
  - injection Hr as <-. cbn. splits; auto; try lia.
Qed.

(** X2: whatever it is given, [MakeArgVector] returns, with an error that
    is Success or Full and a count that is [argc], lies between 0 and
    [argv_len], is at least 1 on success (the command itself), and bounds
    what was written: the two arrays keep their lengths and every [argv]
    entry from the count on is as before. *)
Theorem MakeArgVector_bounds (command : list Z) (first_arg : option (list Z))
    (argv : list Ptr) (avl : Z) (argbuf : list Z) (abl : Z) :
  exists r,
    MakeArgVector command first_arg argv avl argbuf abl = Some r /\
    value (ret r) = argc (state_after r) /\
    (error (ret r) = kSuccess \/ error (ret r) = kFull) /\
    (0 <= value (ret r) <= Z.max 0 avl)%Z /\
    (error (ret r) = kSuccess -> 1 <= value (ret r))%Z /\
    length (ArgVector.argv (state_after r)) = length argv /\
    length (ArgVector.argbuf (state_after r)) = length argbuf /\
    (forall i, (value (ret r) <= Z.of_nat i)%Z ->
       ArgVector.argv (state_after r) !! i = argv !! i).
Proof.
  destruct (MakeArgVector_total command first_arg argv avl argbuf abl) as [r Hr].
  exists r. split; [exact Hr|]. by apply MakeArgVector_frame in Hr.
Qed.

(** The loop does not go past a NUL at offset [n]. *)
Lemma arg_loop_keeps_tail (avl abl : Z) (n : nat) (fuel : nat) :
  forall (p : nat) (buf : list Z) (st : ArgState) (r : ArgResult) (buf' : list Z),
  p <= n -> char_at buf n = 0%Z ->
  arg_loop fuel avl abl p buf st = Some r ->
  first_arg_after r = Some buf' ->
  drop n buf' = drop n buf.
Proof.
  induction fuel as [|fuel IH]; intros p buf st r buf' Hp Hn Hrun Hbuf; [done|].
  rewrite arg_loop_unfold in Hrun. cbv zeta in Hrun.
  set (p1 := p + count_space (drop p buf)) in *.
  assert (Hp1 : p1 <= n).
  { assert (count_space (drop p buf) <= n - p); [|unfold p1; lia].
    apply count_space_le. rewrite <- char_at_drop.
    replace (p + (n - p)) with n by lia. by rewrite Hn. }
  destruct (char_at buf p1 =? 0)%Z eqn:Hend.
  { injection Hrun as <-. cbn in Hbuf. by injection Hbuf as <-. }
  apply Z.eqb_neq in Hend.
  set (p2 := p1 + count_token (drop p1 buf)) in *.
  assert (Hp2 : p2 <= n).
  { assert (count_token (drop p1 buf) <= n - p1); [|unfold p2; lia].
    apply count_token_le. rewrite <- char_at_drop.
    replace (p1 + (n - p1)) with n by lia. by rewrite Hn. }
  assert (Hcut : drop n (<[p2 := 0%Z]> buf) = drop n buf).
  { destruct (decide (p2 = n)) as [->|Hne]; [|apply drop_insert_lt; lia].
    f_equal. apply list_insert_id'. intros Hlt.
    apply lookup_lt_is_Some in Hlt as [c Hc].
    unfold char_at in Hn. rewrite nth_lookup, Hc in Hn. cbn in Hn. by subst c. }
  destruct (is_err _).
  { injection Hrun as <-. cbn in Hbuf. by injection Hbuf as <-. }
  destruct (char_at buf p2 =? 0)%Z eqn:Hend2.
  { injection Hrun as <-. cbn in Hbuf. by injection Hbuf as <-. }
  apply Z.eqb_neq in Hend2.
  assert (p2 <> n) by (intros ->; done).
  rewrite <- Hcut. eapply (IH (S p2)); [lia| |exact Hrun|exact Hbuf].
  rewrite char_at_insert. destruct (decide _) as [[? _]|_]; [lia|done].
Qed.

(** X3: [MakeArgVector] stops at the terminator of [first_arg]: from any
    NUL of the caller's string on (and past its end), nothing is written. *)
Theorem MakeArgVector_keeps_tail (command buf : list Z) (argv : list Ptr)
    (avl : Z) (argbuf : list Z) (abl : Z) (n : nat) :
  char_at buf n = 0%Z ->
  exists r buf',
    MakeArgVector command (Some buf) argv avl argbuf abl = Some r /\
    first_arg_after r = Some buf' /\
    length buf' = length buf /\
    drop n buf' = drop n buf.
Proof.
  intros Hn.
  destruct (MakeArgVector_total command (Some buf) argv avl argbuf abl) as [r Hr].
  exists r. unfold MakeArgVector in *.
  destruct (push_to_argv avl abl (cstring command) _) as [err st1].
  destruct (is_err err).
  { injection Hr as <-. exists buf. done. }
  assert (Hlen : forall fuel p b st r0 b', arg_loop fuel avl abl p b st = Some r0 ->
            first_arg_after r0 = Some b' -> length b' = length b).
  { induction fuel as [|fuel IH]; intros p b st r0 b' Hrun Hb; [done|].
    rewrite arg_loop_unfold in Hrun. cbv zeta in Hrun.
    destruct (char_at b _ =? 0)%Z.
    { injection Hrun as <-. cbn in Hb. by injection Hb as <-. }
    destruct (is_err _).
    { injection Hrun as <-. cbn in Hb. injection Hb as <-. apply length_insert. }
    destruct (char_at b _ =? 0)%Z.
    { injection Hrun as <-. cbn in Hb. injection Hb as <-. apply length_insert. }
    rewrite (IH _ _ _ _ _ Hrun Hb). apply length_insert. }
  assert (Hsome : forall fuel p b st r0, arg_loop fuel avl abl p b st = Some r0 ->
            exists b', first_arg_after r0 = Some b').
  { induction fuel as [|fuel IH]; intros p b st r0 Hrun; [done|].
    rewrite arg_loop_unfold in Hrun. cbv zeta in Hrun.
    destruct (char_at b _ =? 0)%Z; [injection Hrun as <-; by eexists|].
    destruct (is_err _); [injection Hrun as <-; by eexists|].
    destruct (char_at b _ =? 0)%Z; [injection Hrun as <-; by eexists|].
    by apply IH in Hrun. }
  apply Hsome in Hr as Hsome'. clear Hsome. rename Hsome' into Hsome.
  destruct Hsome as [buf' Hbuf]. exists buf'. splits; try done.
  - by apply (Hlen _ _ _ _ _ _ Hr).
  - apply (arg_loop_keeps_tail avl abl n _ 0 buf st1 r buf' ltac:(lia) Hn Hr Hbuf).
Qed.

Lemma packed_size_take_lt (ss : list (list Z)) (j : nat) :
  j < length ss -> packed_size (take j ss) < packed_size ss.
Proof.
  intros Hj. rewrite <- (take_drop j ss) at 2. rewrite packed_size_app.
  destruct (drop j ss) as [|s rest] eqn:Hdrop.
  - apply (f_equal length) in Hdrop. rewrite length_drop in Hdrop. cbn in Hdrop. lia.
  - cbn. lia.
Qed.

(** One token more than [argv] has entries for. *)
Lemma MakeArgVector_overflows (command : list Z) (segs : list Segment)
    (ld w rest : list Z) (argv : list Ptr) (avl : Z) (argbuf : list Z) (abl : Z) :
  let strings := cstring command :: (word <$> segs) in
  let buf := concat (segment_bytes <$> segs) ++ ld ++ w ++ rest in
  Forall segment_ok segs -> blank ld -> is_word w -> ends_word rest ->
  Z.of_nat (length strings) = avl ->
  (Z.of_nat (packed_size strings) <= abl)%Z ->
  (Z.of_nat (packed_size strings) < 2 ^ 31)%Z ->
  exists r,
    MakeArgVector command (Some buf) argv avl argbuf abl = Some r /\
    ret r = mkWithError avl kFull.
Proof.
  intros strings buf Hsegs Hld Hw Hrest Hcount Hfit Hsize.
  assert (Hroom : forall j, j < length strings ->
            (Z.of_nat (packed_size (take j strings)) < abl)%Z).
  { intros j Hj. apply packed_size_take_lt in Hj. lia. }
  unfold MakeArgVector.
  set (st0 := mkArgState 0 0 argv argbuf).
  assert (Hst0 : stored [] st0) by (unfold stored; cbn; splits; done).
  destruct (push_to_argv_stored avl abl [] (cstring command) st0 Hst0)
    as (Herr & Hst1 & Hlen1 & Hbuf1).
  { cbn [length strings] in Hcount. cbn. lia. }
  { apply (Hroom 0). cbn. lia. }
  { cbn [app]. pose proof (packed_size_take_le strings 1) as Hle.
    unfold strings in Hle at 1. cbn [take] in Hle. rewrite take_0 in Hle. lia. }
  destruct (push_to_argv avl abl (cstring command) st0) as [err st1].
  cbn [fst snd app] in *. subst err. cbn [is_err].
  assert (Hfuel : exists fuel, S (length buf) = length segs + S fuel).
  { exists (length buf - length segs). pose proof (segments_length segs) as Hl.
    unfold buf. rewrite length_app. lia. }
  destruct Hfuel as [fuel ->].
  destruct (arg_loop_segments avl abl segs (S fuel) [] (ld ++ w ++ rest)
              [cstring command] st1 Hsegs Hst1)
    as (st' & Hrun & Hst' & _).
  { cbn [length strings] in Hcount. rewrite length_fmap in Hcount. cbn. lia. }
  { intros j Hj. apply (Hroom (S j)). cbn. rewrite length_fmap. lia. }
  { exact Hsize. }
  cbn [app length] in Hrun. unfold buf. rewrite Hrun.
  rewrite (arg_loop_round fuel avl abl (concat (segment_done <$> segs)) ld w rest st'
             Hld Hw Hrest).
  cbv zeta. cbn [app] in Hst'. fold strings in Hst'.
  rewrite (push_to_argv_full avl abl strings w st' Hst'); [|by left].
  cbn [fst snd is_err].
  eexists. split; [reflexivity|]. cbn [ret].
  destruct Hst' as (Hargc & _). by rewrite Hargc, Hcount.
Qed.

(** The bytes the loop uses in [argbuf] are bounded by how far the
    terminator of the string is. *)
Lemma arg_loop_argbuf_use (avl abl : Z) (n : nat) (bound : Z) (fuel : nat) :
  forall (p : nat) (buf : list Z) (st : ArgState) (r : ArgResult),
  p <= n -> char_at buf n = 0%Z ->
  (0 <= argbuf_index st)%Z ->
  (argbuf_index st + Z.of_nat (n - p) + 1 <= bound)%Z -> (bound < 2 ^ 31)%Z ->
  arg_loop fuel avl abl p buf st = Some r ->
  (argbuf_index st <= argbuf_index (state_after r) <= bound)%Z.
Proof.
  induction fuel as [|fuel IH]; intros p buf st r Hp Hn Hidx Hroom Hbound Hrun; [done|].
  rewrite arg_loop_unfold in Hrun. cbv zeta in Hrun.
  set (p1 := p + count_space (drop p buf)) in *.
  assert (Hp1 : p1 <= n).
  { assert (count_space (drop p buf) <= n - p); [|unfold p1; lia].
    apply count_space_le. rewrite <- char_at_drop.
    replace (p + (n - p)) with n by lia. by rewrite Hn. }
  destruct (char_at buf p1 =? 0)%Z eqn:Hend.
  { injection Hrun as <-. cbn. lia. }
  apply Z.eqb_neq in Hend.
  destruct (arg_loop_round_offsets buf p Hend) as (Hlt & Hle & _).
  fold p1 in Hlt, Hle.
  set (p2 := p1 + count_token (drop p1 buf)) in *.
  assert (Hp2 : p2 <= n).
  { assert (count_token (drop p1 buf) <= n - p1); [|unfold p2; lia].
    apply count_token_le. rewrite <- char_at_drop.
    replace (p1 + (n - p1)) with n by lia. by rewrite Hn. }
  set (buf1 := <[p2 := 0%Z]> buf) in *.
  assert (Hcut1 : char_at buf1 p2 = 0%Z).
  { unfold buf1. rewrite char_at_insert. destruct (decide _) as [_|Hno]; [done|].
    apply char_at_ge. lia. }
  assert (Hslen : length (cstring_at buf1 p1) <= p2 - p1).
  { unfold cstring_at. apply cstring_length_le. rewrite <- char_at_drop.
    replace (p1 + (p2 - p1)) with p2 by lia. exact Hcut1. }
  assert (Hpush : let st' := snd (push_to_argv avl abl (cstring_at buf1 p1) st) in
            (argbuf_index st <= argbuf_index st'
             <= argbuf_index st + Z.of_nat (p2 - p1) + 1)%Z).
  { unfold push_to_argv. destruct (_ || _); cbn [snd argbuf_index]; [lia|].
    rewrite to_int_small; lia. }
  destruct (push_to_argv avl abl (cstring_at buf1 p1) st) as [err st'].
  cbn [fst snd] in *.
  destruct (is_err err).
  { injection Hrun as <-. cbn. lia. }
  destruct (char_at buf p2 =? 0)%Z eqn:Hend2.
  { injection Hrun as <-. cbn. lia. }
  apply Z.eqb_neq in Hend2.
  assert (p2 <> n) by (intros Heq; rewrite Heq in Hend2; done).
  assert (Hn1 : char_at buf1 n = 0%Z).
  { unfold buf1. rewrite char_at_insert. destruct (decide _) as [[? _]|_]; [lia|done]. }
  assert (Hidx' : (0 <= argbuf_index st')%Z) by lia.
  assert (Hroom' : (argbuf_index st' + Z.of_nat (n - S p2) + 1 <= bound)%Z) by lia.
  assert (Hp' : S p2 <= n) by lia.
  pose proof (IH (S p2) buf1 st' r Hp' Hn1 Hidx' Hroom' Hbound Hrun). lia.
Qed.

(** X4: how much of [argbuf] a call uses.  With a NUL at offset [n] of
    [first_arg] (its terminator, or any later one), the index of the next
    free byte, which every push moves past the string it has copied, ends
    at most at [strlen(command) + 1 + n + 1], whatever [argv_len] and
    [argbuf_len] are.  (The lambda itself checks only that a string
    starts inside [argbuf], not that it ends there.) *)
Theorem MakeArgVector_argbuf_use (command buf : list Z) (argv : list Ptr)
    (avl : Z) (argbuf : list Z) (abl : Z) (n : nat) :
  char_at buf n = 0%Z ->
  (Z.of_nat (length (cstring command)) + Z.of_nat n + 2 < 2 ^ 31)%Z ->
  exists r,
    MakeArgVector command (Some buf) argv avl argbuf abl = Some r /\
    (0 <= argbuf_index (state_after r)
     <= Z.of_nat (length (cstring command)) + 1 + Z.of_nat n + 1)%Z.
Proof.
  intros Hn Hsize.
  destruct (MakeArgVector_total command (Some buf) argv avl argbuf abl) as [r Hr].
  exists r. split; [exact Hr|]. unfold MakeArgVector in Hr.
  set (st0 := mkArgState 0 0 argv argbuf) in *.
  assert (Hpush : let st' := snd (push_to_argv avl abl (cstring command) st0) in
            (0 <= argbuf_index st' <= Z.of_nat (length (cstring command)) + 1)%Z).
  { unfold push_to_argv. destruct (_ || _); cbn [snd argbuf_index st0]; [lia|].
    rewrite to_int_small; lia. }
  destruct (push_to_argv avl abl (cstring command) st0) as [err st1].
  cbn [fst snd] in *.
  destruct (is_err err).
  { injection Hr as <-. cbn. lia. }
  pose proof (arg_loop_argbuf_use avl abl n
                (Z.of_nat (length (cstring command)) + 1 + Z.of_nat n + 1)
                _ 0 buf st1 r ltac:(lia) Hn ltac:(lia) ltac:(lia) ltac:(lia) Hr).
  lia.
Qed.

End ArgVectorMore.


(** [MakeArgVector_tokens] on the command cat with the argument string
    foo.txt, one token that runs up to the terminator: two strings. *)
Lemma MakeArgVector_tokens_witness :
  exists r,
    ArgVector.MakeArgVector [99; 97; 116] (Some [102; 111; 111; 46; 116; 120; 116])
      (replicate 32 ArgVector.Null) 32 (replicate 64 0) 64 = Some r /\
    ArgVector.ret r = mkWithError 2 kSuccess /\
    ArgVector.argv_string (ArgVector.state_after r) 0 = Some [99; 97; 116] /\
    ArgVector.argv_string (ArgVector.state_after r) 1
      = Some [102; 111; 111; 46; 116; 120; 116].
Proof.
  destruct (MakeArgVector_tokens [99; 97; 116] [] []
              (Some [102; 111; 111; 46; 116; 120; 116]) []
              (replicate 32 ArgVector.Null) 32 (replicate 64 0) 64)
    as (r & Hrun & Hret & _ & Hstr).
  - constructor.
  - constructor.
  - intros w [= <-]. split; [discriminate|]. repeat constructor.
  - reflexivity.
  - vm_compute. discriminate.
  - intros j Hj. vm_compute in Hj.
    do 2 (destruct j as [|j]; [vm_compute; reflexivity|]). lia.
  - vm_compute. reflexivity.
  - exists r. split; [exact Hrun|]. split; [exact Hret|].
    split; apply Hstr; try (vm_compute; lia); reflexivity.
Defined.

(** [MakeArgVector_keeps_tail] on a buffer that holds the string
    foo bar, its terminator, and then the bytes of x y: the loop cuts
    after foo and leaves the terminator and what follows it alone. *)
Lemma MakeArgVector_keeps_tail_witness :
  exists r buf',
    ArgVector.MakeArgVector [99; 97; 116]
      (Some [102; 111; 111; 32; 98; 97; 114; 0; 120; 32; 121])
      (replicate 32 ArgVector.Null) 32 (replicate 64 0) 64 = Some r /\
    ArgVector.first_arg_after r = Some buf' /\
    drop 7 buf' = [0; 120; 32; 121].
Proof.
  destruct (MakeArgVector_keeps_tail [99; 97; 116]
              [102; 111; 111; 32; 98; 97; 114; 0; 120; 32; 121]
              (replicate 32 ArgVector.Null) 32 (replicate 64 0) 64 7)
    as (r & buf' & Hrun & Hbuf & _ & Htail); [reflexivity|].
  exists r, buf'. split; [exact Hrun|]. split; [exact Hbuf|]. exact Htail.
Defined.

(** [MakeArgVector_argbuf_use] on the command cat with the argument
    foo.txt: 4 + 8 bytes of [argbuf] at most. *)
Lemma MakeArgVector_argbuf_use_witness :
  exists r,
    ArgVector.MakeArgVector [99; 97; 116] (Some [102; 111; 111; 46; 116; 120; 116])
      (replicate 32 ArgVector.Null) 32 (replicate 64 0) 64 = Some r /\
    0 <= ArgVector.argbuf_index (ArgVector.state_after r) <= 12.
Proof.
  apply (MakeArgVector_argbuf_use [99; 97; 116] [102; 111; 111; 46; 116; 120; 116]
           (replicate 32 ArgVector.Null) 32 (replicate 64 0) 64 7).
  - reflexivity.
  - vm_compute. reflexivity.
Defined.

(** ** Loading and starting an application, continued *)
Section ExecMore.
Import Exec Loader.
Context {layout : Elf.Layout} {platform : Platform}.

Lemma segment_end_nonneg (img : list Z) (i : Z) : 0 <= segment_end img i.
Proof. unfold segment_end, to_u64. apply Z.mod_pos_bound. lia. Qed.

(** The loop of [CopyLoadSegments], header by header: the PT_LOAD headers
    it got through, and the one whose mapping failed, if any. *)
Lemma copy_segments_from_trace (img : list Z) (todo : nat) :
  forall (n : nat) (last : Z) (k : Kernel),
  0 <= last ->
  let r := fst (copy_segments_from img (Z.of_nat n) todo last k) in
  let k' := snd (copy_segments_from img (Z.of_nat n) todo last k) in
  exists mapped rest,
    List.filter (Elf.is_load img) (Z.of_nat <$> seq n todo) = mapped ++ rest /\
    trace k' = trace k ++ concat (segment_events img <$> mapped)
                 ++ (map_event img <$> take 1 rest) /\
    (rest = [] <-> error r = kSuccess) /\
    value r = Z.max last (foldr Z.max 0 (segment_end img <$> mapped ++ take 1 rest)) /\
    args_frame k' = args_frame k.
Proof.
  induction todo as [|todo IH]; intros n last k Hlast.
  { exists [], []. cbn. rewrite app_nil_r. splits; try done. lia. }
  cbn [copy_segments_from seq fmap list_fmap List.filter].
  unfold Elf.is_load at 1.
  replace (Z.of_nat n + 1) with (Z.of_nat (S n)) by lia.
  destruct (Elf.p_type img (Z.of_nat n) =? Elf.PT_LOAD); cbn [negb]; [|by apply IH].
  set (i := Z.of_nat n).
  unfold Bind, Return, emit, on_paging. cbn [paging task app_loads args_frame trace].
  destruct (SetupPageMaps _ _ _ _) as [err pg].
  destruct (is_err err) eqn:Herr.
  - exists [], (i :: List.filter (Elf.is_load img) (Z.of_nat <$> seq (S n) todo)).
    cbn [fst snd value error trace args_frame fmap list_fmap take app concat foldr].
    pose proof (segment_end_nonneg img i). unfold segment_end, map_event in *.
    splits; try done; [|rewrite take_0; cbn [fmap list_fmap foldr]; lia].
    split; [done|]. intros ->. done.
  - match goal with |- context [copy_segments_from img _ todo ?l ?k0] =>
      destruct (IH (S n) l k0 ltac:(lia)) as (mapped & rest & Hsplit & Htr & Hok & Hval & Hargs)
    end.
    exists (i :: mapped), rest. rewrite Hsplit, Htr, Hval, Hargs.
    cbn [trace args_frame fmap list_fmap concat foldr app segment_events copy_events
           map_event].
    splits; try done.
    + rewrite <- !app_assoc. done.
    + unfold segment_end at 2. lia.
Qed.


Lemma LoadELF_unfold (img : list Z) (k : Kernel) :
  LoadELF img k =
    if Elf.passes_checks img then CopyLoadSegments img k
    else (mkWithError 0 kInvalidFormat, k).
Proof.
  unfold LoadELF, Elf.passes_checks. rewrite (GetFirstLoadAddress_spec img).
  destruct (Elf.e_type img =? Elf.ET_EXEC); cbn [negb andb]; [|reflexivity].
  rewrite Z.leb_antisym.
  destruct (Elf.first_load_vaddr img <? 0xffff800000000000); reflexivity.
Qed.

Lemma find_filter_nil {A : Type} (f : A -> bool) (l : list A) :
  List.filter f l = [] -> List.find f l = None.
Proof.
  induction l as [|a l IH]; [done|]. cbn. destruct (f a); [done|exact IH].
Qed.

(** X6: an image without a PT_LOAD header, an empty header table included,
    is never loaded: [GetFirstLoadAddress] finds nothing and answers 0,
    which is below the canonical half, so [LoadELF] returns InvalidFormat
    with address 0 and leaves the machine as it was. *)
Theorem LoadELF_no_load_segment (img : list Z) (k : Kernel) :
  load_headers img = [] ->
  Elf.GetFirstLoadAddress img = 0 /\
  LoadELF img k = (mkWithError 0 kInvalidFormat, k).
Proof.
  intros Hnone. apply find_filter_nil in Hnone.
  assert (Hfirst : Elf.first_load_vaddr img = 0).
  { unfold Elf.first_load_vaddr. by rewrite Hnone. }
  split; [by rewrite GetFirstLoadAddress_spec|].
  rewrite LoadELF_unfold. unfold Elf.passes_checks. rewrite Hfirst.
  by rewrite andb_false_r.
Qed.

Lemma LoadELF_keeps (img : list Z) (k : Kernel) :
  app_loads (snd (LoadELF img k)) = app_loads k /\
  task (snd (LoadELF img k)) = task k.
Proof.
  rewrite LoadELF_unfold. destruct (Elf.passes_checks img); [|done].
  apply copy_segments_from_app_loads.
Qed.

Lemma SetupPML4_task (k : Kernel) :
  let t := task k in
  let t' := task (snd (SetupPML4 k)) in
  id_ t' = id_ t /\ msgs_ t' = msgs_ t /\ files_ t' = files_ t /\
  file_maps_ t' = file_maps_ t.
Proof.
  destruct (SetupPML4 k) as [r k1] eqn:Hs. cbn [snd].
  apply SetupPML4_inv in Hs as [(_ & _ & ->)|[_ ->]]; done.
Qed.

(** The cache after [LoadApp]: entries are only ever added, and only under
    the key of the file. *)
Lemma LoadApp_cache (file : DirectoryEntry) (k : Kernel) :
  let k' := snd (LoadApp file k) in
  app_loads k' = app_loads k \/
  (app_loads k !! entry_addr file = None /\
   exists info, app_loads k' = <[entry_addr file := info]> (app_loads k)).
Proof.
  destruct (app_loads k !! entry_addr file) as [cached|] eqn:Hlook.
  { left. by destruct (LoadApp_hit_facts file k cached Hlook) as (_ & Hal & _). }
  cbv zeta. rewrite (LoadApp_miss _ _ Hlook).
  pose proof (SetupPML4_app_loads k) as [Hal _].
  destruct (SetupPML4 k) as [r0 k1]. cbn [snd] in Hal.
  destruct (is_err (error r0)); [by left|]. cbv zeta.
  destruct (negb _); [by left|].
  pose proof (LoadELF_keeps (file_buf file)
                (snd (emit (EvLoadFile (entry_addr file) (file_size file)) k1)))
    as [Hal3 _].
  destruct (LoadELF _ _) as [loaded k3]. cbn [snd emit app_loads] in Hal3.
  destruct (is_err (error loaded)); [left; cbn [snd]; congruence|].
  right. split; [done|].
  unfold insert_app_load. cbn [snd]. rewrite Hal3, Hal, Hlook.
  match goal with |- context [SetupPML4 ?k4] =>
    pose proof (SetupPML4_app_loads k4) as [Hal5 _];
    destruct (SetupPML4 k4) as [r2 k5] end.
  cbn [snd app_loads] in Hal5.
  destruct (is_err (error r2)); cbn [snd app_loads]; rewrite Hal5; by eexists.
Qed.

(** What the part of [ExecuteFile] after [LoadApp] keeps. *)
Lemma ExecuteFile_setup_app_loads (file : DirectoryEntry) (command : list Z)
    (first_arg : option (list Z)) (k : Kernel) :
  app_loads (snd (ExecuteFile_setup file command first_arg k))
  = app_loads (snd (LoadApp file k)).
Proof.
  unfold ExecuteFile_setup, Bind.
  destruct (LoadApp file k) as [r k1]. cbn [snd].
  destruct (is_err (error r)); [done|].
  unfold emit, on_paging, Return. cbn [paging task app_loads args_frame trace].
  destruct (SetupPageMaps _ _ _ _) as [err pg].
  destruct (is_err err); [done|].
  destruct (ArgVector.MakeArgVector _ _ _ _ _ _) as [made|]; [|done].
  unfold set_args_frame. cbn [paging task app_loads args_frame trace].
  destruct (is_err (error (ArgVector.ret made))); [done|].
  destruct (SetupPageMaps _ _ _ _) as [err2 pg2].
  destruct (is_err err2); done.
Qed.

(** X7: up to the call of the application, [ExecuteFile] only ever adds to
    the load cache: every entry that was there is still there, unchanged,
    and the one key under which an entry may appear is the file's own,
    when it had none. *)
Theorem ExecuteFile_setup_keeps_cache (file : DirectoryEntry) (command : list Z)
    (first_arg : option (list Z)) (k : Kernel) (key : Z) :
  let k' := snd (ExecuteFile_setup file command first_arg k) in
  (forall info, app_loads k !! key = Some info -> app_loads k' !! key = Some info) /\
  (key <> entry_addr file -> app_loads k' !! key = app_loads k !! key) /\
  app_loads (snd (LoadApp file k)) = app_loads k'.
Proof.
  cbv zeta. rewrite ExecuteFile_setup_app_loads.
  destruct (LoadApp_cache file k) as [->|(Hmiss & info & ->)]; [done|].
  splits; [|intros Hne; by rewrite lookup_insert_ne|done].
  intros info0 Hin. rewrite lookup_insert_ne; [done|]. congruence.
Qed.

Lemma copy_segments_from_frames (img : list Z) (todo : nat) :
  keeps_frames platform ->
  forall (i last : Z) (k : Kernel),
  used_frames (paging k)
    ⊆ used_frames (paging (snd (copy_segments_from img i todo last k))).
Proof.
  intros Hkeep. induction todo as [|todo IH]; intros i last k; [done|].
  cbn [copy_segments_from]. destruct (negb _); [apply IH|].
  unfold Bind, Return, emit, on_paging. cbn [paging task app_loads args_frame trace].
  pose proof (Hkeep (Elf.p_vaddr img i) (to_u64 (Elf.p_memsz img i + 4095) / 4096)
                (Some false) (paging k)) as Hsub.
  destruct (SetupPageMaps _ _ _ _) as [err pg]. cbn [snd] in Hsub.
  destruct (is_err err); [done|].
  etrans; [exact Hsub|].
  match goal with |- context [copy_segments_from img ?i' todo ?l' ?k'] =>
    apply (IH i' l' k') end.
Qed.

(** A load that succeeds passed the two checks and went through every
    PT_LOAD header. *)
Lemma LoadELF_success (img : list Z) (k k' : Kernel) (r : WithError Z) :
  LoadELF img k = (r, k') -> error r = kSuccess ->
  Elf.passes_checks img = true /\
  trace k' = trace k ++ concat (segment_events img <$> load_headers img) /\
  args_frame k' = args_frame k /\
  (keeps_frames platform -> used_frames (paging k) ⊆ used_frames (paging k')).
Proof.
  rewrite LoadELF_unfold. destruct (Elf.passes_checks img); [|intros [= <- <-]; done].
  unfold CopyLoadSegments. intros Hrun Hok.
  destruct (copy_segments_from_trace img (Z.to_nat (Elf.e_phnum img)) 0 0 k (Z.le_refl 0))
    as (mapped & rest & Hsplit & Htr & Hrest & _ & Hargs).
  pose proof (fun Hk => copy_segments_from_frames img (Z.to_nat (Elf.e_phnum img)) Hk 0 0 k)
    as Hframes.
  change (Z.of_nat 0) with 0 in *. rewrite Hrun in Htr, Hrest, Hargs, Hframes.
  cbn [fst snd] in *. apply Hrest in Hok. subst rest.
  rewrite app_nil_r in Hsplit. cbn [take fmap list_fmap] in Htr.
  rewrite app_nil_r in Htr. unfold load_headers, Elf.phdr_indices.
  rewrite Hsplit. done.
Qed.

Lemma after_SetupPML4_frames (f : Z) (k : Kernel) :
  used_frames (paging (after_SetupPML4 f k)) = {[f]} ∪ used_frames (paging k) /\
  cr3 (paging (after_SetupPML4 f k)) = f /\
  context_cr3 (task (after_SetupPML4 f k)) = f /\
  trace (after_SetupPML4 f k) = trace k /\
  args_frame (after_SetupPML4 f k) = args_frame k.
Proof. done. Qed.

(** X8: the first load of an application, when every step succeeds.  The
    file is read once and its PT_LOAD segments are mapped and copied in
    header order; two root tables are taken, both from frames that were
    free.  The cache gets the end address and the entry point read from
    the file together with the first root; the caller gets the same two
    numbers with the second root, which is what CR3 and the task's saved
    [cr3] hold afterwards and whose slots 4..255 alias the first root's. *)
Theorem LoadApp_first_load (file : DirectoryEntry) (k k' : Kernel)
    (r : WithError AppLoadInfo) :
  keeps_frames platform ->
  app_loads k !! entry_addr file = None ->
  LoadApp file k = (r, k') -> error r = kSuccess ->
  let img := file_buf file in
  let root := pml4 (value r) in
  exists temp,
    Elf.has_magic img = true /\ Elf.passes_checks img = true /\
    vaddr_end (value r) = Elf.load_end_vaddr img /\
    entry (value r) = Elf.e_entry img /\
    app_loads k' =
      <[entry_addr file := mkAppLoadInfo (Elf.load_end_vaddr img) (Elf.e_entry img) temp]>
        (app_loads k) /\
    (temp ∉ used_frames (paging k)) /\ root <> temp /\
    temp ∈ used_frames (paging k') /\ root ∈ used_frames (paging k') /\
    cr3 (paging k') = root /\ context_cr3 (task k') = root /\
    trace k' = trace k ++ EvLoadFile (entry_addr file) (file_size file)
                 :: concat (segment_events img <$> load_headers img) /\
    (forall i, (4 <= i < 256)%nat ->
       entry_at (paging k') root i = entry_at (paging k') temp i).
Proof.
  intros Hkeep Hmiss Hrun Hok img root. unfold root. clear root.
  rewrite (LoadApp_miss _ _ Hmiss) in Hrun.
  destruct (SetupPML4 k) as [r0 k1] eqn:Hs0.
  apply SetupPML4_inv in Hs0 as [(He0 & Hfresh0 & ->)|[-> ->]];
    [|cbn in Hrun; injection Hrun as <- <-; discriminate].
  rewrite He0 in Hrun. cbn [is_err] in Hrun. cbv zeta in Hrun. fold img in Hrun.
  destruct (Elf.has_magic img) eqn:Hmagic; cbn [negb] in Hrun;
    [|injection Hrun as <- <-; discriminate].
  destruct (LoadELF img _) as [loaded k3] eqn:Hload.
  destruct (is_err (error loaded)) eqn:Hle.
  { injection Hrun as <- <-. cbn in Hok. rewrite Hok in Hle. discriminate. }
  assert (Hlok : error loaded = kSuccess) by (destruct (error loaded); done).
  destruct (LoadELF_value _ _ _ _ Hload Hlok) as (Hval & Hal3 & Htask3).
  destruct (LoadELF_success _ _ _ _ Hload Hlok) as (Hchk & Htr3 & _ & Hfr3).
  specialize (Hfr3 Hkeep).
  destruct (after_SetupPML4_frames (value r0) k) as (Hused1 & _ & _ & Htr1 & _).
  cbn [emit snd app_loads task trace paging] in Hal3, Htask3, Htr3, Hfr3.
  unfold insert_app_load in Hrun. cbn [snd] in Hrun.
  rewrite Hal3 in Hrun.
  change (app_loads (after_SetupPML4 (value r0) k)) with (app_loads k) in Hrun.
  rewrite Hmiss in Hrun.
  match type of Hrun with context [SetupPML4 ?k4'] => set (k4 := k4') in * end.
  destruct (SetupPML4 k4) as [r2 k5] eqn:Hs2.
  apply SetupPML4_inv in Hs2 as [(He2 & Hfresh2 & Hk5)|[-> ->]];
    [|cbn in Hrun; injection Hrun as <- <-; discriminate].
  rewrite He2 in Hrun. cbn [is_err] in Hrun. injection Hrun as <- <-.
  destruct (after_SetupPML4_frames (value r2) k4) as (Hused5 & Hcr5 & Hctx5 & Htr5 & _).
  assert (Hal5 : app_loads k5 = app_loads k4) by (by rewrite Hk5).
  rewrite <- Hk5 in Hused5, Hcr5, Hctx5, Htr5. clear Hk5.
  change (paging k4) with (paging k3) in *. change (trace k4) with (trace k3) in *.
  assert (Htemp3 : value r0 ∈ used_frames (paging k3)).
  { apply Hfr3. rewrite Hused1. apply elem_of_union_l, elem_of_singleton. done. }
  assert (Hne : value r2 <> value r0) by (intros Heq; rewrite Heq in Hfresh2; done).
  exists (value r0). cbn [value pml4 vaddr_end entry error fst snd].
  split; [done|]. split; [done|]. split; [exact Hval|]. split; [done|].
  split; [cbn [app_loads]; rewrite Hal5; unfold k4; cbn [app_loads]; by rewrite Hval|].
  split; [exact Hfresh0|]. split; [exact Hne|].
  unfold CopyPageMaps. cbn [snd paging task trace].
  change (used_frames (write_table ?a ?t ?pg)) with (used_frames pg).
  change (cr3 (write_table ?a ?t ?pg)) with (cr3 pg).
  rewrite Hused5, Hcr5, Hctx5, Htr5.
  split; [apply elem_of_union_r; exact Htemp3|].
  split; [apply elem_of_union_l, elem_of_singleton; done|].
  split; [done|]. split; [done|].
  split; [rewrite Htr3, Htr1; by rewrite <- app_assoc|].
  intros i Hi.
  rewrite (entry_at_write_ne _ _ _ _ _ Hne).
  unfold entry_at at 1. rewrite read_table_write_eq.
  rewrite build_table_lookup by lia.
  replace ((4 <=? Z.of_nat i) && (Z.of_nat i <? 256)) with true
    by (symmetry; apply andb_true_iff; split; [apply Z.leb_le|apply Z.ltb_lt]; lia).
  reflexivity.
Qed.

(** X9: the cache is keyed by where the directory entry lives, not by what
    the file holds.  Once an application has been loaded, a load through a
    directory entry at the same place reads no file and hands back the
    end address and the entry point of the first load, whatever bytes that
    entry has now, a text with no ELF magic included. *)
Theorem LoadApp_stale_cache (file file' : DirectoryEntry) (k k1 : Kernel)
    (r1 : WithError AppLoadInfo) :
  app_loads k !! entry_addr file = None ->
  LoadApp file k = (r1, k1) -> error r1 = kSuccess ->
  entry_addr file' = entry_addr file ->
  let r2 := fst (LoadApp file' k1) in
  let k2 := snd (LoadApp file' k1) in
  trace k2 = trace k1 /\ app_loads k2 = app_loads k1 /\
  (error r2 = kSuccess \/ error r2 = kOutOfMemory) /\
  (error r2 = kSuccess ->
     vaddr_end (value r2) = Elf.load_end_vaddr (file_buf file) /\
     entry (value r2) = Elf.e_entry (file_buf file)).
Proof.
  intros Hmiss Hrun Hok Hsame r2 k2.
  assert (Hcached : exists temp,
            app_loads k1 !! entry_addr file'
            = Some (mkAppLoadInfo (Elf.load_end_vaddr (file_buf file))
                      (Elf.e_entry (file_buf file)) temp)).
  { rewrite (LoadApp_miss _ _ Hmiss) in Hrun.
    pose proof (SetupPML4_app_loads k) as [Hal _].
    destruct (SetupPML4 k) as [r0 k0]. cbn [snd] in Hal.
    destruct (is_err (error r0)) eqn:He0.
    { injection Hrun as <- <-. cbn in Hok. rewrite Hok in He0. discriminate. }
    cbv zeta in Hrun.
    destruct (negb _); [injection Hrun as <- <-; discriminate|].
    destruct (LoadELF _ _) as [loaded k3] eqn:Hload.
    destruct (is_err (error loaded)) eqn:Hle.
    { injection Hrun as <- <-. cbn in Hok. rewrite Hok in Hle. discriminate. }
    assert (Hlok : error loaded = kSuccess) by (destruct (error loaded); done).
    apply LoadELF_value in Hload as (Hval & Hal3 & _); [|exact Hlok].
    cbn [emit snd app_loads] in Hal3.
    unfold insert_app_load in Hrun. cbn [snd] in Hrun.
    rewrite Hal3, Hal, Hmiss in Hrun.
    match type of Hrun with context [SetupPML4 ?k4] =>
      pose proof (SetupPML4_app_loads k4) as [Hal5 _];
      destruct (SetupPML4 k4) as [r2' k5] end.
    cbn [snd app_loads] in Hal5.
    exists (value r0). rewrite Hsame.
    destruct (is_err (error r2')); injection Hrun as <- <-; cbn [app_loads];
      rewrite Hal5, lookup_insert_eq, Hval; done. }
  destruct Hcached as [temp Hcached].
  pose proof (LoadApp_hit_facts file' k1 _ Hcached) as (Htr & Hal & _ & Hfacts).
  fold r2 k2 in Htr, Hal, Hfacts. splits; try done.
  - unfold r2. rewrite (LoadApp_hit _ _ _ Hcached).
    destruct (SetupPML4 k1) as [r0 k0] eqn:Hs.
    apply SetupPML4_inv in Hs as [(He & _ & ->)|[-> ->]].
    + rewrite He. by left.
    + by right.
  - intros Hok2. destruct (Hfacts Hok2) as (Hv & He & _). done.
Qed.

(** X10: how a first load fails.  When [LoadApp] fails on a file that is
    not cached, either nothing was cached and the [AppLoadInfo] returned is
    the empty one, or the failure is the allocation of the second root
    table: then the error is OutOfMemory, but the image has been checked,
    mapped and copied in full, its end address and entry point are
    returned together with the first root, and that very record has been
    put into the cache, where the next load of the file will find it. *)
Theorem LoadApp_failure_cases (file : DirectoryEntry) (k : Kernel) :
  app_loads k !! entry_addr file = None ->
  let r := fst (LoadApp file k) in
  let k' := snd (LoadApp file k) in
  let img := file_buf file in
  error r <> kSuccess ->
  (value r = no_AppLoadInfo /\ app_loads k' = app_loads k) \/
  (error r = kOutOfMemory /\
   Elf.has_magic img = true /\ Elf.passes_checks img = true /\
   vaddr_end (value r) = Elf.load_end_vaddr img /\
   entry (value r) = Elf.e_entry img /\
   pml4 (value r) = value (fst (SetupPML4 k)) /\
   context_cr3 (task k') = pml4 (value r) /\
   app_loads k' = <[entry_addr file := value r]> (app_loads k) /\
   trace k' = trace k ++ EvLoadFile (entry_addr file) (file_size file)
                :: concat (segment_events img <$> load_headers img)).
Proof.
  intros Hmiss r k' img Hfail. unfold r, k' in *. clear r k'.
  rewrite (LoadApp_miss _ _ Hmiss) in *.
  pose proof (SetupPML4_app_loads k) as [Hal0 Htr0].
  destruct (SetupPML4 k) as [r0 k1] eqn:Hs0. cbn [fst snd] in *.
  destruct (is_err (error r0)) eqn:He0; [by left|].
  cbv zeta in *. fold img in Hfail |- *.
  destruct (Elf.has_magic img) eqn:Hmagic; cbn [negb] in *; [|by left].
  destruct (LoadELF img _) as [loaded k3] eqn:Hload.
  destruct (is_err (error loaded)) eqn:Hle.
  { left. cbn [fst snd value]. split; [done|].
    pose proof (LoadELF_keeps img
                  (snd (emit (EvLoadFile (entry_addr file) (file_size file)) k1)))
      as [Hal3 _].
    rewrite Hload in Hal3. cbn [snd emit app_loads] in Hal3. congruence. }
  assert (Hlok : error loaded = kSuccess) by (destruct (error loaded); done).
  destruct (LoadELF_value _ _ _ _ Hload Hlok) as (Hval & Hal3 & Htask3).
  destruct (LoadELF_success _ _ _ _ Hload Hlok) as (Hchk & Htr3 & _ & _).
  cbn [emit snd app_loads task trace] in Hal3, Htask3, Htr3.
  unfold insert_app_load in *. cbn [snd] in *.
  rewrite Hal3, Hal0, Hmiss in *.
  match type of Hfail with context [SetupPML4 ?k4'] => set (k4 := k4') in * end.
  destruct (SetupPML4 k4) as [r2 k5] eqn:Hs2.
  apply SetupPML4_inv in Hs2 as [(He2 & _ & _)|[-> ->]].
  { rewrite He2 in Hfail. cbn in Hfail. done. }
  right. cbn [is_err error value fst snd vaddr_end entry pml4].
  unfold k4. cbn [task app_loads trace]. rewrite Htask3, Htr3, Htr0.
  assert (Hctx : context_cr3 (task k1) = value r0).
  { apply SetupPML4_inv in Hs0 as [(_ & _ & ->)|[-> ->]]; [done|discriminate]. }
  rewrite Hval. splits; try done. by rewrite <- app_assoc.
Qed.

Lemma LoadELF_frames (img : list Z) (k : Kernel) :
  keeps_frames platform ->
  used_frames (paging k) ⊆ used_frames (paging (snd (LoadELF img k))).
Proof.
  intros Hkeep. rewrite LoadELF_unfold. destruct (Elf.passes_checks img); [|done].
  by apply copy_segments_from_frames.
Qed.

Lemma after_SetupPML4_task (f : Z) (k : Kernel) :
  files_ (task (after_SetupPML4 f k)) = files_ (task k) /\
  file_maps_ (task (after_SetupPML4 f k)) = file_maps_ (task k) /\
  id_ (task (after_SetupPML4 f k)) = id_ (task k) /\
  app_loads (after_SetupPML4 f k) = app_loads k.
Proof. done. Qed.

(** Where [LoadApp] leaves the task once its first root is set up: on the
    root it returns when it succeeds, on the first root when it fails. *)
Lemma LoadApp_root (file : DirectoryEntry) (k : Kernel) (temp : Z) :
  fst (SetupPML4 k) = mkWithError temp kSuccess ->
  let r := fst (LoadApp file k) in
  let k' := snd (LoadApp file k) in
  (temp ∉ used_frames (paging k)) /\
  context_cr3 (task k') = (if is_err (error r) then temp else pml4 (value r)) /\
  files_ (task k') = files_ (task k) /\
  id_ (task k') = id_ (task k) /\
  (keeps_frames platform -> context_cr3 (task k') ∈ used_frames (paging k')).
Proof.
  intros Hroot.
  destruct (SetupPML4 k) as [r0 k1] eqn:Hs0. cbn [fst] in Hroot. subst r0.
  apply SetupPML4_inv in Hs0 as Hinv.
  destruct Hinv as [(_ & Hfresh & Hk1)|[[=] _]]. cbn [value] in Hfresh, Hk1.
  destruct (after_SetupPML4_frames temp k) as (Hused1 & _ & Hctx1 & _ & _).
  destruct (after_SetupPML4_task temp k) as (Hfiles1 & _ & Hid1 & Hal1).
  rewrite <- Hk1 in Hused1, Hctx1, Hfiles1, Hid1, Hal1. clear Hk1.
  assert (Htemp1 : temp ∈ used_frames (paging k1)).
  { rewrite Hused1. apply elem_of_union_l, elem_of_singleton. done. }
  destruct (app_loads k !! entry_addr file) as [cached|] eqn:Hlook.
  { cbv zeta. rewrite (LoadApp_hit _ _ _ Hlook), Hs0.
    cbn [is_err error value fst snd pml4 task paging]. unfold CopyPageMaps. cbn [snd].
    change (used_frames (write_table ?a ?t ?pg)) with (used_frames pg).
    rewrite Hctx1. done. }
  cbv zeta. rewrite (LoadApp_miss _ _ Hlook), Hs0. cbn [is_err error value]. cbv zeta.
  destruct (negb _).
  { cbn [fst snd is_err error emit task paging]. rewrite Hctx1. done. }
  pose proof (LoadELF_keeps (file_buf file)
                (snd (emit (EvLoadFile (entry_addr file) (file_size file)) k1)))
    as [_ Htask3].
  pose proof (fun Hk => LoadELF_frames (file_buf file)
                (snd (emit (EvLoadFile (entry_addr file) (file_size file)) k1)) Hk)
    as Hfr3.
  destruct (LoadELF _ _) as [loaded k3]. cbn [snd emit task paging] in Htask3, Hfr3.
  destruct (is_err (error loaded)) eqn:Hle.
  { cbn [fst snd error]. rewrite Hle, Htask3, Hctx1. splits; try done.
    intros Hk. by apply Hfr3. }
  unfold insert_app_load. cbn [snd].
  match goal with |- context [SetupPML4 ?k4'] => set (k4 := k4') end.
  destruct (SetupPML4 k4) as [r2 k5] eqn:Hs2.
  apply SetupPML4_inv in Hs2 as [(He2 & _ & Hk5)|[-> ->]].
  - destruct (after_SetupPML4_frames (value r2) k4) as (Hused5 & _ & Hctx5 & _ & _).
    destruct (after_SetupPML4_task (value r2) k4) as (Hfiles5 & _ & Hid5 & _).
    rewrite <- Hk5 in Hused5, Hctx5, Hfiles5, Hid5. clear Hk5.
    rewrite He2. cbn [is_err fst snd error value pml4 task paging].
    unfold CopyPageMaps. cbn [snd].
    change (used_frames (write_table ?a ?t ?pg)) with (used_frames pg).
    rewrite Hctx5, Hfiles5, Hid5, Hused5. unfold k4. cbn [task]. rewrite Htask3.
    splits; try done. intros _. apply elem_of_union_l, elem_of_singleton. done.
  - cbn [is_err fst snd error]. unfold k4. cbn [task paging]. rewrite Htask3, Hctx1.
    splits; try done. intros Hk. by apply Hfr3.
Qed.


(** X12: what [ExecuteFile] does once the application has returned.  The
    exit status is printed and plays no part in the result.  The task's
    files and file mappings are dropped in every case.  If cleaning the
    application's half of the address space fails, that error is returned
    and the task stays on its root table; otherwise the result is Success,
    the task's saved [cr3] is 0, CR3 is back on the kernel's table and the
    frame of the root the task was on is released. *)
Theorem ExecuteFile_teardown (file : DirectoryEntry) (command : list Z)
    (first_arg : option (list Z)) (k k1 k2 : Kernel) (start : AppStart) (ret : Z) :
  ExecuteFile_setup file command first_arg k = (inr start, k1) ->
  CallApp (start_argc start) (start_entry start) (start_rsp start)
    (snd (emit (EvCallApp (start_argc start) (start_entry start) (start_rsp start)) k1))
    = (ret, k2) ->
  let cleaned := CleanPageMaps 0xffff800000000000 (paging k2) in
  let err := fst (ExecuteFile file command first_arg k) in
  let k' := snd (ExecuteFile file command first_arg k) in
  files_ (task k') = [] /\ file_maps_ (task k') = [] /\
  trace k' = trace k2 ++ [EvPrintExit ret] /\
  app_loads k' = app_loads k2 /\
  (is_err (fst cleaned) = true ->
     err = fst cleaned /\ context_cr3 (task k') = context_cr3 (task k2) /\
     paging k' = snd cleaned) /\
  (is_err (fst cleaned) = false ->
     err = kSuccess /\ context_cr3 (task k') = 0 /\
     cr3 (paging k') = kernel_pml4 (snd cleaned) /\
     used_frames (paging k') = used_frames (snd cleaned) ∖ {[context_cr3 (task k2)]}).
Proof.
  intros Hsetup Hcall cleaned err k'. unfold err, k', ExecuteFile, Bind.
  rewrite Hsetup. destruct (emit _ k1) as [[] k1'] eqn:Hemit. cbn [snd] in Hcall.
  rewrite Hcall.
  unfold emit, clear_files_and_maps, on_task, on_paging, Return.
  cbn [paging task app_loads args_frame trace]. fold cleaned.
  destruct cleaned as [cerr pg]. cbn [fst snd].
  destruct (is_err cerr) eqn:Hc; cbn [fst snd task paging trace app_loads files_
    file_maps_ context_cr3]; splits; try done.
Qed.

Lemma LoadApp_task (file : DirectoryEntry) (k : Kernel) :
  files_ (task (snd (LoadApp file k))) = files_ (task k) /\
  id_ (task (snd (LoadApp file k))) = id_ (task k) /\
  (error (fst (LoadApp file k)) = kSuccess ->
   context_cr3 (task (snd (LoadApp file k))) = pml4 (value (fst (LoadApp file k)))).
Proof.
  destruct (SetupPML4 k) as [r0 k1] eqn:Hs0.
  destruct (SetupPML4_inv _ _ _ Hs0) as [(He0 & _ & _)|[-> ->]].
  - destruct r0 as [temp e0]. cbn in He0. subst e0.
    destruct (LoadApp_root file k temp) as (_ & Hctx & Hfiles & Hid & _);
      [by rewrite Hs0|].
    splits; try done. intros Hok. rewrite Hctx, Hok. done.
  - unfold LoadApp, Bind. rewrite Hs0. cbn. done.
Qed.

(** X13: how the application is entered.  When [ExecuteFile] reaches
    [CallApp], the argument count is between 1 and 32 and is the count
    [MakeArgVector] returned with Success for the argument page; the stack
    pointer is 8 below the top of the eight stack pages, which end where
    the argument page begins; three terminal descriptors of the current
    task have been appended to its files; the file-mapping area ends at
    the bottom of the stack; the task runs on the root [LoadApp] returned;
    and after the load the only mappings asked for are the argument page
    and the stack. *)
Theorem ExecuteFile_setup_start (file : DirectoryEntry) (command : list Z)
    (first_arg : option (list Z)) (k k' : Kernel) (start : AppStart) :
  ExecuteFile_setup file command first_arg k = (inr start, k') ->
  1 <= start_argc start <= 32 /\
  start_rsp start = 0xffffffffffffeff8 /\
  files_ (task k')
    = files_ (task k) ++ replicate 3 (TerminalFileDescriptor (id_ (task k))) /\
  file_map_end_ (task k') = 0xffffffffffff7000 /\
  context_cr3 (task k') = pml4 (value (fst (LoadApp file k))) /\
  trace k' = trace (snd (LoadApp file k))
               ++ [EvSetupPageMaps 0xfffffffffffff000 1 None;
                   EvSetupPageMaps 0xffffffffffff7000 8 None] /\
  exists made,
    args_frame k' = Some made /\
    ArgVector.MakeArgVector command first_arg
      (replicate (Z.to_nat args_argv_len) ArgVector.Null) args_argv_len
      (replicate (Z.to_nat args_argbuf_len) 0) args_argbuf_len = Some made /\
    ArgVector.ret made = mkWithError (start_argc start) kSuccess.
Proof.
  destruct (LoadApp_task file k) as (Hfiles & Hid & Hctx).
  unfold ExecuteFile_setup, Bind.
  destruct (LoadApp file k) as [r k0]. cbn [fst snd] in *.
  destruct (is_err (error r)) eqn:He; [discriminate|].
  assert (Hok : error r = kSuccess) by (by destruct (error r)).
  specialize (Hctx Hok).
  unfold emit, on_paging, Return. cbn [paging task app_loads args_frame trace].
  destruct (SetupPageMaps _ _ _ _) as [err1 pg1].
  destruct (is_err err1); [discriminate|].
  destruct (ArgVector.MakeArgVector _ _ _ _ _ _) as [made|] eqn:Hmade; [|discriminate].
  unfold set_args_frame. cbn [paging task app_loads args_frame trace].
  destruct (is_err (error (ArgVector.ret made))) eqn:He2; [discriminate|].
  destruct (SetupPageMaps _ _ _ _) as [err2 pg2].
  destruct (is_err err2); [discriminate|].
  cbn. intros [= <- <-].
  cbn [start_argc start_rsp task trace args_frame files_ file_map_end_ context_cr3].
  assert (Hsucc : error (ArgVector.ret made) = kSuccess)
    by (by destruct (error (ArgVector.ret made))).
  destruct (MakeArgVector_frame _ _ _ _ _ _ _ Hmade) as (_ & _ & Hrange & Hpos & _).
  specialize (Hpos Hsucc). unfold args_argv_len in Hrange.
  split; [lia|]. split; [reflexivity|].
  split; [rewrite Hfiles, Hid, <- !app_assoc; reflexivity|].
  split; [reflexivity|]. split; [exact Hctx|].
  split; [rewrite <- app_assoc; reflexivity|].
  exists made. split; [reflexivity|]. split; [reflexivity|].
  clear Hmade. destruct (ArgVector.ret made) as [v e]. cbn in Hsucc |- *. by subst e.
Qed.

(** X14: a command line with a 33rd word is refused before anything is
    started.  With the command, 31 arguments that fit the argument page and
    at least one more token, an [ExecuteFile] whose load and argument-page
    mapping succeed returns Full: no stack is mapped, the task gets no
    files and stays on the root [LoadApp] put it on, and the application
    is not entered. *)
Theorem ExecuteFile_too_many_arguments (file : DirectoryEntry) (command : list Z)
    (segs : list ArgVector.Segment) (ld w rest : list Z) (k : Kernel) :
  let strings := cstring command :: (ArgVector.word <$> segs) in
  let buf := concat (ArgVector.segment_bytes <$> segs) ++ ld ++ w ++ rest in
  let k0 := snd (LoadApp file k) in
  Forall ArgVector.segment_ok segs -> ArgVector.blank ld ->
  ArgVector.is_word w -> ArgVector.ends_word rest ->
  length strings = 32%nat ->
  (ArgVector.packed_size strings <= 3840)%nat ->
  error (fst (LoadApp file k)) = kSuccess ->
  fst (SetupPageMaps 0xfffffffffffff000 1 None (paging k0)) = kSuccess ->
  let k' := snd (ExecuteFile file command (Some buf) k) in
  fst (ExecuteFile file command (Some buf) k) = kFull /\
  task k' = task k0 /\
  trace k' = trace k0 ++ [EvSetupPageMaps 0xfffffffffffff000 1 None] /\
  (exists made, args_frame k' = Some made /\
                ArgVector.ret made = mkWithError 32 kFull).
Proof.
  intros strings buf k0 Hsegs Hld Hw Hrest Hcount Hfit Hload Hmap.
  destruct (MakeArgVector_overflows command segs ld w rest
              (replicate (Z.to_nat args_argv_len) ArgVector.Null) args_argv_len
              (replicate (Z.to_nat args_argbuf_len) 0) args_argbuf_len
              Hsegs Hld Hw Hrest)
    as (made & Hmade & Hret).
  { fold strings. rewrite Hcount. done. }
  { fold strings. unfold args_argbuf_len, args_argv_len. lia. }
  { fold strings. lia. }
  fold buf in Hmade.
  cbv zeta. unfold ExecuteFile, ExecuteFile_setup, Bind. subst k0.
  destruct (LoadApp file k) as [r k0]. cbn [fst snd] in *.
  rewrite Hload. cbn [is_err].
  unfold emit, on_paging, Return. cbn [paging task app_loads args_frame trace].
  destruct (SetupPageMaps _ _ _ _) as [err1 pg1]. cbn [fst] in Hmap. subst err1.
  cbn [is_err]. rewrite Hmade.
  unfold set_args_frame. cbn [paging task app_loads args_frame trace].
  rewrite Hret. cbn [error is_err fst snd task trace args_frame].
  splits; try done. by exists made.
Qed.

End ExecMore.


(** The example platform only takes frames. *)
Lemma take_frames_keeps (n : nat) (pg : Exec.Paging) :
  Exec.used_frames pg ⊆ Exec.used_frames (snd (Exec.take_frames n pg)).
Proof.
  revert pg. induction n as [|n IH]; intros pg; [done|].
  cbn [Exec.take_frames]. destruct (Exec.Allocate1 pg) as [fr pg1] eqn:Ha.
  apply Allocate1_inv in Ha as [(He & _ & ->)|[-> ->]].
  - rewrite He. cbn [is_err]. etrans; [|apply IH]. cbn. apply union_subseteq_r.
  - done.
Qed.

Lemma test_platform_keeps_frames : Loader.keeps_frames Exec.test_platform.
Proof. intros addr num writable pg. apply take_frames_keeps. Qed.

(** [LoadELF_no_load_segment] on an executable whose only program header
    is not of type PT_LOAD. *)
Lemma LoadELF_no_load_segment_witness :
  Exec.LoadELF (layout := Elf.elf64) (platform := Exec.test_platform)
    Loader.bare_image Exec.boot_kernel
  = (mkWithError 0 kInvalidFormat, Exec.boot_kernel).
Proof.
  apply (LoadELF_no_load_segment (layout := Elf.elf64) (platform := Exec.test_platform)
           Loader.bare_image Exec.boot_kernel).
  vm_compute. reflexivity.
Defined.

(** [LoadApp_first_load] on the booted machine and the example
    application: the cache entry and the returned root differ. *)
Lemma LoadApp_first_load_witness :
  exists temp,
    Exec.app_loads
      (snd (Exec.LoadApp (layout := Elf.elf64) (platform := Exec.test_platform)
              Exec.app_file Exec.boot_kernel)) !! 24608
    = Some (Exec.mkAppLoadInfo 0xffff800000001234 0xffff800000000120 temp) /\
    Exec.pml4 (value (fst (Exec.LoadApp (layout := Elf.elf64)
                             (platform := Exec.test_platform)
                             Exec.app_file Exec.boot_kernel))) <> temp.
Proof.
  destruct (Exec.LoadApp (layout := Elf.elf64) (platform := Exec.test_platform)
              Exec.app_file Exec.boot_kernel) as [r k'] eqn:Hrun.
  assert (Hok : error r = kSuccess).
  { vm_compute in Hrun. injection Hrun as <- _. reflexivity. }
  destruct (LoadApp_first_load (layout := Elf.elf64) (platform := Exec.test_platform)
              Exec.app_file Exec.boot_kernel k' r test_platform_keeps_frames
              eq_refl Hrun Hok)
    as (temp & _ & _ & _ & _ & Hcache & _ & Hne & _).
  exists temp. cbn [fst snd]. split; [|exact Hne].
  rewrite Hcache. change (Exec.entry_addr Exec.app_file) with 24608.
  rewrite lookup_insert_eq. f_equal.
Defined.

(** [LoadApp_stale_cache]: the example application is loaded, its
    directory entry then holds a five-byte text, and the next load through
    that entry still answers with the end address of the application. *)
Lemma LoadApp_stale_cache_witness :
  Exec.vaddr_end
    (value (fst (Exec.LoadApp (layout := Elf.elf64) (platform := Exec.test_platform)
                   Loader.overwritten_file
                   (snd (Exec.LoadApp (layout := Elf.elf64)
                           (platform := Exec.test_platform)
                           Exec.app_file Exec.boot_kernel)))))
  = 0xffff800000001234.
Proof.
  destruct (Exec.LoadApp (layout := Elf.elf64) (platform := Exec.test_platform)
              Exec.app_file Exec.boot_kernel) as [r1 k1] eqn:Hrun.
  assert (Hok : error r1 = kSuccess).
  { vm_compute in Hrun. injection Hrun as <- _. reflexivity. }
  destruct (LoadApp_stale_cache (layout := Elf.elf64) (platform := Exec.test_platform)
              Exec.app_file Loader.overwritten_file Exec.boot_kernel k1 r1
              eq_refl Hrun Hok eq_refl)
    as (_ & _ & _ & Hsame).
  cbn [snd]. destruct Hsame as [-> _]; [|vm_compute; reflexivity].
  vm_compute in Hrun. injection Hrun as _ <-. vm_compute. reflexivity.
Defined.

(** [ExecuteFile_teardown] on the example application, which returns at
    once: the call succeeds and the task is back on no root of its own. *)
Lemma ExecuteFile_teardown_witness :
  fst (Exec.ExecuteFile (layout := Elf.elf64) (platform := Exec.test_platform)
         Exec.app_file [97] None Exec.boot_kernel) = kSuccess /\
  context_cr3
    (Exec.task (snd (Exec.ExecuteFile (layout := Elf.elf64)
                       (platform := Exec.test_platform)
                       Exec.app_file [97] None Exec.boot_kernel))) = 0.
Proof.
  destruct (Exec.ExecuteFile_setup (layout := Elf.elf64) (platform := Exec.test_platform)
              Exec.app_file [97] None Exec.boot_kernel) as [[err|start] k1] eqn:Hrun;
    [vm_compute in Hrun; discriminate Hrun|].
  destruct (ExecuteFile_teardown (layout := Elf.elf64) (platform := Exec.test_platform)
              Exec.app_file [97] None Exec.boot_kernel k1 _ start 7 Hrun eq_refl)
    as (_ & _ & _ & _ & _ & Hclean).
  destruct (Hclean eq_refl) as (Herr & Hctx & _). split; [exact Herr|exact Hctx].
Defined.


(** [ExecuteFile_too_many_arguments] on the example application called as
    a with the letter b 32 times. *)
Lemma ExecuteFile_too_many_arguments_witness :
  fst (Exec.ExecuteFile (layout := Elf.elf64) (platform := Exec.test_platform)
         Exec.app_file [97]
         (Some (concat (ArgVector.segment_bytes
                          <$> replicate 31 (ArgVector.mkSegment [] [98] 32))
                  ++ [] ++ [98] ++ []))
         Exec.boot_kernel) = kFull.
Proof.
  apply (ExecuteFile_too_many_arguments (layout := Elf.elf64)
           (platform := Exec.test_platform)
           Exec.app_file [97] (replicate 31 (ArgVector.mkSegment [] [98] 32))
           [] [98] [] Exec.boot_kernel).
  - apply Forall_replicate. split; [constructor|]. split; [|reflexivity].
    split; [discriminate|]. repeat constructor.
  - constructor.
  - split; [discriminate|]. repeat constructor.
  - exact I.
  - vm_compute. reflexivity.
  - apply Nat.leb_le. vm_compute. reflexivity.
  - vm_compute. reflexivity.
  - vm_compute. reflexivity.
Defined.

(** [ExecuteFile_setup_start] on the example application called without
    arguments: one argument, the command, and the stack pointer just below
    the argument page. *)
Lemma ExecuteFile_setup_start_witness :
  exists start k',
    Exec.ExecuteFile_setup (layout := Elf.elf64) (platform := Exec.test_platform)
      Exec.app_file [97] None Exec.boot_kernel = (inr start, k') /\
    1 <= Exec.start_argc start <= 32 /\
    Exec.start_rsp start = 0xffffffffffffeff8 /\
    length (files_ (Exec.task k')) = 3%nat.
Proof.
  destruct (Exec.ExecuteFile_setup (layout := Elf.elf64) (platform := Exec.test_platform)
              Exec.app_file [97] None Exec.boot_kernel) as [[err|start] k'] eqn:Hrun;
    [vm_compute in Hrun; discriminate Hrun|].
  destruct (ExecuteFile_setup_start (layout := Elf.elf64) (platform := Exec.test_platform)
              Exec.app_file [97] None Exec.boot_kernel k' start Hrun)
    as (Hargc & Hrsp & Hfiles & _).
  exists start, k'. split; [reflexivity|]. split; [exact Hargc|]. split; [exact Hrsp|].
  rewrite Hfiles. reflexivity.
Defined.

(** [LoadApp_failure_cases] on a machine with three free frames: the
    example application is loaded and cached, and the call fails for want
    of a fourth frame. *)
Lemma LoadApp_failure_cases_witness :
  error (fst (Exec.LoadApp (layout := Elf.elf64) (platform := Exec.test_platform)
                Exec.app_file Loader.tight_kernel)) = kOutOfMemory /\
  Exec.app_loads
    (snd (Exec.LoadApp (layout := Elf.elf64) (platform := Exec.test_platform)
            Exec.app_file Loader.tight_kernel)) !! 24608
  = Some (Exec.mkAppLoadInfo 0xffff800000001234 0xffff800000000120 1048576).
Proof.
  destruct (LoadApp_failure_cases (layout := Elf.elf64) (platform := Exec.test_platform)
              Exec.app_file Loader.tight_kernel eq_refl)
    as [[Hnone _]|(Herr & _ & _ & Hend & Hentry & Hroot & _ & Hcache & _)].
  - vm_compute. discriminate.
  - vm_compute in Hnone. discriminate Hnone.
  - split; [exact Herr|]. rewrite Hcache.
    change (Exec.entry_addr Exec.app_file) with 24608. rewrite lookup_insert_eq.
    f_equal.
Defined.


(** ** The terminal *)
Section TerminalProperties.
Import Terminal.
Context {config : Config}.

Lemma to_int_id (z : Z) : - 2 ^ 31 <= z < 2 ^ 31 -> to_int z = z.
Proof. intros Hz. unfold to_int. rewrite Z.mod_small; lia. Qed.

Lemma to_u64_id (z : Z) : 0 <= z < 2 ^ 64 -> to_u64 z = z.
Proof. intros Hz. unfold to_u64. apply Z.mod_small. lia. Qed.

(** [newline] moves to column 0 of the next row and stays on the last. *)
Lemma newline_cursor (t : Terminal) :
  config_ok -> 0 <= y (cursor_ t) <= kRows - 1 ->
  cursor_ (newline t)
    = mkVector2D 0 (if y (cursor_ t) <? kRows - 1 then y (cursor_ t) + 1
                    else y (cursor_ t)) /\
  show_window_ (newline t) = show_window_ t /\
  linebuf_ (newline t) = linebuf_ t /\
  linebuf_index_ (newline t) = linebuf_index_ t /\
  cmd_history_ (newline t) = cmd_history_ t /\
  cmd_history_index_ (newline t) = cmd_history_index_ t.
Proof.
  intros (Hrows & _ & _) Hy. unfold newline.
  cbn [cursor_ set_cursor y x]. rewrite (to_int_id (kRows - 1)) by lia.
  destruct (y (cursor_ t) <? kRows - 1) eqn:Hlast.
  - apply Z.ltb_lt in Hlast. rewrite to_int_id by lia. done.
  - done.
Qed.

(** X15: [Print] of one code point keeps the cursor on the screen and
    never draws a glyph that sticks out of the text area.  Without a
    window it does nothing.  With one, a code point other than the newline
    is drawn at the cursor, after a line break if it would not fit: the
    column it is drawn at is at least 0 and leaves room for the one or
    two columns the glyph takes, and the cursor ends right after it.  The
    line buffer and the history are not touched. *)
Theorem Print32_keeps_cursor (c : Z) (t : Terminal) :
  config_ok -> cursor_ok t ->
  let t' := Print32 c t in
  cursor_ok t' /\
  (show_window_ t = false -> t' = t) /\
  linebuf_ t' = linebuf_ t /\ linebuf_index_ t' = linebuf_index_ t /\
  cmd_history_ t' = cmd_history_ t /\
  (show_window_ t = true -> c <> 10 ->
   exists t1,
     (t1 = t \/ t1 = newline t) /\
     0 <= x (cursor_ t1) /\ x (cursor_ t1) + columns_of c <= kColumns /\
     drawn t' = drawn t1 ++ [WriteUnicode (CalcCursorPos t1) c] /\
     cursor_ t' = mkVector2D (x (cursor_ t1) + columns_of c) (y (cursor_ t1))).
Proof.
  intros Hconfig [Hx Hy] t'.
  pose proof Hconfig as (Hrows & Hcols & _).
  destruct (newline_cursor t Hconfig Hy) as (Hnl & Hshow & Hbuf & Hidx & Hhist & _).
  assert (Hnly : 0 <= y (cursor_ (newline t)) <= kRows - 1).
  { rewrite Hnl. cbn [y]. destruct (y (cursor_ t) <? kRows - 1) eqn:Hlast; [|lia].
    apply Z.ltb_lt in Hlast. lia. }
  unfold t', Print32, cursor_ok, columns_of.
  destruct (show_window_ t) eqn:Hwin; cbn [negb]; [|splits; try done; lia].
  destruct (c =? 10) eqn:Hnewline.
  { apply Z.eqb_eq in Hnewline. rewrite Hnl in *. cbn [x y] in *.
    splits; try done; try lia. }
  destruct (IsHankaku c).
  - destruct (x (cursor_ t) =? kColumns) eqn:Hfull.
    + cbn [cursor_ set_cursor draw x y linebuf_ linebuf_index_ cmd_history_ drawn].
      rewrite Hnl in *. cbn [x y] in *. rewrite to_int_id by lia.
      splits; try done; try lia.
      intros _ _. exists (newline t). rewrite Hnl. cbn [x y].
      splits; try done; try lia. by right.
    + apply Z.eqb_neq in Hfull.
      cbn [cursor_ set_cursor draw x y linebuf_ linebuf_index_ cmd_history_ drawn].
      rewrite to_int_id by lia. splits; try done; try lia.
      intros _ _. exists t. splits; try done; try lia. by left.
  - rewrite (to_int_id (kColumns - 1)) by lia.
    destruct (kColumns - 1 <=? x (cursor_ t)) eqn:Hfull.
    + cbn [cursor_ set_cursor draw x y linebuf_ linebuf_index_ cmd_history_ drawn].
      rewrite Hnl in *. cbn [x y] in *. rewrite to_int_id by lia.
      splits; try done; try lia.
      intros _ _. exists (newline t). rewrite Hnl. cbn [x y].
      splits; try done; try lia. by right.
    + apply Z.leb_gt in Hfull.
      cbn [cursor_ set_cursor draw x y linebuf_ linebuf_index_ cmd_history_ drawn].
      rewrite to_int_id by lia. splits; try done; try lia.
      intros _ _. exists t. splits; try done; try lia. by left.
Qed.

Lemma newline_fields (t : Terminal) :
  linebuf_ (newline t) = linebuf_ t /\
  linebuf_index_ (newline t) = linebuf_index_ t /\
  cmd_history_ (newline t) = cmd_history_ t /\
  cmd_history_index_ (newline t) = cmd_history_index_ t /\
  show_window_ (newline t) = show_window_ t.
Proof.
  unfold newline. cbn [cursor_ set_cursor y].
  destruct (y (cursor_ t) <? to_int (kRows - 1)); done.
Qed.

Lemma DrawCursor_fields (visible : bool) (t : Terminal) :
  show_window_ (DrawCursor visible t) = show_window_ t /\
  cursor_ (DrawCursor visible t) = cursor_ t /\
  linebuf_index_ (DrawCursor visible t) = linebuf_index_ t /\
  linebuf_ (DrawCursor visible t) = linebuf_ t /\
  cmd_history_ (DrawCursor visible t) = cmd_history_ t /\
  cmd_history_index_ (DrawCursor visible t) = cmd_history_index_ t.
Proof. unfold DrawCursor. destruct (show_window_ t) eqn:Hwin; done. Qed.

(** A run of bytes stored inside an array replaces what was there. *)
Lemma store_bytes_inside (bs buf : list Z) (i : nat) :
  (i + length bs <= length buf)%nat ->
  store_bytes i bs buf = take i buf ++ bs ++ drop (i + length bs) buf.
Proof.
  revert i buf. induction bs as [|b bs IH]; intros i buf Hfit.
  - cbn. by rewrite Nat.add_0_r, take_drop.
  - cbn [store_bytes length] in *. rewrite IH by (rewrite length_insert; lia).
    rewrite drop_insert_lt by lia.
    rewrite (insert_take_drop buf i b) by lia.
    rewrite (cons_middle b).
    rewrite (app_assoc (take i buf) [b]).
    rewrite (take_app_length' (take i buf ++ [b]))
      by (rewrite length_app, length_take; cbn; lia).
    rewrite <- !app_assoc. cbn.
    by replace (S (i + length bs))%nat with (i + S (length bs))%nat by lia.
Qed.

Lemma cstring_app_zero (s rest : list Z) :
  Forall (fun c => c <> 0) s -> cstring (s ++ 0 :: rest) = s.
Proof.
  induction 1 as [|c s Hc _ IH]; [done|]. cbn.
  destruct (c =? 0) eqn:Hz; [apply Z.eqb_eq in Hz; done|]. by rewrite IH.
Qed.

(** What the arrow keys do to the line, for a well-formed editor. *)
Lemma HistoryUpDown_spec (direction : Z) (t : Terminal) :
  config_ok -> editor_ok t ->
  let t' := snd (HistoryUpDown direction t) in
  let index := cmd_history_index_ t in
  exists (index' : Z) (line : list Z),
  index' =
    (if (direction =? -1) && (0 <=? index) then index - 1
     else if (direction =? 1) && (index + 1 <? Z.of_nat (length (cmd_history_ t)))
     then index + 1 else index) /\
  line =
    (if 0 <=? index' then cstring (default [] (cmd_history_ t !! Z.to_nat index'))
     else []) /\
  cmd_history_index_ t' = index' /\
  -1 <= index' < Z.of_nat (length (cmd_history_ t)) /\
  cmd_history_ t' = cmd_history_ t /\
  show_window_ t' = show_window_ t /\
  Z.of_nat (length line) < kLineMax /\
  linebuf_ t' = line ++ 0 :: drop (S (length line)) (linebuf_ t) /\
  linebuf_index_ t' = Z.of_nat (length line) /\
  cursor_ t' = mkVector2D (Z.of_nat (length line) + 1) (y (cursor_ t)).
Proof.
  intros Hconfig Hok t' index.
  set (index' :=
    if (direction =? -1) && (0 <=? index) then index - 1
    else if (direction =? 1) && (index + 1 <? Z.of_nat (length (cmd_history_ t)))
    then index + 1 else index).
  set (line :=
    if 0 <=? index' then cstring (default [] (cmd_history_ t !! Z.to_nat index'))
    else []).
  exists index', line. split; [reflexivity|]. split; [reflexivity|].
  revert Hconfig Hok.
  intros (_ & _ & Hmax) (Hidx & Hlen & Hne & Hlines & Hpos & Hsize).
  fold index in Hpos.
  assert (Hindex : cmd_history_index_ t' = index').
  { unfold t', HistoryUpDown, index'. fold index.
    cbn [snd cmd_history_index_ set_cursor draw set_linebuf set_linebuf_index
           set_cmd_history_index].
    destruct ((direction =? -1) && (0 <=? index)) eqn:Hdown.
    - apply andb_true_iff in Hdown as [_ Hge]. apply Z.leb_le in Hge.
      apply to_int_id. lia.
    - rewrite (to_int_id (index + 1)) by lia.
      rewrite (to_u64_id (index + 1)) by lia. done. }
  assert (Hrange : -1 <= index' < Z.of_nat (length (cmd_history_ t))).
  { unfold index'. destruct ((direction =? -1) && (0 <=? index)) eqn:Hdown.
    - apply andb_true_iff in Hdown as [_ Hge]. apply Z.leb_le in Hge. lia.
    - destruct ((direction =? 1) && _) eqn:Hup; [|lia].
      apply andb_true_iff in Hup as [_ Hlt]. apply Z.ltb_lt in Hlt. lia. }
  assert (Hline : Z.of_nat (length line) < kLineMax).
  { unfold line. destruct (0 <=? index') eqn:Hge; [|cbn; lia].
    apply Z.leb_le in Hge.
    destruct (cmd_history_ t !! Z.to_nat index') as [h|] eqn:Hh; [|cbn; lia].
    cbn [default]. rewrite Forall_forall in Hlines.
    apply (Hlines h). by eapply list_elem_of_lookup_2. }
  assert (Hraw : linebuf_ t' = store_bytes 0 (line ++ [0]) (linebuf_ t) /\
                 linebuf_index_ t' = to_int (Z.of_nat (length line)) /\
                 cursor_ t' = mkVector2D (to_int (to_int (Z.of_nat (length line)) + 1))
                                (y (cursor_ t)) /\
                 cmd_history_ t' = cmd_history_ t /\
                 show_window_ t' = show_window_ t).
  { assert (Hidx' : cmd_history_index_ t' = index') by exact Hindex.
    unfold t', HistoryUpDown in *.
    cbn [snd cmd_history_index_ cmd_history_ linebuf_ linebuf_index_ cursor_ show_window_
           set_cursor draw set_linebuf set_linebuf_index set_cmd_history_index y]
      in Hidx' |- *.
    rewrite Hidx'. fold line. done. }
  destruct Hraw as (Hbuf & Hli & Hcur & Hhist & Hwin).
  splits; try done; try lia.
  - rewrite Hbuf, store_bytes_inside by (rewrite length_app; cbn; lia).
    rewrite take_0, length_app. cbn [app length].
    rewrite <- app_assoc. cbn. by replace (length line + 1)%nat with (S (length line)) by lia.
  - rewrite Hli. apply to_int_id. lia.
  - rewrite Hcur, !to_int_id; [done|lia|rewrite to_int_id; lia].
Qed.

(** X16: [InputKey] keeps the editor well formed, up to the call of
    [ExecuteLine] for a newline and to its return for any other key.
    The index into the line buffer stays between 0 and [kLineMax - 1], so
    the byte a key or the terminator is stored at lies inside the buffer;
    the history keeps its number of entries, each of them a terminated
    line; the history position stays -1 or the index of an entry.  When
    [ExecuteLine] is called the line buffer holds a terminated string,
    the index is 0 and the position is -1. *)
Theorem InputKey_keeps_editor (modifier keycode ascii : Z) (t : Terminal) :
  config_ok -> editor_ok t ->
  let t' := after_key (InputKey modifier keycode ascii t) in
  editor_ok t' /\
  length (cmd_history_ t') = length (cmd_history_ t) /\
  show_window_ t' = show_window_ t /\
  ((exists t1, InputKey modifier keycode ascii t = RunsLine t1) <-> ascii = 10) /\
  (ascii = 10 ->
   is_line (linebuf_ t') /\ linebuf_index_ t' = 0 /\ cmd_history_index_ t' = -1).
Proof.
  intros Hconfig Hok t'.
  pose proof Hconfig as (Hrows & Hcols & Hmax).
  pose proof Hok as (Hidx & Hlen & Hne & Hlines & Hpos & Hsize).
  destruct (DrawCursor_fields false t) as (Hwin0 & Hcur0 & Hidx0 & Hbuf0 & Hhist0 & Hpos0).
  unfold t', InputKey. clear t'.
  set (t0 := DrawCursor false t) in *.
  destruct (ascii =? 10) eqn:Hnl.
  { apply Z.eqb_eq in Hnl. subst ascii. cbn [after_key].
    set (buf := array_set (linebuf_index_ t0) 0 (linebuf_ t0)).
    assert (Hbuf : is_line buf).
    { unfold buf, array_set, is_line. rewrite Hidx0, Hbuf0.
      replace (linebuf_index_ t <? 0) with false by (symmetry; apply Z.ltb_ge; lia).
      rewrite length_insert. split; [done|].
      assert (length (cstring (<[Z.to_nat (linebuf_index_ t) := 0%Z]> (linebuf_ t)))
              <= Z.to_nat (linebuf_index_ t))%nat; [|lia].
      apply cstring_length_le. rewrite nth_lookup, list_lookup_insert_eq by lia. done. }
    match goal with |- context [newline ?t1] => set (t2 := t1) end.
    assert (Hfields : linebuf_ t2 = buf /\ linebuf_index_ t2 = 0 /\
              cmd_history_index_ t2 = -1 /\ show_window_ t2 = show_window_ t /\
              cmd_history_ t2 = (if 0 <? linebuf_index_ t
                                 then buf :: removelast (cmd_history_ t)
                                 else cmd_history_ t)).
    { unfold t2. cbn [set_linebuf linebuf_index_ linebuf_ cmd_history_ cmd_history_index_
                        show_window_ set_cmd_history_index set_linebuf_index].
      rewrite Hidx0. destruct (0 <? linebuf_index_ t);
        cbn [set_cmd_history linebuf_index_ linebuf_ cmd_history_ cmd_history_index_
               show_window_]; rewrite ?Hhist0; done. }
    destruct Hfields as (Hb2 & Hi2 & Hp2 & Hw2 & Hh2).
    assert (Hnewline : linebuf_ (newline t2) = linebuf_ t2 /\
              linebuf_index_ (newline t2) = linebuf_index_ t2 /\
              cmd_history_ (newline t2) = cmd_history_ t2 /\
              cmd_history_index_ (newline t2) = cmd_history_index_ t2 /\
              show_window_ (newline t2) = show_window_ t2).
    { apply newline_fields. }
    unfold editor_ok.
    destruct Hnewline as (-> & -> & -> & -> & ->).
    rewrite Hb2, Hi2, Hp2, Hw2, Hh2.
    assert (Hhlen : length (if 0 <? linebuf_index_ t
                            then buf :: removelast (cmd_history_ t)
                            else cmd_history_ t) = length (cmd_history_ t)).
    { destruct (0 <? linebuf_index_ t); [|done]. cbn [length].
      rewrite removelast_firstn_len, length_take.
      destruct (cmd_history_ t); [done|]. cbn [length]. lia. }
    splits; try done; try lia.
    - by destruct Hbuf.
    - destruct (0 <? linebuf_index_ t); done.
    - destruct (0 <? linebuf_index_ t); [|done]. constructor; [done|].
      rewrite removelast_firstn_len. by apply Forall_take.
    - split; [done|]. intros _. by eexists. }
  assert (Hnot : ascii <> 10) by (by apply Z.eqb_neq).
  assert (Hkeep : forall t1 : Terminal,
            editor_ok t1 -> length (cmd_history_ t1) = length (cmd_history_ t) ->
            show_window_ t1 = show_window_ t ->
            forall area,
            editor_ok (after_key (Returns area (DrawCursor true t1))) /\
            length (cmd_history_ (after_key (Returns area (DrawCursor true t1))))
            = length (cmd_history_ t) /\
            show_window_ (after_key (Returns area (DrawCursor true t1))) = show_window_ t /\
            ((exists t2, Returns area (DrawCursor true t1) = RunsLine t2) <-> ascii = 10) /\
            (ascii = 10 ->
             is_line (linebuf_ (after_key (Returns area (DrawCursor true t1)))) /\
             linebuf_index_ (after_key (Returns area (DrawCursor true t1))) = 0 /\
             cmd_history_index_ (after_key (Returns area (DrawCursor true t1))) = -1)).
  { intros t1 Hok1 Hlen1 Hwin1 area. cbn [after_key].
    destruct (DrawCursor_fields true t1) as (Hw & _ & Hi & Hb & Hh & Hp).
    unfold editor_ok. rewrite Hw, Hi, Hb, Hh, Hp. splits; try done; try apply Hok1.
    split; [intros [t2 [=]]|done]. }
  assert (Hok0 : editor_ok t0).
  { unfold editor_ok. by rewrite Hidx0, Hbuf0, Hhist0, Hpos0. }
  assert (Hkeep0 := fun area =>
            Hkeep t0 Hok0 (f_equal length Hhist0) Hwin0 area).
  destruct (ascii =? 8).
  { destruct (0 <? x (cursor_ t0)); [|by apply Hkeep0].
    apply Hkeep.
    - unfold editor_ok.
      destruct (show_window_ _); destruct (0 <? linebuf_index_ _) eqn:Hpos1;
        cbn [set_cursor draw set_linebuf_index linebuf_index_ linebuf_ cmd_history_
               cmd_history_index_ show_window_] in *;
        rewrite ?Hidx0, ?Hbuf0, ?Hhist0, ?Hpos0 in *;
        try (apply Z.ltb_lt in Hpos1; rewrite to_int_id by lia);
        splits; try done; lia.
    - destruct (show_window_ _); destruct (0 <? linebuf_index_ _); cbn; by rewrite Hhist0.
    - destruct (show_window_ _) eqn:Hs; destruct (0 <? linebuf_index_ _);
        cbn in *; congruence. }
  destruct (negb (ascii =? 0)).
  { destruct ((x (cursor_ t0) <? to_int (kColumns - 1))
              && (linebuf_index_ t0 <? to_int (kLineMax - 1))) eqn:Hroom;
      [|by apply Hkeep0].
    apply andb_true_iff in Hroom as [_ Hroom]. apply Z.ltb_lt in Hroom.
    rewrite to_int_id in Hroom by lia. rewrite Hidx0 in Hroom.
    apply Hkeep.
    - unfold editor_ok.
      destruct (show_window_ _);
        cbn [set_cursor draw set_linebuf_index set_linebuf linebuf_index_ linebuf_
               cmd_history_ cmd_history_index_ show_window_] in *;
        rewrite ?Hidx0, ?Hbuf0, ?Hhist0, ?Hpos0 in *;
        rewrite to_int_id by lia; unfold array_set;
        replace (linebuf_index_ t <? 0) with false by (symmetry; apply Z.ltb_ge; lia);
        rewrite length_insert; splits; try done; lia.
    - destruct (show_window_ _); cbn; by rewrite Hhist0.
    - destruct (show_window_ _) eqn:Hs; cbn in *; congruence. }
  assert (Harrow : forall d,
            let r := HistoryUpDown d t0 in
            editor_ok (snd r) /\ length (cmd_history_ (snd r)) = length (cmd_history_ t) /\
            show_window_ (snd r) = show_window_ t).
  { intros d.
    destruct (HistoryUpDown_spec d t0 Hconfig Hok0)
      as (index' & line & _ & _ & Hp1 & Hr1 & Hh1 & Hw1 & Hl1 & Hb1 & Hi1 & _).
    cbv zeta. unfold editor_ok. rewrite Hp1, Hh1, Hw1, Hb1, Hi1, Hhist0, Hwin0.
    rewrite Hhist0 in Hr1.
    splits; try done; try lia.
    rewrite length_app. cbn [length]. rewrite length_drop, Hbuf0. lia. }
  destruct (keycode =? 0x51).
  { destruct (Harrow (-1)) as (H1 & H2 & H3).
    destruct (HistoryUpDown (-1) t0) as [area t1]. by apply Hkeep. }
  destruct (keycode =? 0x52).
  { destruct (Harrow 1) as (H1 & H2 & H3).
    destruct (HistoryUpDown 1 t0) as [area t1]. by apply Hkeep. }
  by apply Hkeep0.
Qed.

Lemma cstring_nonzero_id (l : list Z) :
  Forall (fun c => c <> 0) l -> cstring l = l.
Proof.
  induction 1 as [|c l Hc _ IH]; [done|]. cbn.
  destruct (c =? 0) eqn:Hz; [apply Z.eqb_eq in Hz; done|]. by rewrite IH.
Qed.

(** One byte typed: it goes into the line if there is room for it. *)
Lemma InputKey_typed (modifier keycode c : Z) (t : Terminal) :
  config_ok -> editor_ok t -> cursor_ok t -> is_typed c ->
  let t' := after_key (InputKey modifier keycode c t) in
  (if 0 <? room t then
     linebuf_ t' = <[Z.to_nat (linebuf_index_ t) := c]> (linebuf_ t) /\
     linebuf_index_ t' = linebuf_index_ t + 1 /\
     cursor_ t' = mkVector2D (x (cursor_ t) + 1) (y (cursor_ t))
   else
     linebuf_ t' = linebuf_ t /\ linebuf_index_ t' = linebuf_index_ t /\
     cursor_ t' = cursor_ t) /\
  cmd_history_ t' = cmd_history_ t /\
  cmd_history_index_ t' = cmd_history_index_ t /\
  show_window_ t' = show_window_ t.
Proof.
  intros (Hrows & Hcols & Hmax) (Hidx & Hlen & _) [Hx Hy] (Hc0 & Hc10 & Hc8) t'.
  destruct (DrawCursor_fields false t) as (Hwin0 & Hcur0 & Hidx0 & Hbuf0 & Hhist0 & Hpos0).
  unfold t', InputKey, room. clear t'.
  set (t0 := DrawCursor false t) in *.
  replace (c =? 10) with false by (symmetry; by apply Z.eqb_neq).
  replace (c =? 8) with false by (symmetry; by apply Z.eqb_neq).
  replace (c =? 0) with false by (symmetry; by apply Z.eqb_neq).
  cbn [negb]. rewrite !to_int_id by lia. rewrite Hcur0, Hidx0.
  destruct ((x (cursor_ t) <? kColumns - 1) && (linebuf_index_ t <? kLineMax - 1))
    eqn:Hroom.
  - apply andb_true_iff in Hroom as [Hrx Hri].
    apply Z.ltb_lt in Hrx. apply Z.ltb_lt in Hri.
    replace (0 <? _) with true by (symmetry; apply Z.ltb_lt; lia).
    cbn [after_key].
    match goal with |- context [DrawCursor true ?t1] =>
      destruct (DrawCursor_fields true t1) as (-> & -> & -> & -> & -> & ->) end.
    destruct (show_window_ _) eqn:Hs;
      cbn [set_cursor draw set_linebuf_index set_linebuf linebuf_index_ linebuf_
             cmd_history_ cmd_history_index_ show_window_ cursor_ x y];
      rewrite ?Hidx0, ?Hbuf0, ?Hhist0, ?Hpos0, ?Hcur0, ?Hwin0;
      rewrite !to_int_id by lia; unfold array_set;
      replace (linebuf_index_ t <? 0) with false by (symmetry; apply Z.ltb_ge; lia);
      splits; auto; congruence.
  - apply andb_false_iff in Hroom.
    replace (0 <? _) with false
      by (symmetry; apply Z.ltb_ge; destruct Hroom as [H|H]; apply Z.ltb_ge in H; lia).
    cbn [after_key].
    destruct (DrawCursor_fields true t0) as (-> & -> & -> & -> & -> & ->).
    done.
Qed.

(** X17: typing a run of bytes.  Bytes other than NUL, newline and
    backspace, given to [InputKey] one after the other as [TaskTerminal]
    does for a command line, land in the line buffer in order from the
    index on, and the cursor moves right by one for each, as long as the
    cursor is left of the last column and the index leaves room for the
    terminator; every byte after that is dropped.  The number of bytes
    taken is the smaller of their count and that room, with or without a
    window; the history is not touched and the editor stays well
    formed. *)
Theorem type_keys_line (cs : list Z) (t : Terminal) :
  config_ok -> editor_ok t -> cursor_ok t -> Forall is_typed cs ->
  let n := Z.to_nat (Z.min (Z.of_nat (length cs)) (room t)) in
  let i := Z.to_nat (linebuf_index_ t) in
  let t' := type_keys cs t in
  linebuf_ t' = take i (linebuf_ t) ++ take n cs ++ drop (i + n) (linebuf_ t) /\
  linebuf_index_ t' = linebuf_index_ t + Z.of_nat n /\
  cursor_ t' = mkVector2D (x (cursor_ t) + Z.of_nat n) (y (cursor_ t)) /\
  cmd_history_ t' = cmd_history_ t /\
  cmd_history_index_ t' = cmd_history_index_ t /\
  show_window_ t' = show_window_ t /\
  editor_ok t' /\ cursor_ok t'.
Proof.
  intros Hconfig Hok Hcur Htyped. unfold type_keys.
  rewrite cstring_nonzero_id by (eapply Forall_impl; [exact Htyped|]; by intros c []).
  revert t Hok Hcur. induction Htyped as [|c cs Hc _ IH]; intros t Hok Hcur.
  { cbn [foldl length]. unfold room.
    replace (Z.to_nat (Z.min (Z.of_nat 0) _)) with 0%nat by lia.
    rewrite take_0, Nat.add_0_r. cbn [app]. rewrite take_drop.
    destruct (cursor_ t). cbn [x y]. rewrite !Z.add_0_r. done. }
  cbn [foldl].
  pose proof (InputKey_typed 0 0 c t Hconfig Hok Hcur Hc) as (Hstep & Hh1 & Hp1 & Hw1).
  set (t1 := after_key (InputKey 0 0 c t)) in *.
  pose proof Hconfig as (Hrows & Hcols & Hmax).
  pose proof Hok as (Hidx & Hlen & Hne & Hlines & Hpos & Hsize).
  pose proof Hcur as [Hx Hy].
  assert (Hok1 : editor_ok t1).
  { unfold editor_ok, room in *. rewrite Hh1, Hp1. destruct (0 <? _) eqn:Hroom.
    - apply Z.ltb_lt in Hroom. destruct Hstep as (-> & -> & _).
      rewrite length_insert. splits; try done; lia.
    - destruct Hstep as (-> & -> & _). done. }
  assert (Hcur1 : cursor_ok t1).
  { unfold cursor_ok, room in *. destruct (0 <? _) eqn:Hroom.
    - apply Z.ltb_lt in Hroom. destruct Hstep as (_ & _ & ->). cbn [x y]. lia.
    - destruct Hstep as (_ & _ & ->). done. }
  destruct (IH t1 Hok1 Hcur1) as (Hb & Hi & Hc' & Hh & Hp & Hw & Hok' & Hcur').
  rewrite Hb, Hi, Hc', Hh, Hp, Hw, Hh1, Hp1, Hw1.
  split; [|split; [|split]]; [| | |done].
  - unfold room in *. destruct (0 <? _) eqn:Hroom.
    + apply Z.ltb_lt in Hroom. destruct Hstep as (Hs1 & Hs2 & Hs3); rewrite ?Hs1, ?Hs2, ?Hs3. cbn [x y length].
      set (i := Z.to_nat (linebuf_index_ t)).
      assert (Hi' : (i < length (linebuf_ t))%nat) by (unfold i; lia).
      replace (Z.to_nat (linebuf_index_ t + 1)) with (S i) by (unfold i; lia).
      match goal with |- context [take (Z.to_nat ?m) cs] =>
        set (n' := Z.to_nat m);
        replace (Z.to_nat (Z.min (Z.of_nat (S (length cs))) _)) with (S n')
          by (unfold n'; lia) end.
      rewrite (insert_take_drop _ i c Hi').
      rewrite (cons_middle c), (app_assoc (take i (linebuf_ t)) [c]).
      rewrite (take_app_length' (take i (linebuf_ t) ++ [c]))
        by (rewrite length_app, length_take; cbn; lia).
      rewrite drop_app_ge by (rewrite length_app, length_take; cbn; lia).
      rewrite length_app, length_take. cbn [length take].
      replace (S i + n' - (i `min` length (linebuf_ t) + 1))%nat with n' by lia.
      rewrite drop_drop. rewrite <- !app_assoc. cbn [app].
      by replace (S i + n')%nat with (i + S n')%nat by lia.
    + apply Z.ltb_ge in Hroom. destruct Hstep as (Hs1 & Hs2 & Hs3); rewrite ?Hs1, ?Hs2, ?Hs3.
      replace (Z.to_nat (Z.min (Z.of_nat (length cs)) _)) with 0%nat by lia.
      replace (Z.to_nat (Z.min (Z.of_nat (length (c :: cs))) _)) with 0%nat by lia.
      done.
  - unfold room in *. destruct (0 <? _) eqn:Hroom.
    + apply Z.ltb_lt in Hroom. destruct Hstep as (Hs1 & Hs2 & Hs3); rewrite ?Hs1, ?Hs2, ?Hs3. cbn [x y length]. lia.
    + apply Z.ltb_ge in Hroom. destruct Hstep as (Hs1 & Hs2 & Hs3); rewrite ?Hs1, ?Hs2, ?Hs3. cbn [length]. lia.
  - unfold room in *. destruct (0 <? _) eqn:Hroom.
    + apply Z.ltb_lt in Hroom. destruct Hstep as (Hs1 & Hs2 & Hs3); rewrite ?Hs1, ?Hs2, ?Hs3. cbn [x y length].
      f_equal. lia.
    + apply Z.ltb_ge in Hroom. destruct Hstep as (Hs1 & Hs2 & Hs3); rewrite ?Hs1, ?Hs2, ?Hs3. cbn [length].
      f_equal. lia.
Qed.

(** The backspace key. *)
Lemma InputKey_backspace (modifier keycode : Z) (t : Terminal) :
  config_ok -> editor_ok t -> cursor_ok t ->
  let t' := after_key (InputKey modifier keycode 8 t) in
  linebuf_ t' = linebuf_ t /\
  cmd_history_ t' = cmd_history_ t /\
  cmd_history_index_ t' = cmd_history_index_ t /\
  cursor_ t' = mkVector2D (Z.max 0 (x (cursor_ t) - 1)) (y (cursor_ t)) /\
  linebuf_index_ t' =
    (if 0 <? x (cursor_ t) then Z.max 0 (linebuf_index_ t - 1) else linebuf_index_ t).
Proof.
  intros (Hrows & Hcols & Hmax) (Hidx & _) [Hx Hy] t'.
  destruct (DrawCursor_fields false t) as (Hwin0 & Hcur0 & Hidx0 & Hbuf0 & Hhist0 & Hpos0).
  unfold t', InputKey. clear t'. cbn [Z.eqb Pos.eqb].
  set (t0 := DrawCursor false t) in *. rewrite Hcur0.
  destruct (0 <? x (cursor_ t)) eqn:Hleft; cbn [after_key].
  - apply Z.ltb_lt in Hleft.
    match goal with |- context [DrawCursor true ?t1] =>
      destruct (DrawCursor_fields true t1) as (_ & -> & -> & -> & -> & ->) end.
    destruct (show_window_ _) eqn:Hs; destruct (0 <? linebuf_index_ _) eqn:Hpos;
      cbn [set_cursor draw set_linebuf_index linebuf_index_ linebuf_ cmd_history_
             cmd_history_index_ cursor_ x y] in *;
      rewrite ?Hidx0, ?Hbuf0, ?Hhist0, ?Hpos0, ?Hcur0 in *;
      [apply Z.ltb_lt in Hpos|apply Z.ltb_ge in Hpos
      |apply Z.ltb_lt in Hpos|apply Z.ltb_ge in Hpos];
      rewrite !to_int_id by lia; splits; try done; f_equal; lia.
  - apply Z.ltb_ge in Hleft.
    destruct (DrawCursor_fields true t0) as (_ & -> & -> & -> & -> & ->).
    rewrite Hidx0, Hbuf0, Hhist0, Hpos0, Hcur0. splits; try done.
    destruct (cursor_ t) as [cx cy]. cbn [x y] in *. f_equal. lia.
Qed.

(** X18: the backspace key.  It never changes a byte of the line buffer
    or the history.  With the cursor right of column 0 it moves the
    cursor one column left and the index one byte back, the index
    stopping at 0: at the start of a line the cursor still moves, onto
    the column of the prompt.  With the cursor in column 0 it does
    nothing, whatever the index is.  After a key that was taken, a
    backspace puts index and cursor back where they were, and the line up
    to the index is as before. *)
Theorem backspace_undoes_key (modifier keycode c : Z) (t : Terminal) :
  config_ok -> editor_ok t -> cursor_ok t ->
  let erased := after_key (InputKey modifier keycode 8 t) in
  let typed := after_key (InputKey modifier keycode c t) in
  let both := after_key (InputKey modifier keycode 8 typed) in
  linebuf_ erased = linebuf_ t /\
  cmd_history_ erased = cmd_history_ t /\
  cursor_ erased = mkVector2D (Z.max 0 (x (cursor_ t) - 1)) (y (cursor_ t)) /\
  linebuf_index_ erased =
    (if 0 <? x (cursor_ t) then Z.max 0 (linebuf_index_ t - 1) else linebuf_index_ t) /\
  (is_typed c -> 0 < room t ->
   linebuf_index_ both = linebuf_index_ t /\
   cursor_ both = cursor_ t /\
   take (Z.to_nat (linebuf_index_ t)) (linebuf_ both)
   = take (Z.to_nat (linebuf_index_ t)) (linebuf_ t)).
Proof.
  intros Hconfig Hok Hcur erased typed both.
  destruct (InputKey_backspace modifier keycode t Hconfig Hok Hcur)
    as (Hb & Hh & _ & Hc & Hi).
  unfold erased. split; [exact Hb|]. split; [exact Hh|]. split; [exact Hc|].
  split; [exact Hi|].
  intros Hc' Hroom.
  pose proof (InputKey_typed modifier keycode c t Hconfig Hok Hcur Hc')
    as (Hstep & Hh1 & Hp1 & _).
  replace (0 <? room t) with true in Hstep by (symmetry; by apply Z.ltb_lt).
  destruct Hstep as (Hb1 & Hi1 & Hc1). fold typed in Hb1, Hi1, Hc1, Hh1, Hp1.
  pose proof Hconfig as (Hrows & Hcols & Hmax).
  pose proof Hok as (Hidx & Hlen & Hne & Hlines & Hpos & Hsize).
  pose proof Hcur as [Hx Hy]. unfold room in Hroom.
  assert (Hok1 : editor_ok typed).
  { unfold editor_ok. rewrite Hb1, Hi1, Hh1, Hp1, length_insert. splits; try done; lia. }
  assert (Hcur1 : cursor_ok typed).
  { unfold cursor_ok. rewrite Hc1. cbn [x y]. lia. }
  destruct (InputKey_backspace modifier keycode typed Hconfig Hok1 Hcur1)
    as (Hb2 & _ & _ & Hc2 & Hi2).
  fold both in Hb2, Hc2, Hi2.
  rewrite Hi2, Hc2, Hb2, Hc1, Hi1, Hb1. cbn [x y].
  replace (0 <? x (cursor_ t) + 1) with true by (symmetry; apply Z.ltb_lt; lia).
  splits.
  - lia.
  - destruct (cursor_ t) as [cx cy]. cbn [x y] in *. f_equal. lia.
  - apply take_insert_ge. lia.
Qed.

Lemma DrawCursor_editor (visible : bool) (t : Terminal) :
  editor_ok t -> editor_ok (DrawCursor visible t).
Proof.
  destruct (DrawCursor_fields visible t) as (_ & _ & Hi & Hb & Hh & Hp).
  unfold editor_ok. by rewrite Hi, Hb, Hh, Hp.
Qed.

(** An arrow key: the history position moves by one if it can, and the
    line at the new position, or the empty line at position -1, replaces
    what was being typed. *)
Lemma InputKey_arrow (modifier keycode : Z) (t : Terminal) :
  config_ok -> editor_ok t -> keycode = 0x51 \/ keycode = 0x52 ->
  let t' := after_key (InputKey modifier keycode 0 t) in
  let index := cmd_history_index_ t in
  exists (index' : Z) (line : list Z),
  index' =
    (if keycode =? 0x51 then (if 0 <=? index then index - 1 else index)
     else (if index + 1 <? Z.of_nat (length (cmd_history_ t)) then index + 1
           else index)) /\
  line =
    (if 0 <=? index' then cstring (default [] (cmd_history_ t !! Z.to_nat index'))
     else []) /\
  cmd_history_index_ t' = index' /\
  cmd_history_ t' = cmd_history_ t /\
  linebuf_ t' = line ++ 0 :: drop (S (length line)) (linebuf_ t) /\
  cstring (linebuf_ t') = line /\
  linebuf_index_ t' = Z.of_nat (length line) /\
  cursor_ t' = mkVector2D (Z.of_nat (length line) + 1) (y (cursor_ t)) /\
  editor_ok t'.
Proof.
  intros Hconfig Hok Hkey t' index.
  destruct (DrawCursor_fields false t) as (Hwin0 & Hcur0 & Hidx0 & Hbuf0 & Hhist0 & Hpos0).
  pose proof (DrawCursor_editor false t Hok) as Hok0.
  assert (Hrun : exists d, (d = (if keycode =? 0x51 then -1 else 1)) /\
            t' = DrawCursor true (snd (HistoryUpDown d (DrawCursor false t)))).
  { unfold t', InputKey. cbn [Z.eqb negb].
    destruct Hkey as [-> | ->]; cbn [Z.eqb Pos.eqb].
    - exists (-1). split; [done|]. by destruct (HistoryUpDown (-1) _).
    - exists 1. split; [done|]. by destruct (HistoryUpDown 1 _). }
  destruct Hrun as (d & Hd & Ht'). clearbody t'. subst t'.
  destruct (HistoryUpDown_spec d (DrawCursor false t) Hconfig Hok0)
    as (index' & line & Hdef & Hline & Hp1 & Hr1 & Hh1 & Hw1 & Hl1 & Hb1 & Hi1 & Hc1).
  match goal with |- context [DrawCursor true ?t1] =>
    destruct (DrawCursor_fields true t1) as (Hw & Hc & Hi & Hb & Hh & Hp);
    set (t2 := DrawCursor true t1) in * end.
  rewrite ?Hhist0, ?Hpos0 in Hdef, Hline, Hr1. fold index in Hdef.
  rewrite Hbuf0 in Hb1. rewrite Hcur0 in Hc1.
  assert (Hnz : Forall (fun c => c <> 0) line).
  { rewrite Hline. destruct (0 <=? index'); [apply cstring_nonzero|constructor]. }
  exists index', line. rewrite Hp, Hh, Hb, Hi, Hc, Hp1, Hh1, Hb1, Hi1, Hc1, Hhist0.
  split.
  { rewrite Hdef, Hd, !Hpos0. unfold index.
    destruct Hkey as [-> | ->]; cbn [Z.eqb Pos.eqb andb]; done. }
  splits; try done.
  - by apply cstring_app_zero.
  - pose proof Hok as (Hidx & Hlen & Hne & Hlines & Hpos & Hsize).
    destruct Hconfig as (_ & _ & Hmax).
    unfold editor_ok. rewrite Hp, Hh, Hb, Hi, Hp1, Hh1, Hb1, Hi1, Hhist0.
    splits; try done; try lia.
    rewrite length_app. cbn [length]. rewrite length_drop. lia.
Qed.

(** The newline key, up to the call of [ExecuteLine]. *)
Lemma InputKey_newline (modifier keycode : Z) (t : Terminal) :
  config_ok -> editor_ok t ->
  let t' := after_key (InputKey modifier keycode 10 t) in
  let line := <[Z.to_nat (linebuf_index_ t) := 0]> (linebuf_ t) in
  linebuf_ t' = line /\
  linebuf_index_ t' = 0 /\ cmd_history_index_ t' = -1 /\
  cmd_history_ t' =
    (if 0 <? linebuf_index_ t then line :: removelast (cmd_history_ t)
     else cmd_history_ t).
Proof.
  intros Hconfig (Hidx & _) t' line.
  destruct (DrawCursor_fields false t) as (Hwin0 & Hcur0 & Hidx0 & Hbuf0 & Hhist0 & Hpos0).
  unfold t', InputKey. cbn [Z.eqb Pos.eqb after_key].
  match goal with |- context [newline ?t1] =>
    destruct (newline_fields t1) as (-> & -> & -> & -> & _) end.
  cbn [set_linebuf linebuf_index_ linebuf_ cmd_history_ cmd_history_index_
         set_cmd_history_index set_linebuf_index].
  rewrite Hidx0, Hbuf0. unfold array_set.
  replace (linebuf_index_ t <? 0) with false by (symmetry; apply Z.ltb_ge; lia).
  fold line.
  destruct (0 <? linebuf_index_ t);
    cbn [set_cmd_history linebuf_ cmd_history_]; rewrite ?Hhist0; done.
Qed.

(** X19: a line that was entered is what the up arrow brings back.  When
    the newline key is pressed on a line of one or more bytes, the line
    buffer handed to [ExecuteLine] holds that line with its terminator,
    and a copy of it becomes the newest history entry, while the history
    keeps its number of entries.  Whatever [ExecuteLine] then does to the
    line buffer, as long as the history is left as it is, the up arrow
    puts the line back: the buffer holds it again, the index is at its
    end, the cursor one column further (after the prompt) and the
    history position is 0. *)
Theorem history_recall (cs : list Z) (t t3 : Terminal) (m1 k1 m2 : Z) :
  config_ok -> editor_ok t ->
  cs <> [] -> Forall (fun c => c <> 0) cs ->
  linebuf_index_ t = Z.of_nat (length cs) ->
  take (length cs) (linebuf_ t) = cs ->
  let t2 := after_key (InputKey m1 k1 10 t) in
  editor_ok t3 ->
  cmd_history_ t3 = cmd_history_ t2 ->
  cmd_history_index_ t3 = cmd_history_index_ t2 ->
  let t4 := after_key (InputKey m2 0x52 0 t3) in
  cstring (linebuf_ t2) = cs /\
  (exists h, head (cmd_history_ t2) = Some h /\ cstring h = cs) /\
  length (cmd_history_ t2) = length (cmd_history_ t) /\
  cstring (linebuf_ t4) = cs /\
  linebuf_index_ t4 = Z.of_nat (length cs) /\
  x (cursor_ t4) = Z.of_nat (length cs) + 1 /\
  cmd_history_index_ t4 = 0.
Proof.
  intros Hconfig Hok Hne Hnz Hidx Htake t2 Hok3 Hhist3 Hpos3 t4.
  destruct (InputKey_newline m1 k1 t Hconfig Hok) as (Hb2 & Hi2 & Hp2 & Hh2).
  unfold t4. clear t4. unfold t2 in *. clear t2.
  set (t2 := after_key (InputKey m1 k1 10 t)) in *.
  pose proof Hok as (Hrange & Hlen & Hhne & Hlines & Hpos & Hsize).
  assert (Hpos0 : 0 < Z.of_nat (length cs)) by (destruct cs; [done|cbn; lia]).
  assert (Hline : <[Z.to_nat (linebuf_index_ t) := 0]> (linebuf_ t)
                  = cs ++ 0 :: drop (S (length cs)) (linebuf_ t)).
  { rewrite insert_take_drop by lia. rewrite Hidx, Nat2Z.id, Htake. done. }
  rewrite Hline in Hb2, Hh2.
  replace (0 <? linebuf_index_ t) with true in Hh2 by (symmetry; apply Z.ltb_lt; lia).
  assert (Hcs : cstring (cs ++ 0 :: drop (S (length cs)) (linebuf_ t)) = cs)
    by (by apply cstring_app_zero).
  destruct (InputKey_arrow m2 0x52 t3 Hconfig Hok3 ltac:(by right))
    as (index' & line & Hdef & Hldef & Hp4 & Hh4 & Hb4 & Hc4 & Hi4 & Hx4 & _).
  set (t4 := after_key (InputKey m2 0x52 0 t3)) in *.
  rewrite Hpos3, Hp2, Hhist3, Hh2 in Hdef. cbn [Z.eqb Pos.eqb length] in Hdef.
  replace (-1 + 1 <? Z.of_nat (S (length (removelast (cmd_history_ t))))) with true
    in Hdef by (symmetry; apply Z.ltb_lt; lia).
  replace (-1 + 1) with 0 in Hdef by lia. subst index'.
  rewrite Hhist3, Hh2 in Hldef.
  change (line = cstring (cs ++ 0 :: drop (S (length cs)) (linebuf_ t))) in Hldef.
  rewrite Hcs in Hldef. subst line.
  rewrite Hb2, Hh2, Hc4, Hi4, Hx4, Hp4. cbn [x head].
  splits; try done.
  - by eexists.
  - cbn [length]. rewrite removelast_firstn_len, length_take.
    destruct (cmd_history_ t); [done|]. cbn [length]. lia.
Qed.

(** X20: moving through the history with the arrow keys.  The up arrow
    goes one entry back unless the position is at the oldest entry, the
    down arrow one entry forward unless the position is -1, so a down
    arrow after an up arrow that moved returns to the position before.
    After either key the line buffer holds the entry at the new position,
    or the empty string at position -1, the index is the length of that
    string and the cursor is one column further. *)
Theorem arrow_keys_navigate (modifier : Z) (t : Terminal) :
  config_ok -> editor_ok t ->
  let size := Z.of_nat (length (cmd_history_ t)) in
  let up := after_key (InputKey modifier 0x52 0 t) in
  let down := after_key (InputKey modifier 0x51 0 t) in
  let shown t' :=
    cstring (linebuf_ t')
    = (if 0 <=? cmd_history_index_ t'
       then cstring (default [] (cmd_history_ t !! Z.to_nat (cmd_history_index_ t')))
       else []) /\
    linebuf_index_ t' = Z.of_nat (length (cstring (linebuf_ t'))) /\
    x (cursor_ t') = linebuf_index_ t' + 1 /\
    cmd_history_ t' = cmd_history_ t in
  cmd_history_index_ up = Z.min (cmd_history_index_ t + 1) (size - 1) /\
  cmd_history_index_ down = Z.max (cmd_history_index_ t - 1) (-1) /\
  shown up /\ shown down /\
  (cmd_history_index_ t + 1 < size ->
   cmd_history_index_ (after_key (InputKey modifier 0x51 0 up)) = cmd_history_index_ t).
Proof.
  intros Hconfig Hok size up down shown.
  unfold shown, up, down, size. clear shown up down size.
  set (size := Z.of_nat (length (cmd_history_ t))).
  set (shown := fun t' : Terminal =>
    cstring (linebuf_ t')
    = (if 0 <=? cmd_history_index_ t'
       then cstring (default [] (cmd_history_ t !! Z.to_nat (cmd_history_index_ t')))
       else []) /\
    linebuf_index_ t' = Z.of_nat (length (cstring (linebuf_ t'))) /\
    x (cursor_ t') = linebuf_index_ t' + 1 /\
    cmd_history_ t' = cmd_history_ t).
  pose proof Hok as (_ & _ & _ & _ & Hpos & _). fold size in Hpos.
  destruct (InputKey_arrow modifier 0x52 t Hconfig Hok ltac:(by right))
    as (iu & lu & Hiu & Hlu & Hp1 & Hh1 & _ & Hc1 & Hi1 & Hx1 & Hok1).
  destruct (InputKey_arrow modifier 0x51 t Hconfig Hok ltac:(by left))
    as (id & ld & Hid & Hld & Hp2 & Hh2 & _ & Hc2 & Hi2 & Hx2 & _).
  set (up := after_key (InputKey modifier 0x52 0 t)) in *.
  set (down := after_key (InputKey modifier 0x51 0 t)) in *.
  cbn [Z.eqb Pos.eqb] in Hiu, Hid.
  assert (Hup : iu = Z.min (cmd_history_index_ t + 1) (size - 1)).
  { rewrite Hiu. unfold size in *.
    destruct (cmd_history_index_ t + 1 <? Z.of_nat (length (cmd_history_ t))) eqn:Hlt;
      [apply Z.ltb_lt in Hlt|apply Z.ltb_ge in Hlt]; lia. }
  assert (Hdown : id = Z.max (cmd_history_index_ t - 1) (-1)).
  { rewrite Hid.
    destruct (0 <=? cmd_history_index_ t) eqn:Hge;
      [apply Z.leb_le in Hge|apply Z.leb_gt in Hge]; lia. }
  split; [by rewrite Hp1|]. split; [by rewrite Hp2|].
  split; [|split].
  - unfold shown. rewrite Hc1, Hi1, Hx1, Hp1, Hh1, <- Hlu. cbn [x]. done.
  - unfold shown. rewrite Hc2, Hi2, Hx2, Hp2, Hh2, <- Hld. cbn [x]. done.
  - intros Hroom.
    destruct (InputKey_arrow modifier 0x51 up Hconfig Hok1 ltac:(by left))
      as (i2 & l2 & Hi2' & _ & Hp3 & _).
    rewrite Hp3, Hi2', Hp1, Hup. cbn [Z.eqb Pos.eqb].
    replace (Z.min (cmd_history_index_ t + 1) (size - 1)) with (cmd_history_index_ t + 1)
      by lia.
    replace (0 <=? cmd_history_index_ t + 1) with true by (symmetry; apply Z.leb_le; lia).
    lia.
Qed.



End TerminalProperties.


(** The example terminal is well formed. *)
Lemma at_prompt_ok :
  Terminal.config_ok (config := Terminal.example_config) /\
  Terminal.editor_ok (config := Terminal.example_config) Terminal.at_prompt /\
  Terminal.cursor_ok (config := Terminal.example_config) Terminal.at_prompt.
Proof.
  split; [|split].
  - unfold Terminal.config_ok. cbn. lia.
  - unfold Terminal.editor_ok. cbn -[replicate Z.of_nat].
    split; [lia|]. split; [by rewrite length_replicate|].
    split; [discriminate|]. split; [|rewrite length_replicate; lia].
    apply Forall_replicate. split; [by rewrite length_replicate|].
    vm_compute. reflexivity.
  - unfold Terminal.cursor_ok. cbn. lia.
Qed.

(** [Print32_keeps_cursor] for the letter a printed at the prompt. *)
Lemma Print32_keeps_cursor_witness :
  Terminal.cursor_ok (config := Terminal.example_config)
    (Terminal.Print32 (config := Terminal.example_config) 97 Terminal.at_prompt).
Proof.
  destruct at_prompt_ok as (Hconfig & _ & Hcursor).
  apply (Print32_keeps_cursor (config := Terminal.example_config) 97 Terminal.at_prompt
           Hconfig Hcursor).
Defined.

(** [InputKey_keeps_editor] for the newline key at the prompt. *)
Lemma InputKey_keeps_editor_witness :
  Terminal.editor_ok (config := Terminal.example_config)
    (Terminal.after_key
       (Terminal.InputKey (config := Terminal.example_config) 0 0 10 Terminal.at_prompt)).
Proof.
  destruct at_prompt_ok as (Hconfig & Heditor & _).
  apply (InputKey_keeps_editor (config := Terminal.example_config) 0 0 10
           Terminal.at_prompt Hconfig Heditor).
Defined.

(** [type_keys_line] for the two letters of ls typed at the prompt. *)
Lemma type_keys_line_witness :
  Terminal.linebuf_index_
    (Terminal.type_keys (config := Terminal.example_config) [108; 115] Terminal.at_prompt)
  = 2 /\
  Terminal.cursor_
    (Terminal.type_keys (config := Terminal.example_config) [108; 115] Terminal.at_prompt)
  = Terminal.mkVector2D 3 0.
Proof.
  destruct at_prompt_ok as (Hconfig & Heditor & Hcursor).
  destruct (type_keys_line (config := Terminal.example_config) [108; 115]
              Terminal.at_prompt Hconfig Heditor Hcursor)
    as (_ & Hindex & Hcur & _).
  - repeat constructor; discriminate.
  - split; [rewrite Hindex|rewrite Hcur]; reflexivity.
Defined.

(** [history_recall]: ls is typed and entered at the prompt, nothing else
    changes, and the up arrow shows ls again. *)
Lemma history_recall_witness :
  let typed :=
    Terminal.type_keys (config := Terminal.example_config) [108; 115] Terminal.at_prompt in
  let entered :=
    Terminal.after_key
      (Terminal.InputKey (config := Terminal.example_config) 0 0 10 typed) in
  cstring
    (Terminal.linebuf_
       (Terminal.after_key
          (Terminal.InputKey (config := Terminal.example_config) 0 0x52 0 entered)))
  = [108; 115].
Proof.
  intros typed entered.
  destruct at_prompt_ok as (Hconfig & _ & _).
  assert (Htyped : Terminal.editor_ok (config := Terminal.example_config) typed).
  { unfold Terminal.editor_ok. vm_compute.
    repeat split; try discriminate. repeat constructor; discriminate. }
  assert (Hentered : Terminal.editor_ok (config := Terminal.example_config) entered).
  { unfold Terminal.editor_ok. vm_compute.
    repeat split; try discriminate. repeat constructor; discriminate. }
  destruct (history_recall (config := Terminal.example_config) [108; 115] typed entered
              0 0 0 Hconfig Htyped)
    as (_ & _ & _ & Hline & _); try reflexivity; try done.
  repeat constructor; discriminate.
Defined.

(** [arrow_keys_navigate] at the prompt: the up arrow moves to the newest
    entry. *)
Lemma arrow_keys_navigate_witness :
  Terminal.cmd_history_index_
    (Terminal.after_key
       (Terminal.InputKey (config := Terminal.example_config) 0 0x52 0 Terminal.at_prompt))
  = 0.
Proof.
  destruct at_prompt_ok as (Hconfig & Heditor & _).
  destruct (arrow_keys_navigate (config := Terminal.example_config) 0 Terminal.at_prompt
              Hconfig Heditor)
    as (Hup & _).
  rewrite Hup. reflexivity.
Defined.


(** [backspace_undoes_key] at the prompt: the letter a, then backspace. *)
Lemma backspace_undoes_key_witness :
  Terminal.cursor_
    (Terminal.after_key
       (Terminal.InputKey (config := Terminal.example_config) 0 0 8
          (Terminal.after_key
             (Terminal.InputKey (config := Terminal.example_config) 0 0 97
                Terminal.at_prompt))))
  = Terminal.cursor_ Terminal.at_prompt.
Proof.
  destruct at_prompt_ok as (Hconfig & Heditor & Hcursor).
  destruct (backspace_undoes_key (config := Terminal.example_config) 0 0 97
              Terminal.at_prompt Hconfig Heditor Hcursor)
    as (_ & _ & _ & _ & Hboth).
  destruct Hboth as (_ & Hcur & _); [|reflexivity|exact Hcur].
  repeat split; discriminate.
Defined.
